(** * Cryologger GVMS: the acquisition-to-storage pipeline and the duty cycle

    A shallow embedding of
      - [storeData] (Software/cryologger_gvms_ola/storeData.ino),
      - [loop], [configureRtc] and the interrupt handlers of the OpenLog
        Artemis sketch,
      - [setSleepAlarm], [setLoggingAlarm], [configureRtc] and
        [am_watchdog_isr] of the MicroMod sketch,
    together with the properties the specification states about them. *)

From Stdlib Require Import ZArith Lia Bool.
From Stdlib Require Import Init.Byte Strings.Byte.
From stdpp Require Import base tactics option list.

Local Open Scope Z_scope.

(** ** Machine integers and bytes *)

Definition wrap8 (z : Z) : Z := z mod 256.
Definition wrap16 (z : Z) : Z := z mod 65536.
Definition wrap32 (z : Z) : Z := z mod 4294967296.

(** Two's-complement reading of a 32-bit pattern ([nanos.signed32]). *)
Definition signed32 (u : Z) : Z :=
  if u <? 2147483648 then u else u - 4294967296.

(** [int] arithmetic as the Apollo3 has it: 32 bits, two's complement. *)
Definition wrap_int (z : Z) : Z := signed32 (wrap32 z).

(** [char] is unsigned on the target, so a buffer cell reads as 0..255. *)
Definition b2z (b : byte) : Z := Z.of_N (Byte.to_N b).

Definition z2b (z : Z) : byte :=
  match Byte.of_N (Z.to_N (wrap8 z)) with
  | Some b => b
  | None => x00
  end.

(** ** The staging ring buffer *)

(** Modelled from the spec: the class [RingBufferN] that [GNSSbuffer]
    instantiates is not part of the sources.  It is the bounded FIFO of
    section 4.2: the capacity is fixed at construction, [store_char] on a
    full buffer drops the byte and returns nothing, [read_char] takes the
    oldest byte (and answers -1 on an empty buffer), [available] is the
    number of bytes held. *)
Record RingBufferN := mkRing { rb_elems : list byte }.

Definition rb_empty : RingBufferN := mkRing [].

Definition available (b : RingBufferN) : nat := length (rb_elems b).

Definition store_char (N : nat) (c : byte) (b : RingBufferN) : RingBufferN :=
  if (available b <? N)%nat then mkRing (rb_elems b ++ [c]) else b.

Definition read_char (b : RingBufferN) : Z * RingBufferN :=
  match rb_elems b with
  | [] => (-1, b)
  | c :: rest => (b2z c, mkRing rest)
  end.

Definition free_capacity (N : nat) (b : RingBufferN) : nat := (N - available b)%nat.

(** [RingBufferN<24576> GNSSbuffer;] *)
Definition GNSSbufferSize : nat := Z.to_nat 24576.
(** [const size_t UBXbufferSize = 4096;] *)
Definition UBXbufferSize : nat := 4096.
(** [const size_t SDpacket = 512;] *)
Definition SDpacket : nat := 512.

(** The loop of storeData.ino lines 326-330: every byte of the frame goes
    through [store_char]; nothing is returned and nothing is counted. *)
Fixpoint copy_frame (N : nat) (frame : list byte) (b : RingBufferN) : RingBufferN :=
  match frame with
  | [] => b
  | c :: rest => copy_frame N rest (store_char N c b)
  end.


(** ** Clocks, transport and observable effects *)

(** The two free-running clocks, sampled once for the invocation. *)
Record Env := mkEnv {
  micros : Z;   (* micros(), unsigned long *)
  millis : Z    (* millis(), unsigned long *)
}.

(** What the receiver answers to the two-byte length query (registers
    0xFD/0xFE) and to each read of the data register 0xFF. *)
Inductive LenReply :=
| LenNack                         (* endTransmission(false) != 0 *)
| LenNone                         (* requestFrom delivered nothing *)
| LenBytes (msb lsb : byte).

Inductive Chunk :=
| ChunkNack                       (* endTransmission(false) != 0 *)
| ChunkNone                       (* qwiic.available() == 0 *)
| ChunkData (data : list byte).   (* the bytes in the bus buffer; none is ChunkNone *)

Record Transport := mkTransport {
  len_reply : LenReply;
  chunks : list Chunk   (* one answer per pass of the read loop; an
                           exhausted list is a receiver that stopped
                           acknowledging *)
}.

Inductive FrameKind := RAWX | PVT | HPPOSLLH | RELPOSNED.

Inductive SerialMsg :=
| MsgLengthLsbFF
| MsgBytesAvailableError (n : Z)
| MsgUBXbufferOverflow
| MsgInterval (k : FrameKind)
| MsgRtcSynced (rtcYear mon day hh mm ss centis : Z)
| MsgNack (cls id : Z)
| MsgAck (cls id : Z)
| MsgAckOther (cls id : Z)
| MsgMaxBufAvail (n : Z)
| MsgNotLogging.

Inductive Event :=
| SerialPrint (m : SerialMsg)
| RtcSetTime (hh mm ss hund day mon yr : Z)     (* rtc.setTime(...) *)
| FileWrite (data : list byte)                  (* file.write(buf, n) *)
| FileSync                                      (* file.sync() *)
| StatLed (on : bool).                          (* digitalWrite(PIN_STAT_LED, _) *)

(** The five most recent arrival times of one frame type and the time of
    its last debug message. *)
Record Stamps := mkStamps {
  micros1 : Z; micros2 : Z; micros3 : Z; micros4 : Z; micros5 : Z;
  lastDebug : Z
}.

Record Rates := mkRates {
  lastRAWX : Stamps; lastPVT : Stamps;
  lastHPPOSLLH : Stamps; lastRELPOSNED : Stamps
}.

(** ** The frame parser *)

(** Modelled from the spec: the enumeration behind [parseUbxState] is
    declared outside the sources.  storeData.ino names
    [PARSE_UBX_SYNC_CHAR_1], [SYNC_LOST] and [FRAME_VALID]; the remaining
    stages are the cursor positions of section 4.1. *)
Inductive ParseState :=
| PARSE_UBX_SYNC_CHAR_1 | PARSE_UBX_SYNC_CHAR_2
| PARSE_UBX_CLASS | PARSE_UBX_ID
| PARSE_UBX_LENGTH_LSB | PARSE_UBX_LENGTH_MSB
| PARSE_UBX_PAYLOAD
| PARSE_UBX_CHECKSUM_A | PARSE_UBX_CHECKSUM_B
| SYNC_LOST | FRAME_VALID.

(** Class and message identifiers; the values are those the comments of
    storeData.ino give (class 0x02, ID 0x15, ...), and 0x05 for the
    acknowledgment class of the receiver protocol. *)
Definition UBX_CLASS_NAV : Z := 0x01.
Definition UBX_CLASS_RXM : Z := 0x02.
Definition UBX_CLASS_ACK : Z := 0x05.
Definition UBX_RXM_RAWX : Z := 0x15.
Definition UBX_NAV_PVT : Z := 0x07.
Definition UBX_NAV_HPPOSLLH : Z := 0x14.
Definition UBX_NAV_RELPOSNED : Z := 0x3C.
Definition UBX_NAV_TIMEUTC : Z := 0x21.
Definition UBX_ACK_NACK : Z := 0x00.
Definition UBX_ACK_ACK : Z := 0x01.

(** "Limit to 32 bytes or whatever the buffer limit is for given platform" *)
Definition I2C_BUFFER_LENGTH : Z := 32.

(** Variables of the reference parser below. *)
Record UbxVars := mkUbxVars {
  ubxLength : Z;        (* payload length announced by the header *)
  ubxCount : Z;         (* payload bytes seen so far *)
  ubxChecksumA : Z;     (* running checksum *)
  ubxChecksumB : Z;
  ubxExpectedA : Z      (* first checksum byte of the frame *)
}.

Definition ubx_vars0 : UbxVars := mkUbxVars 0 0 0 0 0.

Definition ubx_sum (c : Z) (v : UbxVars) : UbxVars :=
  let a := wrap8 (ubxChecksumA v + c) in
  mkUbxVars (ubxLength v) (ubxCount v) a (wrap8 (ubxChecksumB v + a)) (ubxExpectedA v).

(** Modelled from the spec: [processUbx] is defined outside the sources.
    This is the byte-at-a-time matcher of section 4.1: sync byte 1 (0xB5),
    sync byte 2 (0x62), class, id, length low, length high, payload,
    checksum byte 1, checksum byte 2, with the receiver protocol's two
    running 8-bit sums over class, id, length and payload.  A byte that does
    not fit the current stage, or a checksum mismatch, gives [SYNC_LOST];
    the second checksum byte of a matching frame gives [FRAME_VALID]. *)
Definition processUbx_ref (s : ParseState) (v : UbxVars) (c : byte)
  : ParseState * UbxVars :=
  let z := b2z c in
  match s with
  | PARSE_UBX_SYNC_CHAR_1 =>
      if z =? 0xB5 then (PARSE_UBX_SYNC_CHAR_2, v) else (SYNC_LOST, v)
  | PARSE_UBX_SYNC_CHAR_2 =>
      if z =? 0x62 then (PARSE_UBX_CLASS, v) else (SYNC_LOST, v)
  | PARSE_UBX_CLASS => (PARSE_UBX_ID, ubx_sum z ubx_vars0)
  | PARSE_UBX_ID => (PARSE_UBX_LENGTH_LSB, ubx_sum z v)
  | PARSE_UBX_LENGTH_LSB =>
      let v1 := ubx_sum z v in
      (PARSE_UBX_LENGTH_MSB,
       mkUbxVars z 0 (ubxChecksumA v1) (ubxChecksumB v1) (ubxExpectedA v1))
  | PARSE_UBX_LENGTH_MSB =>
      let v1 := ubx_sum z v in
      let len := Z.lor (ubxLength v) (Z.shiftl z 8) in
      (if len =? 0 then PARSE_UBX_CHECKSUM_A else PARSE_UBX_PAYLOAD,
       mkUbxVars len 0 (ubxChecksumA v1) (ubxChecksumB v1) (ubxExpectedA v1))
  | PARSE_UBX_PAYLOAD =>
      let v1 := ubx_sum z v in
      let n := ubxCount v + 1 in
      (if n =? ubxLength v then PARSE_UBX_CHECKSUM_A else PARSE_UBX_PAYLOAD,
       mkUbxVars (ubxLength v1) n (ubxChecksumA v1) (ubxChecksumB v1) (ubxExpectedA v1))
  | PARSE_UBX_CHECKSUM_A =>
      (PARSE_UBX_CHECKSUM_B,
       mkUbxVars (ubxLength v) (ubxCount v) (ubxChecksumA v) (ubxChecksumB v) z)
  | PARSE_UBX_CHECKSUM_B =>
      if (ubxExpectedA v =? ubxChecksumA v) && (z =? ubxChecksumB v)
      then (FRAME_VALID, v) else (SYNC_LOST, v)
  | SYNC_LOST => (SYNC_LOST, v)
  | FRAME_VALID => (SYNC_LOST, v)
  end.

(** A well-formed frame of the receiver protocol around a payload. *)
Definition ubx_checksum (body : list byte) : UbxVars :=
  fold_left (fun v c => ubx_sum (b2z c) v) body ubx_vars0.

Definition ubx_frame (cls id : Z) (payload : list byte) : list byte :=
  let len := Z.of_nat (length payload) in
  let body := z2b cls :: z2b id :: z2b len :: z2b (len / 256) :: payload in
  let ck := ubx_checksum body in
  xb5 :: x62 :: body ++ [z2b (ubxChecksumA ck); z2b (ubxChecksumB ck)].

(** ** storeData (OpenLog Artemis sketch) *)

(** The settings and device flags [storeData] reads and never writes. *)
Record Config := mkConfig {
  usBetweenReadings : Z;           (* settings.usBetweenReadings *)
  printMajorDebugMessages : bool;  (* settings.printMajorDebugMessages *)
  printMinorDebugMessages : bool;  (* settings.printMinorDebugMessages *)
  logData : bool;                  (* settings.logData *)
  qwiicOnline_uBlox : bool;        (* qwiicOnline.uBlox *)
  qwiicAvailable_uBlox : bool;     (* qwiicAvailable.uBlox *)
  online_microSd : bool;           (* online.microSd *)
  online_dataLogging : bool        (* online.dataLogging *)
}.

Section Pipeline.

(** [processUbx] is taken as a parameter: a transition on [parseUbxState]
    and on the parser's own variables, of whatever type [Aux] they are. *)
Context {Aux : Type}.
Variable processUbx : ParseState -> Aux -> byte -> ParseState * Aux.

(** The globals of the sketch that [storeData] updates, and the trace of
    what it does to the outside (serial port, RTC, file, status LED). *)
Record State := mkState {
  lastReadTime : Z;
  lastDataLogSyncTime : Z;
  rtcSyncFlag : bool;
  rtcSyncRequiredFlag : bool;
  GNSSbuffer : RingBufferN;
  UBXbuffer : list byte;            (* char UBXbuffer[UBXbufferSize] *)
  UBXpointer : nat;
  SDbuffer : list byte;             (* uint8_t SDbuffer[SDpacket] *)
  SDpointer : nat;
  maxGNSSbufferAvailable : Z;
  rates : Rates;
  parseUbxState : ParseState;
  parserVars : Aux;
  trace : list Event
}.

Definition set_lastReadTime (v : Z) (st : State) : State :=
  {| lastReadTime := v; lastDataLogSyncTime := lastDataLogSyncTime st; rtcSyncFlag
     := rtcSyncFlag st; rtcSyncRequiredFlag := rtcSyncRequiredFlag st; GNSSbuffer :=
     GNSSbuffer st; UBXbuffer := UBXbuffer st; UBXpointer := UBXpointer st; SDbuffer
     := SDbuffer st; SDpointer := SDpointer st; maxGNSSbufferAvailable :=
     maxGNSSbufferAvailable st; rates := rates st; parseUbxState := parseUbxState
     st; parserVars := parserVars st; trace := trace st |}.

Definition set_lastDataLogSyncTime (v : Z) (st : State) : State :=
  {| lastReadTime := lastReadTime st; lastDataLogSyncTime := v; rtcSyncFlag :=
     rtcSyncFlag st; rtcSyncRequiredFlag := rtcSyncRequiredFlag st; GNSSbuffer :=
     GNSSbuffer st; UBXbuffer := UBXbuffer st; UBXpointer := UBXpointer st; SDbuffer
     := SDbuffer st; SDpointer := SDpointer st; maxGNSSbufferAvailable :=
     maxGNSSbufferAvailable st; rates := rates st; parseUbxState := parseUbxState
     st; parserVars := parserVars st; trace := trace st |}.

Definition set_rtcSyncFlag (v : bool) (st : State) : State :=
  {| lastReadTime := lastReadTime st; lastDataLogSyncTime := lastDataLogSyncTime st;
     rtcSyncFlag := v; rtcSyncRequiredFlag := rtcSyncRequiredFlag st; GNSSbuffer :=
     GNSSbuffer st; UBXbuffer := UBXbuffer st; UBXpointer := UBXpointer st; SDbuffer
     := SDbuffer st; SDpointer := SDpointer st; maxGNSSbufferAvailable :=
     maxGNSSbufferAvailable st; rates := rates st; parseUbxState := parseUbxState
     st; parserVars := parserVars st; trace := trace st |}.

Definition set_rtcSyncRequiredFlag (v : bool) (st : State) : State :=
  {| lastReadTime := lastReadTime st; lastDataLogSyncTime := lastDataLogSyncTime st;
     rtcSyncFlag := rtcSyncFlag st; rtcSyncRequiredFlag := v; GNSSbuffer :=
     GNSSbuffer st; UBXbuffer := UBXbuffer st; UBXpointer := UBXpointer st; SDbuffer
     := SDbuffer st; SDpointer := SDpointer st; maxGNSSbufferAvailable :=
     maxGNSSbufferAvailable st; rates := rates st; parseUbxState := parseUbxState
     st; parserVars := parserVars st; trace := trace st |}.

Definition set_GNSSbuffer (v : RingBufferN) (st : State) : State :=
  {| lastReadTime := lastReadTime st; lastDataLogSyncTime := lastDataLogSyncTime st;
     rtcSyncFlag := rtcSyncFlag st; rtcSyncRequiredFlag := rtcSyncRequiredFlag st;
     GNSSbuffer := v; UBXbuffer := UBXbuffer st; UBXpointer := UBXpointer st;
     SDbuffer := SDbuffer st; SDpointer := SDpointer st; maxGNSSbufferAvailable :=
     maxGNSSbufferAvailable st; rates := rates st; parseUbxState := parseUbxState
     st; parserVars := parserVars st; trace := trace st |}.

Definition set_UBXbuffer (v : list byte) (st : State) : State :=
  {| lastReadTime := lastReadTime st; lastDataLogSyncTime := lastDataLogSyncTime st;
     rtcSyncFlag := rtcSyncFlag st; rtcSyncRequiredFlag := rtcSyncRequiredFlag st;
     GNSSbuffer := GNSSbuffer st; UBXbuffer := v; UBXpointer := UBXpointer st;
     SDbuffer := SDbuffer st; SDpointer := SDpointer st; maxGNSSbufferAvailable :=
     maxGNSSbufferAvailable st; rates := rates st; parseUbxState := parseUbxState
     st; parserVars := parserVars st; trace := trace st |}.

Definition set_UBXpointer (v : nat) (st : State) : State :=
  {| lastReadTime := lastReadTime st; lastDataLogSyncTime := lastDataLogSyncTime st;
     rtcSyncFlag := rtcSyncFlag st; rtcSyncRequiredFlag := rtcSyncRequiredFlag st;
     GNSSbuffer := GNSSbuffer st; UBXbuffer := UBXbuffer st; UBXpointer := v;
     SDbuffer := SDbuffer st; SDpointer := SDpointer st; maxGNSSbufferAvailable :=
     maxGNSSbufferAvailable st; rates := rates st; parseUbxState := parseUbxState
     st; parserVars := parserVars st; trace := trace st |}.

Definition set_SDbuffer (v : list byte) (st : State) : State :=
  {| lastReadTime := lastReadTime st; lastDataLogSyncTime := lastDataLogSyncTime st;
     rtcSyncFlag := rtcSyncFlag st; rtcSyncRequiredFlag := rtcSyncRequiredFlag st;
     GNSSbuffer := GNSSbuffer st; UBXbuffer := UBXbuffer st; UBXpointer :=
     UBXpointer st; SDbuffer := v; SDpointer := SDpointer st; maxGNSSbufferAvailable
     := maxGNSSbufferAvailable st; rates := rates st; parseUbxState := parseUbxState
     st; parserVars := parserVars st; trace := trace st |}.

Definition set_SDpointer (v : nat) (st : State) : State :=
  {| lastReadTime := lastReadTime st; lastDataLogSyncTime := lastDataLogSyncTime st;
     rtcSyncFlag := rtcSyncFlag st; rtcSyncRequiredFlag := rtcSyncRequiredFlag st;
     GNSSbuffer := GNSSbuffer st; UBXbuffer := UBXbuffer st; UBXpointer :=
     UBXpointer st; SDbuffer := SDbuffer st; SDpointer := v; maxGNSSbufferAvailable
     := maxGNSSbufferAvailable st; rates := rates st; parseUbxState := parseUbxState
     st; parserVars := parserVars st; trace := trace st |}.

Definition set_maxGNSSbufferAvailable (v : Z) (st : State) : State :=
  {| lastReadTime := lastReadTime st; lastDataLogSyncTime := lastDataLogSyncTime st;
     rtcSyncFlag := rtcSyncFlag st; rtcSyncRequiredFlag := rtcSyncRequiredFlag st;
     GNSSbuffer := GNSSbuffer st; UBXbuffer := UBXbuffer st; UBXpointer :=
     UBXpointer st; SDbuffer := SDbuffer st; SDpointer := SDpointer st;
     maxGNSSbufferAvailable := v; rates := rates st; parseUbxState := parseUbxState
     st; parserVars := parserVars st; trace := trace st |}.

Definition set_rates (v : Rates) (st : State) : State :=
  {| lastReadTime := lastReadTime st; lastDataLogSyncTime := lastDataLogSyncTime st;
     rtcSyncFlag := rtcSyncFlag st; rtcSyncRequiredFlag := rtcSyncRequiredFlag st;
     GNSSbuffer := GNSSbuffer st; UBXbuffer := UBXbuffer st; UBXpointer :=
     UBXpointer st; SDbuffer := SDbuffer st; SDpointer := SDpointer st;
     maxGNSSbufferAvailable := maxGNSSbufferAvailable st; rates := v; parseUbxState
     := parseUbxState st; parserVars := parserVars st; trace := trace st |}.

Definition set_parseUbxState (v : ParseState) (st : State) : State :=
  {| lastReadTime := lastReadTime st; lastDataLogSyncTime := lastDataLogSyncTime st;
     rtcSyncFlag := rtcSyncFlag st; rtcSyncRequiredFlag := rtcSyncRequiredFlag st;
     GNSSbuffer := GNSSbuffer st; UBXbuffer := UBXbuffer st; UBXpointer :=
     UBXpointer st; SDbuffer := SDbuffer st; SDpointer := SDpointer st;
     maxGNSSbufferAvailable := maxGNSSbufferAvailable st; rates := rates st;
     parseUbxState := v; parserVars := parserVars st; trace := trace st |}.

Definition set_parserVars (v : Aux) (st : State) : State :=
  {| lastReadTime := lastReadTime st; lastDataLogSyncTime := lastDataLogSyncTime st;
     rtcSyncFlag := rtcSyncFlag st; rtcSyncRequiredFlag := rtcSyncRequiredFlag st;
     GNSSbuffer := GNSSbuffer st; UBXbuffer := UBXbuffer st; UBXpointer :=
     UBXpointer st; SDbuffer := SDbuffer st; SDpointer := SDpointer st;
     maxGNSSbufferAvailable := maxGNSSbufferAvailable st; rates := rates st;
     parseUbxState := parseUbxState st; parserVars := v; trace := trace st |}.

Definition set_trace (v : list Event) (st : State) : State :=
  {| lastReadTime := lastReadTime st; lastDataLogSyncTime := lastDataLogSyncTime st;
     rtcSyncFlag := rtcSyncFlag st; rtcSyncRequiredFlag := rtcSyncRequiredFlag st;
     GNSSbuffer := GNSSbuffer st; UBXbuffer := UBXbuffer st; UBXpointer :=
     UBXpointer st; SDbuffer := SDbuffer st; SDpointer := SDpointer st;
     maxGNSSbufferAvailable := maxGNSSbufferAvailable st; rates := rates st;
     parseUbxState := parseUbxState st; parserVars := parserVars st; trace := v |}.

Definition emit (e : Event) (st : State) : State := set_trace (trace st ++ [e]) st.

Definition print_if (cond : bool) (m : SerialMsg) (st : State) : State :=
  if cond then emit (SerialPrint m) st else st.

(** [UBXbuffer[i]] as a number. *)
Definition ubx (st : State) (i : nat) : Z := b2z (nth i (UBXbuffer st) x00).

(** The frame-rate bookkeeping done for RAWX, PVT, HPPOSLLH and RELPOSNED
    frames (the interval itself is a float that is only printed). *)
Definition shift_stamps (env : Env) (s : Stamps) : Stamps :=
  mkStamps (micros env) (micros1 s) (micros2 s) (micros3 s) (micros4 s) (lastDebug s).

Definition stamps_of (k : FrameKind) (r : Rates) : Stamps :=
  match k with
  | RAWX => lastRAWX r | PVT => lastPVT r
  | HPPOSLLH => lastHPPOSLLH r | RELPOSNED => lastRELPOSNED r
  end.

Definition with_stamps (k : FrameKind) (s : Stamps) (r : Rates) : Rates :=
  match k with
  | RAWX => mkRates s (lastPVT r) (lastHPPOSLLH r) (lastRELPOSNED r)
  | PVT => mkRates (lastRAWX r) s (lastHPPOSLLH r) (lastRELPOSNED r)
  | HPPOSLLH => mkRates (lastRAWX r) (lastPVT r) s (lastRELPOSNED r)
  | RELPOSNED => mkRates (lastRAWX r) (lastPVT r) (lastHPPOSLLH r) s
  end.

Definition note_frame (cfg : Config) (env : Env) (k : FrameKind) (st : State) : State :=
  let s := shift_stamps env (stamps_of k (rates st)) in
  if wrap32 (millis env - lastDebug s) >? 5000 then
    let st1 := print_if (printMinorDebugMessages cfg) (MsgInterval k) st in
    let s1 := mkStamps (micros1 s) (micros2 s) (micros3 s) (micros4 s) (micros5 s)
                       (millis env) in
    set_rates (with_stamps k s1 (rates st1)) st1
  else set_rates (with_stamps k s (rates st)) st.

Definition frame_rates (cfg : Config) (env : Env) (st : State) : State :=
  let st1 := if (ubx st 2 =? UBX_CLASS_RXM) && (ubx st 3 =? UBX_RXM_RAWX)
             then note_frame cfg env RAWX st else st in
  let st2 := if (ubx st1 2 =? UBX_CLASS_NAV) && (ubx st1 3 =? UBX_NAV_PVT)
             then note_frame cfg env PVT st1 else st1 in
  let st3 := if (ubx st2 2 =? UBX_CLASS_NAV) && (ubx st2 3 =? UBX_NAV_HPPOSLLH)
             then note_frame cfg env HPPOSLLH st2 else st2 in
  if (ubx st3 2 =? UBX_CLASS_NAV) && (ubx st3 3 =? UBX_NAV_RELPOSNED)
  then note_frame cfg env RELPOSNED st3 else st3.

(** Lines 298-310: the year and the nanosecond field of UBX-NAV-TIMEUTC,
    the clamp of a negative nanosecond value and the hundredths. *)
Definition rtcYear_of (st : State) : Z :=
  wrap16 (Z.lor (ubx st 18) (Z.shiftl (ubx st 19) 8)).

Definition nanos_unsigned32 (st : State) : Z :=
  wrap32 (Z.lor (Z.lor (Z.lor (ubx st 14) (Z.shiftl (ubx st 15) 8))
                       (Z.shiftl (ubx st 16) 16))
                (Z.shiftl (ubx st 17) 24)).

Definition clamp_nanos (u : Z) : Z := if signed32 u <? 0 then 0 else u.

Definition centis_of (u : Z) : Z := wrap8 (clamp_nanos u / 10000000).

(** Lines 289-323: set the RTC from a UBX-NAV-TIMEUTC frame. *)
Definition sync_rtc (cfg : Config) (st : State) : State :=
  if ubx st 2 =? UBX_CLASS_NAV then
    if ubx st 3 =? UBX_NAV_TIMEUTC then
      if rtcSyncRequiredFlag st then
        if (Z.land (ubx st 25) 0x04 =? 0x04) && rtcSyncRequiredFlag st then
          let rtcYear := rtcYear_of st in
          let centis := centis_of (nanos_unsigned32 st) in
          let st1 := emit (RtcSetTime (ubx st 22) (ubx st 23) (ubx st 24) centis
                                      (ubx st 21) (ubx st 20) (rtcYear - 2000)) st in
          let st2 := set_rtcSyncFlag true st1 in
          let st3 := set_rtcSyncRequiredFlag false st2 in
          print_if (printMinorDebugMessages cfg)
                   (MsgRtcSynced rtcYear (ubx st 20) (ubx st 21) (ubx st 22)
                                 (ubx st 23) (ubx st 24) centis) st3
        else st
      else st
    else st
  else st.

(** Lines 325-330: copy the frame into the GNSS buffer. *)
Definition stage_frame (st : State) : State :=
  set_GNSSbuffer
    (copy_frame GNSSbufferSize (take (UBXpointer st) (UBXbuffer st)) (GNSSbuffer st)) st.

(** Lines 332-348: an ACK/NACK is only reported. *)
Definition report_ack (cfg : Config) (st : State) : State :=
  if printMajorDebugMessages cfg then
    if ubx st 3 =? UBX_ACK_NACK then emit (SerialPrint (MsgNack (ubx st 6) (ubx st 7))) st
    else if ubx st 3 =? UBX_ACK_ACK then emit (SerialPrint (MsgAck (ubx st 6) (ubx st 7))) st
    else emit (SerialPrint (MsgAckOther (ubx st 6) (ubx st 7))) st
  else st.

(** Lines 177-351: what is done with a frame the parser found valid. *)
Definition frame_valid (cfg : Config) (env : Env) (st : State) : State :=
  let st1 :=
    if negb (ubx st 2 =? UBX_CLASS_ACK)
    then stage_frame (sync_rtc cfg (frame_rates cfg env st))
    else report_ack cfg st in
  set_parseUbxState PARSE_UBX_SYNC_CHAR_1 (set_UBXpointer 0%nat st1).

(** The body of the [for] loop either goes on or never comes back. *)
Inductive Step :=
| Running (st : State)
| Frozen (st : State).    (* while (1) ; *)

(** Lines 158-351: one incoming byte. *)
Definition handle_byte (cfg : Config) (env : Env) (st : State) (incoming : byte) : Step :=
  let '(ps, vars) := processUbx (parseUbxState st) (parserVars st) incoming in
  let st1 := set_parserVars vars (set_parseUbxState ps st) in
  let st2 := set_UBXbuffer (<[UBXpointer st1 := incoming]> (UBXbuffer st1)) st1 in
  let st3 := set_UBXpointer (S (UBXpointer st2)) st2 in
  if (UBXpointer st3 =? UBXbufferSize)%nat then
    Frozen (emit (SerialPrint MsgUBXbufferOverflow) st3)
  else
    match parseUbxState st3 with
    | SYNC_LOST =>
        Running (set_parseUbxState PARSE_UBX_SYNC_CHAR_1 (set_UBXpointer 0%nat st3))
    | FRAME_VALID => Running (frame_valid cfg env st3)
    | _ => Running st3
    end.

(** The [for] loop of lines 156-352 over the bytes of one read. *)
Fixpoint feed (cfg : Config) (env : Env) (bytes : list byte) (st : State) : Step :=
  match bytes with
  | [] => Running st
  | c :: rest =>
      match handle_byte cfg env st c with
      | Running st1 => feed cfg env rest st1
      | Frozen st1 => Frozen st1
      end
  end.

(** What [storeData] comes to: it returns [ret_val], or it never returns. *)
Inductive Outcome :=
| Returned (ret_val : bool) (st : State)
| Halted (st : State).

(** The [n] bytes [qwiic.read()] yields after a data request: the bytes
    delivered, then 0xFF (the cast of -1) once the bus buffer is empty. *)
Definition chunk_bytes (n : nat) (data : list byte) : list byte :=
  take n (data ++ replicate n xff).

(** Lines 136-361: [while (bytesAvailable)]. *)
Fixpoint read_loop (cfg : Config) (env : Env) (script : list Chunk)
         (bytesAvailable : Z) (st : State) : Outcome :=
  if bytesAvailable =? 0 then Returned true st
  else
    match script with
    | [] => Returned false st
    | ChunkNack :: _ => Returned false st
    | ChunkNone :: _ => Returned false st
    | ChunkData [] :: _ => Returned false st
    | ChunkData ((_ :: _) as data) :: rest =>
        let bytesToRead :=
          if bytesAvailable >? I2C_BUFFER_LENGTH then I2C_BUFFER_LENGTH
          else bytesAvailable in
        match feed cfg env (chunk_bytes (Z.to_nat bytesToRead) data) st with
        | Running st1 => read_loop cfg env rest (wrap16 (bytesAvailable - bytesToRead)) st1
        | Frozen st1 => Halted st1
        end
    end.

(** Lines 77-364: everything before the label [SD_WRITE]. *)
Definition read_gnss (cfg : Config) (env : Env) (tr : Transport) (st : State) : Outcome :=
  if negb (qwiicOnline_uBlox cfg) || negb (qwiicAvailable_uBlox cfg) then Returned true st
  else if wrap32 (micros env - lastReadTime st) >? usBetweenReadings cfg / 3 then
    match len_reply tr with
    | LenNack => Returned false st
    | LenNone => Returned true (set_lastReadTime (micros env) st)
    | LenBytes msb lsb =>
        if b2z lsb =? 0xFF then
          Returned false
            (set_lastReadTime (micros env)
               (print_if (printMajorDebugMessages cfg) MsgLengthLsbFF st))
        else
          let bytesAvailable := wrap16 (Z.lor (Z.shiftl (b2z msb) 8) (b2z lsb)) in
          if bytesAvailable =? 0 then Returned true (set_lastReadTime (micros env) st)
          else if Z.testbit bytesAvailable 15 then
            let masked := Z.land bytesAvailable 0x7FFF in
            read_loop cfg env (chunks tr) masked
              (print_if (printMajorDebugMessages cfg) (MsgBytesAvailableError masked) st)
          else read_loop cfg env (chunks tr) bytesAvailable st
    end
  else Returned true st.

(** Lines 388-407: [while (keep_going)], entered with [bufAvail] > 0. *)
Fixpoint drain (bufAvail : nat) (st : State) : State :=
  match bufAvail with
  | O => st
  | S more =>
      let '(c, g) := read_char (GNSSbuffer st) in
      let st1 := set_GNSSbuffer g st in
      let st2 := set_SDbuffer (<[SDpointer st1 := z2b c]> (SDbuffer st1)) st1 in
      let st3 := set_SDpointer (S (SDpointer st2)) st2 in
      if (SDpointer st3 =? SDpacket)%nat then
        let st4 := set_SDpointer 0%nat st3 in
        emit (StatLed false)
          (emit (FileWrite (take SDpacket (SDbuffer st4))) (emit (StatLed true) st4))
      else drain more st3
  end.

(** Lines 409-422: the periodic sync. *)
Definition force_sync (env : Env) (st : State) : State :=
  if wrap32 (millis env - lastDataLogSyncTime st) >? 500 then
    let st1 := emit (StatLed true) (set_lastDataLogSyncTime (millis env) st) in
    let st2 := if (0 <? SDpointer st1)%nat
               then set_SDpointer 0%nat
                      (emit (FileWrite (take (SDpointer st1) (SDbuffer st1))) st1)
               else st1 in
    emit (StatLed false) (emit FileSync st2)
  else st.

(** Lines 431-434: [while (GNSSbuffer.available()) GNSSbuffer.read_char();] *)
Fixpoint discard (fuel : nat) (g : RingBufferN) : RingBufferN :=
  match fuel with
  | O => g
  | S more => if (available g =? 0)%nat then g else discard more (snd (read_char g))
  end.

(** Lines 372-382: record how full the GNSS buffer gets. *)
Definition note_high_water (cfg : Config) (st : State) : State :=
  let bufAvail := Z.of_nat (available (GNSSbuffer st)) in
  if bufAvail >? maxGNSSbufferAvailable st then
    print_if (printMajorDebugMessages cfg) (MsgMaxBufAvail bufAvail)
             (set_maxGNSSbufferAvailable bufAvail st)
  else st.

(** Lines 425-435: logging is off, the data is thrown away. *)
Definition discard_data (cfg : Config) (st : State) : State :=
  let st1 := print_if (printMinorDebugMessages cfg) MsgNotLogging st in
  set_GNSSbuffer (discard (available (GNSSbuffer st1)) (GNSSbuffer st1)) st1.

(** Lines 366-436: from the label [SD_WRITE] to the end. *)
Definition sd_write (cfg : Config) (env : Env) (st : State) : State :=
  if logData cfg && online_microSd cfg && online_dataLogging cfg then
    let bufAvail := available (GNSSbuffer st) in
    force_sync env (drain bufAvail (note_high_water cfg st))
  else discard_data cfg st.

Definition storeData (cfg : Config) (env : Env) (tr : Transport) (st : State) : Outcome :=
  match read_gnss cfg env tr st with
  | Returned ret_val st1 => Returned ret_val (sd_write cfg env st1)
  | Halted st1 => Halted st1
  end.

End Pipeline.

Arguments State : clear implicits.

(** ** The real-time clock *)

Record DateTime := mkDateTime {
  hundredths : Z; seconds : Z; minute : Z; hour : Z;
  dayOfMonth : Z; month : Z; year : Z; weekday : Z
}.

Record Alarm := mkAlarm {
  alarmHundredths : Z; alarmSeconds : Z; alarmMinute : Z; alarmHour : Z;
  alarmDayOfMonth : Z; alarmMonth : Z
}.

Inductive RtcOp :=
| OpIntClear                    (* am_hal_rtc_int_clear(AM_HAL_RTC_INT_ALM) *)
| OpSetAlarm (a : Alarm)        (* rtc.setAlarm(...) *)
| OpSetAlarmMode (mode : Z)     (* rtc.setAlarmMode(...) *)
| OpAttachInterrupt             (* rtc.attachInterrupt() *)
| OpGetTime                     (* rtc.getTime() *)
| OpGetAlarm                    (* rtc.getAlarm() *)
| OpPrintDateTime (t : DateTime)
| OpPrintAlarm (yr : Z) (a : Alarm).

(** Modelled from the spec: the class [APM3_RTC] and the alarm interrupt of
    the processor are not part of the sources.  This is the RTC collaborator
    of section 6: one set of alarm registers, one match mode, one latched
    alarm interrupt that [am_hal_rtc_int_clear] clears; [getTime] and
    [getAlarm] copy the counters and the alarm registers into the fields
    the sketch reads ([rtc.hour], [rtc.alarmHour], ...).  [rtc_ops] records
    the calls in the order they are made. *)
Record APM3_RTC := mkRTC {
  clock : DateTime;          (* the hardware counters *)
  fields : DateTime;         (* rtc.hour, rtc.minute, ... as of the last getTime *)
  alarm_reg : Alarm;         (* the hardware alarm registers *)
  alarm_fields : Alarm;      (* rtc.alarmHour, ... as of the last getAlarm *)
  alarmMode : Z;
  int_attached : bool;
  int_pending : bool;        (* the latched alarm interrupt *)
  rtc_ops : list RtcOp
}.

Definition set_clock (v : DateTime) (r : APM3_RTC) : APM3_RTC :=
  {| clock := v; fields := fields r; alarm_reg := alarm_reg r; alarm_fields :=
     alarm_fields r; alarmMode := alarmMode r; int_attached := int_attached r;
     int_pending := int_pending r; rtc_ops := rtc_ops r |}.

Definition set_fields (v : DateTime) (r : APM3_RTC) : APM3_RTC :=
  {| clock := clock r; fields := v; alarm_reg := alarm_reg r; alarm_fields :=
     alarm_fields r; alarmMode := alarmMode r; int_attached := int_attached r;
     int_pending := int_pending r; rtc_ops := rtc_ops r |}.

Definition set_alarm_reg (v : Alarm) (r : APM3_RTC) : APM3_RTC :=
  {| clock := clock r; fields := fields r; alarm_reg := v; alarm_fields :=
     alarm_fields r; alarmMode := alarmMode r; int_attached := int_attached r;
     int_pending := int_pending r; rtc_ops := rtc_ops r |}.

Definition set_alarm_fields (v : Alarm) (r : APM3_RTC) : APM3_RTC :=
  {| clock := clock r; fields := fields r; alarm_reg := alarm_reg r; alarm_fields :=
     v; alarmMode := alarmMode r; int_attached := int_attached r; int_pending :=
     int_pending r; rtc_ops := rtc_ops r |}.

Definition set_alarmMode (v : Z) (r : APM3_RTC) : APM3_RTC :=
  {| clock := clock r; fields := fields r; alarm_reg := alarm_reg r; alarm_fields :=
     alarm_fields r; alarmMode := v; int_attached := int_attached r; int_pending :=
     int_pending r; rtc_ops := rtc_ops r |}.

Definition set_int_attached (v : bool) (r : APM3_RTC) : APM3_RTC :=
  {| clock := clock r; fields := fields r; alarm_reg := alarm_reg r; alarm_fields :=
     alarm_fields r; alarmMode := alarmMode r; int_attached := v; int_pending :=
     int_pending r; rtc_ops := rtc_ops r |}.

Definition set_int_pending (v : bool) (r : APM3_RTC) : APM3_RTC :=
  {| clock := clock r; fields := fields r; alarm_reg := alarm_reg r; alarm_fields :=
     alarm_fields r; alarmMode := alarmMode r; int_attached := int_attached r;
     int_pending := v; rtc_ops := rtc_ops r |}.

Definition set_rtc_ops (v : list RtcOp) (r : APM3_RTC) : APM3_RTC :=
  {| clock := clock r; fields := fields r; alarm_reg := alarm_reg r; alarm_fields :=
     alarm_fields r; alarmMode := alarmMode r; int_attached := int_attached r;
     int_pending := int_pending r; rtc_ops := v |}.

Definition rtc_op (o : RtcOp) (r : APM3_RTC) : APM3_RTC := set_rtc_ops (rtc_ops r ++ [o]) r.

Definition am_hal_rtc_int_clear (r : APM3_RTC) : APM3_RTC :=
  rtc_op OpIntClear (set_int_pending false r).

(** The arguments of [setAlarm] are [uint8_t]. *)
Definition rtc_setAlarm (hh mm ss hund day mon : Z) (r : APM3_RTC) : APM3_RTC :=
  let a := mkAlarm (wrap8 hund) (wrap8 ss) (wrap8 mm) (wrap8 hh) (wrap8 day) (wrap8 mon) in
  rtc_op (OpSetAlarm a) (set_alarm_reg a r).

Definition rtc_setAlarmMode (mode : Z) (r : APM3_RTC) : APM3_RTC :=
  rtc_op (OpSetAlarmMode mode) (set_alarmMode mode r).

Definition rtc_attachInterrupt (r : APM3_RTC) : APM3_RTC :=
  rtc_op OpAttachInterrupt (set_int_attached true r).

Definition rtc_getTime (r : APM3_RTC) : APM3_RTC :=
  rtc_op OpGetTime (set_fields (clock r) r).

Definition rtc_getAlarm (r : APM3_RTC) : APM3_RTC :=
  rtc_op OpGetAlarm (set_alarm_fields (alarm_reg r) r).

(** The alarm modes, as tabulated in [configureRtc]. *)
Definition alarm_match (mode : Z) (a : Alarm) (t : DateTime) : bool :=
  let hund := alarmHundredths a =? hundredths t in
  let sec := alarmSeconds a =? seconds t in
  let min := alarmMinute a =? minute t in
  let hr := alarmHour a =? hour t in
  let day := alarmDayOfMonth a =? dayOfMonth t in
  let mon := alarmMonth a =? month t in
  match mode with
  | 1 => hund && sec && min && hr && day && mon
  | 2 => hund && sec && min && hr && day
  | 3 => hund && sec && min && hr && (weekday t =? 0)
  | 4 => hund && sec && min && hr
  | 5 => hund && sec && min
  | 6 => hund && sec
  | 7 => hund
  | _ => false
  end.

(** The counters reach [t]: a match latches the alarm interrupt. *)
Definition rtc_tick (t : DateTime) (r : APM3_RTC) : APM3_RTC :=
  let r1 := set_clock t r in
  if alarm_match (alarmMode r1) (alarm_reg r1) t then set_int_pending true r1 else r1.

(** [printDateTime] and [printAlarm] (01_rtc.ino); DEBUG is defined true. *)
Definition printDateTime (r : APM3_RTC) : APM3_RTC :=
  let r1 := rtc_getTime r in rtc_op (OpPrintDateTime (fields r1)) r1.

Definition printAlarm (r : APM3_RTC) : APM3_RTC :=
  let r1 := rtc_getAlarm r in
  rtc_op (OpPrintAlarm (year (fields r1)) (alarm_fields r1)) r1.

(** ** The OpenLog Artemis sketch: configureRtc, the RTC handler and loop *)

(** [configureRtc] of the OpenLog Artemis sketch. *)
Definition configureRtc_ola (r : APM3_RTC) : APM3_RTC :=
  rtc_attachInterrupt (rtc_setAlarmMode 5 (rtc_setAlarm 0 0 0 0 0 0 r)).

Record SleepSettings := mkSleepSettings {
  usSleepDuration : Z;             (* settings.usSleepDuration, uint64_t *)
  usLoggingDuration : Z;           (* settings.usLoggingDuration, uint64_t *)
  useGPIO32ForStopLogging : bool   (* settings.useGPIO32ForStopLogging *)
}.

Definition wrap64 (z : Z) : Z := z mod 18446744073709551616.

(** What one pass of [loop] reads from outside. *)
Record LoopInput := mkLoopInput {
  serial_available : bool;   (* Serial.available() *)
  env : Env;
  transport : Transport;
  rtcMillis : Z              (* rtcMillis(), uint64_t *)
}.

Section Loop.

Context {Aux : Type}.
Variable processUbx : ParseState -> Aux -> byte -> ParseState * Aux.

Record Sketch := mkSketch {
  cfg : Config;
  sleep_cfg : SleepSettings;
  core : State Aux;
  rtc : APM3_RTC;
  alarmFlag : bool;
  stopLoggingFlag : bool;
  measurementStartTime : Z
}.

Definition set_cfg (v : Config) (sk : Sketch) : Sketch :=
  {| cfg := v; sleep_cfg := sleep_cfg sk; core := core sk; rtc := rtc sk; alarmFlag
     := alarmFlag sk; stopLoggingFlag := stopLoggingFlag sk; measurementStartTime :=
     measurementStartTime sk |}.

Definition set_sleep_cfg (v : SleepSettings) (sk : Sketch) : Sketch :=
  {| cfg := cfg sk; sleep_cfg := v; core := core sk; rtc := rtc sk; alarmFlag :=
     alarmFlag sk; stopLoggingFlag := stopLoggingFlag sk; measurementStartTime :=
     measurementStartTime sk |}.

Definition set_core (v : State Aux) (sk : Sketch) : Sketch :=
  {| cfg := cfg sk; sleep_cfg := sleep_cfg sk; core := v; rtc := rtc sk; alarmFlag
     := alarmFlag sk; stopLoggingFlag := stopLoggingFlag sk; measurementStartTime :=
     measurementStartTime sk |}.

Definition set_rtc (v : APM3_RTC) (sk : Sketch) : Sketch :=
  {| cfg := cfg sk; sleep_cfg := sleep_cfg sk; core := core sk; rtc := v; alarmFlag
     := alarmFlag sk; stopLoggingFlag := stopLoggingFlag sk; measurementStartTime :=
     measurementStartTime sk |}.

Definition set_alarmFlag (v : bool) (sk : Sketch) : Sketch :=
  {| cfg := cfg sk; sleep_cfg := sleep_cfg sk; core := core sk; rtc := rtc sk;
     alarmFlag := v; stopLoggingFlag := stopLoggingFlag sk; measurementStartTime :=
     measurementStartTime sk |}.

Definition set_stopLoggingFlag (v : bool) (sk : Sketch) : Sketch :=
  {| cfg := cfg sk; sleep_cfg := sleep_cfg sk; core := core sk; rtc := rtc sk;
     alarmFlag := alarmFlag sk; stopLoggingFlag := v; measurementStartTime :=
     measurementStartTime sk |}.

Definition set_measurementStartTime (v : Z) (sk : Sketch) : Sketch :=
  {| cfg := cfg sk; sleep_cfg := sleep_cfg sk; core := core sk; rtc := rtc sk;
     alarmFlag := alarmFlag sk; stopLoggingFlag := stopLoggingFlag sk;
     measurementStartTime := v |}.

(** Functions of the sketch that are defined outside the sources. *)
Variable menuMain : Sketch -> Sketch.
Variable stopLogging : Sketch -> Sketch.
Variable openNewLogFile : Sketch -> Sketch.
Variable goToSleep : Sketch -> Sketch.

(** [am_rtc_isr] of the OpenLog Artemis sketch. *)
Definition am_rtc_isr_ola (sk : Sketch) : Sketch :=
  set_alarmFlag true (set_rtc (am_hal_rtc_int_clear (rtc sk)) sk).

Definition require_sync (sk : Sketch) : Sketch :=
  set_core (set_rtcSyncRequiredFlag true (core sk)) sk.

(** Lines 224-231 of the sketch: the RTC alarm was seen. *)
Definition on_alarm (sk : Sketch) : Sketch :=
  if alarmFlag sk then
    let sk1 := openNewLogFile sk in
    let sk2 := set_rtc (configureRtc_ola (rtc sk1)) sk1 in
    require_sync (set_alarmFlag false sk2)
  else sk.

(** Lines 233-244: the sleep cycle. *)
Definition on_sleep (inp : LoopInput) (sk : Sketch) : Sketch :=
  let timeNow := rtcMillis inp in
  let logging := usLoggingDuration (sleep_cfg sk) / 1000 in
  if (usSleepDuration (sleep_cfg sk) >? 0)
     && (timeNow >? wrap64 (measurementStartTime sk + logging)) then
    let sk1 := goToSleep sk in
    let sk2 :=
      set_measurementStartTime
        (wrap64 (wrap64 (measurementStartTime sk1 + usLoggingDuration (sleep_cfg sk1) / 1000)
                 + usSleepDuration (sleep_cfg sk1) / 1000)) sk1 in
    require_sync sk2
  else sk.

(** One pass of [loop]; it does not come back when [storeData] does not. *)
Definition loop (inp : LoopInput) (sk : Sketch) : Sketch + Sketch :=
  let sk1 := if serial_available inp then menuMain sk else sk in
  let stored :=
    if online_dataLogging (cfg sk1)
    then storeData processUbx (cfg sk1) (env inp) (transport inp) (core sk1)
    else Returned true (core sk1) in
  match stored with
  | Halted c => inr (set_core c sk1)
  | Returned _ c =>
      let sk2 := set_core c sk1 in
      let sk3 := if useGPIO32ForStopLogging (sleep_cfg sk2) && stopLoggingFlag sk2
                 then stopLogging sk2 else sk2 in
      inl (on_sleep inp (on_alarm sk3))
  end.

End Loop.

Arguments Sketch : clear implicits.

(** ** The MicroMod sketch: alarms and watchdog *)

Module MicroMod.

(** [sleepAlarmMinutes], [sleepAlarmHours], [loggingAlarmHours],
    [loggingAlarmMinutes]: globals of type [byte]. *)
Record AlarmSettings := mkAlarmSettings {
  sleepAlarmMinutes : Z;
  sleepAlarmHours : Z;
  loggingAlarmHours : Z;
  loggingAlarmMinutes : Z
}.

(** The values the sketch starts with. *)
Definition default_alarms : AlarmSettings := mkAlarmSettings 60 0 0 60.

Definition configureRtc (r : APM3_RTC) : APM3_RTC :=
  let r1 := am_hal_rtc_int_clear r in
  let r2 := rtc_setAlarm 0 0 0 0 0 0 r1 in
  let r3 := rtc_setAlarmMode 5 r2 in
  let r4 := rtc_attachInterrupt r3 in
  am_hal_rtc_int_clear r4.

Definition sleep_target (s : AlarmSettings) (r : APM3_RTC) : Alarm :=
  mkAlarm 0 0
    (wrap8 ((minute (fields r) + sleepAlarmMinutes s) mod 60))
    (wrap8 ((hour (fields r) + sleepAlarmHours s) mod 24))
    (wrap8 (dayOfMonth (fields r))) (wrap8 (month (fields r))).

Definition logging_target (s : AlarmSettings) (r : APM3_RTC) : Alarm :=
  mkAlarm 0 0
    (wrap8 ((minute (fields r) + loggingAlarmMinutes s) mod 60))
    (wrap8 ((hour (fields r) + loggingAlarmHours s) mod 24))
    (wrap8 (dayOfMonth (fields r))) (wrap8 (month (fields r))).

Definition setSleepAlarm (s : AlarmSettings) (r : APM3_RTC) : APM3_RTC :=
  let r1 := am_hal_rtc_int_clear r in
  let r2 := rtc_setAlarm ((hour (fields r1) + sleepAlarmHours s) mod 24)
                         ((minute (fields r1) + sleepAlarmMinutes s) mod 60)
                         0 0 (dayOfMonth (fields r1)) (month (fields r1)) r1 in
  let r3 := rtc_setAlarmMode 5 r2 in
  printAlarm (printDateTime r3).

Definition setLoggingAlarm (s : AlarmSettings) (r : APM3_RTC) : APM3_RTC :=
  let r1 := am_hal_rtc_int_clear r in
  let r2 := rtc_setAlarm ((hour (fields r1) + loggingAlarmHours s) mod 24)
                         ((minute (fields r1) + loggingAlarmMinutes s) mod 60)
                         0 0 (dayOfMonth (fields r1)) (month (fields r1)) r1 in
  let r3 := rtc_setAlarmMode 5 r2 in
  printAlarm (printDateTime r3).

(** [am_rtc_isr]: clear the interrupt, raise [alarmFlag]. *)
Definition am_rtc_isr (st : APM3_RTC * bool) : APM3_RTC * bool :=
  (am_hal_rtc_int_clear (fst st), true).

(** The processor takes the alarm interrupt when it is latched and
    attached; the result says how many times the handler ran. *)
Definition take_alarm_interrupt (st : APM3_RTC * bool) : (APM3_RTC * bool) * nat :=
  if int_pending (fst st) && int_attached (fst st) then (am_rtc_isr st, 1%nat)
  else (st, 0%nat).

(** Modelled from the spec: the class [APM3_WDT] is not part of the
    sources.  This is the watchdog collaborator of section 6 (arm, pet,
    stop): a running watchdog that is not petted in time resets the whole
    system, a stopped one never does.  [wdt_pets] counts the calls of
    [restart]. *)
Record Watchdog := mkWatchdog {
  watchdogFlag : bool;       (* volatile bool watchdogFlag *)
  watchdogCounter : Z;       (* volatile int watchdogCounter *)
  wdt_running : bool;
  wdt_interrupt : bool;      (* the pending watchdog interrupt *)
  wdt_pets : nat;
  led_builtin : bool
}.

Definition set_watchdogFlag (v : bool) (w : Watchdog) : Watchdog :=
  {| watchdogFlag := v; watchdogCounter := watchdogCounter w; wdt_running :=
     wdt_running w; wdt_interrupt := wdt_interrupt w; wdt_pets := wdt_pets
     w; led_builtin := led_builtin w |}.

Definition set_watchdogCounter (v : Z) (w : Watchdog) : Watchdog :=
  {| watchdogFlag := watchdogFlag w; watchdogCounter := v; wdt_running :=
     wdt_running w; wdt_interrupt := wdt_interrupt w; wdt_pets := wdt_pets
     w; led_builtin := led_builtin w |}.

Definition set_wdt_running (v : bool) (w : Watchdog) : Watchdog :=
  {| watchdogFlag := watchdogFlag w; watchdogCounter := watchdogCounter w;
     wdt_running := v; wdt_interrupt := wdt_interrupt w; wdt_pets :=
     wdt_pets w; led_builtin := led_builtin w |}.

Definition set_wdt_interrupt (v : bool) (w : Watchdog) : Watchdog :=
  {| watchdogFlag := watchdogFlag w; watchdogCounter := watchdogCounter w;
     wdt_running := wdt_running w; wdt_interrupt := v; wdt_pets := wdt_pets
     w; led_builtin := led_builtin w |}.

Definition set_wdt_pets (v : nat) (w : Watchdog) : Watchdog :=
  {| watchdogFlag := watchdogFlag w; watchdogCounter := watchdogCounter w;
     wdt_running := wdt_running w; wdt_interrupt := wdt_interrupt w; wdt_pets :=
     v; led_builtin := led_builtin w |}.

Definition set_led_builtin (v : bool) (w : Watchdog) : Watchdog :=
  {| watchdogFlag := watchdogFlag w; watchdogCounter := watchdogCounter w;
     wdt_running := wdt_running w; wdt_interrupt := wdt_interrupt w; wdt_pets :=
     wdt_pets w; led_builtin := v |}.

Definition wdt_clear (w : Watchdog) : Watchdog := set_wdt_interrupt false w.
Definition wdt_restart (w : Watchdog) : Watchdog := set_wdt_pets (S (wdt_pets w)) w.
Definition wdt_stop (w : Watchdog) : Watchdog := set_wdt_running false w.

(** Whether the hardware can still restart the system when nobody pets
    the watchdog again. *)
Definition hard_restart_follows (w : Watchdog) : bool := wdt_running w.

(** A handler returns to the interrupted code, or spins in [while (1);]. *)
Inductive Isr :=
| IsrReturn (w : Watchdog)
| IsrSpin (w : Watchdog).

(** [am_watchdog_isr] of the MicroMod sketch. *)
Definition am_watchdog_isr (w : Watchdog) : Isr :=
  let w1 := wdt_clear w in
  if watchdogCounter w1 <? 10 then
    let w2 := wdt_restart w1 in
    let w3 := set_watchdogFlag true w2 in
    IsrReturn (set_watchdogCounter (wrap_int (watchdogCounter w3 + 1)) w3)
  else
    IsrSpin (set_led_builtin true (wdt_stop w1)).

(** [n] watchdog interrupts in a row, nothing else touching the counter;
    once the handler spins, nothing runs any more. *)
Fixpoint watchdog_interrupts (n : nat) (w : Watchdog) : Isr :=
  match n with
  | O => IsrReturn w
  | S k =>
      match am_watchdog_isr w with
      | IsrReturn w1 => watchdog_interrupts k w1
      | IsrSpin w1 => IsrSpin w1
      end
  end.

(** The watchdog as [configureWdt] leaves it: running, nothing counted. *)
Definition watchdog0 : Watchdog := mkWatchdog false 0 true false 0 false.

End MicroMod.

(** ** Vocabulary of the statements *)

Definition is_file_op (e : Event) : bool :=
  match e with FileWrite _ | FileSync => true | _ => false end.

Definition is_rtc_set (e : Event) : bool :=
  match e with RtcSetTime _ _ _ _ _ _ _ => true | _ => false end.

(** What an invocation did to the file, and to the RTC, in order. *)
Definition file_ops (t : list Event) : list Event := filter (fun e => is_file_op e = true) t.
Definition rtc_sets (t : list Event) : list Event := filter (fun e => is_rtc_set e = true) t.

(** The class byte of a frame, and whether it is an ACK/NACK. *)
Definition frame_class (f : list byte) : Z := b2z (nth 2 f x00).
Definition frame_id (f : list byte) : Z := b2z (nth 3 f x00).
Definition is_ack (f : list byte) : bool := frame_class f =? UBX_CLASS_ACK.

(** The frames of a list that are not ACK/NACK, concatenated. *)
Definition non_ack_bytes (frames : list (list byte)) : list byte :=
  concat (filter (fun f => is_ack f = false) frames).

Section Recognition.

Context {Aux : Type}.
Variable processUbx : ParseState -> Aux -> byte -> ParseState * Aux.

(** The parser, started in stage [s] with variables [v], is taken through
    [bytes] and reports [FRAME_VALID] on the last byte and neither
    [FRAME_VALID] nor [SYNC_LOST] before; the result is its variables at
    that point. *)
Fixpoint parse_frame (s : ParseState) (v : Aux) (bytes : list byte) : option Aux :=
  match bytes with
  | [] => None
  | c :: rest =>
      let '(s1, v1) := processUbx s v c in
      match s1 with
      | FRAME_VALID => match rest with [] => Some v1 | _ :: _ => None end
      | SYNC_LOST => None
      | _ => parse_frame s1 v1 rest
      end
  end.

(** A stream made of frames the parser recognizes one after the other,
    each from the first stage, as [storeData] restarts it. *)
Fixpoint parse_frames (v : Aux) (frames : list (list byte)) : option Aux :=
  match frames with
  | [] => Some v
  | f :: rest =>
      match parse_frame PARSE_UBX_SYNC_CHAR_1 v f with
      | Some v1 => parse_frames v1 rest
      | None => None
      end
  end.

(** The parser stays inside one frame over all of [bytes]. *)
Fixpoint in_progress (s : ParseState) (v : Aux) (bytes : list byte) : bool :=
  match bytes with
  | [] => true
  | c :: rest =>
      let '(s1, v1) := processUbx s v c in
      match s1 with
      | FRAME_VALID | SYNC_LOST => false
      | _ => in_progress s1 v1 rest
      end
  end.

(** The claim that the program keeps account of the bytes the staging
    buffer refuses: some quantity [acct] of its state grows by the number
    of bytes each copy of a frame loses. *)
Definition lost_bytes (st : State Aux) : nat :=
  (length (take (UBXpointer st) (UBXbuffer st))
   - free_capacity GNSSbufferSize (GNSSbuffer st))%nat.

Definition overflow_accounted (acct : State Aux -> Z) : Prop :=
  forall st : State Aux, acct (stage_frame st) = acct st + Z.of_nat (lost_bytes st).

End Recognition.

(** ** Concrete data *)

Definition cfg_logging : Config := mkConfig 1000000 false false true true true true true.
Definition cfg_not_logging : Config := mkConfig 1000000 false false false true true true true.

Definition stamps0 : Stamps := mkStamps 0 0 0 0 0 0.
Definition rates0 : Rates := mkRates stamps0 stamps0 stamps0 stamps0.

(** The globals as the sketch initialises them. *)
Definition state0 : State UbxVars :=
  mkState 0 0 false true rb_empty (replicate UBXbufferSize x00) 0
          (replicate SDpacket x00) 0 0 rates0 PARSE_UBX_SYNC_CHAR_1 ubx_vars0 [].

(** The same with a staging buffer that is full. *)
Definition state_full : State UbxVars :=
  set_UBXpointer 1%nat (set_GNSSbuffer (mkRing (replicate GNSSbufferSize x00)) state0).


(** ** Auxiliary functions of the proofs *)

(** [bytes] stored from index [p] on, as the [for] loop stores them. *)
Fixpoint write_bytes (p : nat) (bytes : list byte) (buf : list byte) : list byte :=
  match bytes with
  | [] => buf
  | c :: rest => write_bytes (S p) rest (<[p := c]> buf)
  end.

(** The state in the middle of a frame: parser stage [s], parser variables
    [v], frame buffer [buf] filled up to [p]. *)
Definition mid_frame {Aux : Type} (s : ParseState) (v : Aux) (buf : list byte) (p : nat)
           (st : State Aux) : State Aux :=
  set_UBXpointer p (set_UBXbuffer buf (set_parserVars v (set_parseUbxState s st))).

(** An RTC at 12:30:15.00 on 1 November 2021 whose previous alarm
    (12:30:00.00, mode 5) has fired and is still latched. *)
Definition rtc_stale : APM3_RTC :=
  let now := mkDateTime 0 15 30 12 1 11 21 1 in
  mkRTC now now (mkAlarm 0 0 30 12 1 11) (mkAlarm 0 0 30 12 1 11) 5 true true [].

(** 13:30:00.00 on the same day. *)
Definition next_half_hour : DateTime := mkDateTime 0 0 30 13 1 11 21 1.

(** The state without the frame-rate stamps and the output trace, and
    without the RTC flags as well: what the frame-rate bookkeeping and the
    RTC synchronisation leave alone. *)
Definition forget_rates {Aux : Type} (st : State Aux) : State Aux :=
  set_rates rates0 (set_trace [] st).

Definition forget_sync {Aux : Type} (st : State Aux) : State Aux :=
  set_rtcSyncFlag false (set_rtcSyncRequiredFlag false (set_trace [] st)).

(** What [frame_valid] leaves alone besides. *)
Definition forget_frame {Aux : Type} (st : State Aux) : State Aux :=
  set_GNSSbuffer rb_empty
    (set_UBXpointer 0%nat
       (set_parseUbxState PARSE_UBX_SYNC_CHAR_1 (forget_sync (forget_rates st)))).

(** The trace grew by serial output only. *)
Definition prints_only (t t' : list Event) : Prop :=
  exists msgs : list SerialMsg, t' = t ++ map SerialPrint msgs.

(** The frame in the buffer is a UBX-NAV-TIMEUTC frame with the validUTC
    bit set and an RTC synchronisation is required. *)
Definition rtc_fires {Aux : Type} (st : State Aux) : bool :=
  (ubx st 2 =? UBX_CLASS_NAV) && (ubx st 3 =? UBX_NAV_TIMEUTC)
  && rtcSyncRequiredFlag st && (Z.land (ubx st 25) 0x04 =? 0x04).

(** The call of [rtc.setTime] for the frame in the buffer. *)
Definition rtc_call {Aux : Type} (st : State Aux) : Event :=
  RtcSetTime (ubx st 22) (ubx st 23) (ubx st 24) (centis_of (nanos_unsigned32 st))
             (ubx st 21) (ubx st 20) (rtcYear_of st - 2000).

(** Byte [i] of a frame as a number, and the fields of a UBX-NAV-TIMEUTC
    frame as [sync_rtc] reads them from the buffer. *)
Definition frame_byte (f : list byte) (i : nat) : Z := b2z (nth i f x00).

Definition is_timeutc (f : list byte) : bool :=
  (frame_class f =? UBX_CLASS_NAV) && (frame_id f =? UBX_NAV_TIMEUTC).

Definition frame_valid_utc (f : list byte) : bool :=
  Z.land (frame_byte f 25) 0x04 =? 0x04.

Definition frame_nanos (f : list byte) : Z :=
  wrap32 (Z.lor (Z.lor (Z.lor (frame_byte f 14) (Z.shiftl (frame_byte f 15) 8))
                       (Z.shiftl (frame_byte f 16) 16))
                (Z.shiftl (frame_byte f 17) 24)).

Definition frame_year (f : list byte) : Z :=
  wrap16 (Z.lor (frame_byte f 18) (Z.shiftl (frame_byte f 19) 8)).

(** The state in which [frame_valid] finds a frame [f] that was read into
    an empty frame buffer. *)
Definition frame_read {Aux : Type} (f : list byte) (v : Aux) (st : State Aux) : State Aux :=
  mid_frame FRAME_VALID v (write_bytes 0 f (UBXbuffer st)) (length f) st.

(** Frames of the receiver protocol used in the examples. *)
Definition env0 : Env := mkEnv 400000 100.

(** UBX-ACK-ACK for message 0x06 0x01. *)
Definition ack_frame : list byte := ubx_frame 0x05 0x01 [x06; x01].

(** A UBX-NAV-PVT header with a four-byte payload. *)
Definition nav_frame : list byte := ubx_frame 0x01 0x07 [x10; x20; x30; x40].

(** UBX-NAV-TIMEUTC: iTOW, tAcc, nano, year, month, day, hour, min, sec,
    valid.  Here nano = -2 (0xFFFFFFFE), 2021-11-01 12:59:50, valid = 0x07. *)
Definition timeutc_payload (n0 n1 n2 n3 valid : byte) : list byte :=
  [x00; x00; x00; x00;  x00; x00; x00; x00;  n0; n1; n2; n3;
   xe5; x07;  x0b; x01;  x0c; x3b; x32;  valid].

Definition timeutc_frame : list byte :=
  ubx_frame 0x01 0x21 (timeutc_payload xfe xff xff xff x07).

(** A 500-byte UBX-RXM-RAWX frame and a 100-byte frame of the ACK class. *)
Definition rawx_frame_500 : list byte := ubx_frame 0x02 0x15 (replicate 492 x11).
Definition ack_frame_100 : list byte := ubx_frame 0x05 0x01 (replicate 92 x00).

(** The state an execution ends in, whichever way it ends. *)
Definition step_state {Aux : Type} (s : Step (Aux := Aux)) : State Aux :=
  match s with Running st | Frozen st => st end.

Definition outcome_state {Aux : Type} (o : Outcome (Aux := Aux)) : State Aux :=
  match o with Returned _ st | Halted st => st end.

(** What the block writer owns: the assembly buffer, its pointer, the time
    of the last sync, the high-water mark, and what went to the file. *)
Definition sd_view {Aux : Type} (st : State Aux)
  : list byte * nat * Z * Z * list Event :=
  (SDbuffer st, SDpointer st, lastDataLogSyncTime st, maxGNSSbufferAvailable st,
   file_ops (trace st)).

(** From [st] to [st'] the RTC was set at most once: either no call was
    made and the "sync required" flag is what it was, or the flag was set,
    one call was made and the flag is now clear. *)
Definition sync_step {Aux : Type} (st st' : State Aux) : Prop :=
  (rtc_sets (trace st') = rtc_sets (trace st)
   /\ rtcSyncRequiredFlag st' = rtcSyncRequiredFlag st)
  \/ (rtcSyncRequiredFlag st = true /\ rtcSyncRequiredFlag st' = false
      /\ exists e, rtc_sets (trace st') = rtc_sets (trace st) ++ [e]).

(** A byte sequence cut into the reads of at most [I2C_BUFFER_LENGTH]
    bytes the receiver serves it in. *)
Fixpoint chunked (fuel : nat) (bytes : list byte) : list Chunk :=
  match fuel, bytes with
  | O, _ | _, [] => []
  | S more, _ :: _ =>
      let n := Z.to_nat I2C_BUFFER_LENGTH in
      ChunkData (take n bytes) :: chunked more (drop n bytes)
  end.

(** The receiver announces 600 bytes (0x0258) and delivers one 500-byte
    RAWX frame followed by one 100-byte frame of the ACK class. *)
Definition transport_600 : Transport :=
  mkTransport (LenBytes x02 x58) (chunked 600 (rawx_frame_500 ++ ack_frame_100)).

(** The receiver has nothing to deliver. *)
Definition transport_idle : Transport := mkTransport (LenBytes x00 x00) [].

(** The clocks of a later invocation, more than 500 ms after the start. *)
Definition env_later : Env := mkEnv 1000000 601.

(** The gate of the block writer. *)
Definition logging_on (cfg : Config) : bool :=
  logData cfg && online_microSd cfg && online_dataLogging cfg.

(** The configuration with other values in the three flags of the gate. *)
Definition with_gate (l m d : bool) (cfg : Config) : Config :=
  mkConfig (usBetweenReadings cfg) (printMajorDebugMessages cfg)
           (printMinorDebugMessages cfg) l (qwiicOnline_uBlox cfg)
           (qwiicAvailable_uBlox cfg) m d.

(** A header announcing a payload of 65535 bytes, and the start of such a
    payload: 4095 bytes that leave the parser inside the frame. *)
Definition long_frame_start : list byte :=
  [xb5; x62; x02; x15; xff; xff] ++ replicate 4089 x00.

(** The state the 600-byte delivery leaves behind when the periodic sync
    is not yet due. *)
Definition state_after_600 : State UbxVars :=
  outcome_state (storeData processUbx_ref cfg_logging env0 transport_600 state0).

(** A sketch in the middle of a logging window: the RTC has been set, the
    alarm has just fired. *)
Definition sketch_alarm : Sketch UbxVars :=
  mkSketch cfg_logging (mkSleepSettings 0 0 false)
           (set_rtcSyncRequiredFlag false state0) rtc_stale true false 0.

(** ** Further vocabulary: the byte stream through the pipeline *)

(** The bytes written to the file, in the order of the writes. *)
Fixpoint file_bytes (t : list Event) : list byte :=
  match t with
  | [] => []
  | FileWrite data :: rest => data ++ file_bytes rest
  | _ :: rest => file_bytes rest
  end.

(** Everything the pipeline holds or has written, oldest byte first: the
    file, the bytes waiting in the assembly buffer, the staging buffer. *)
Definition pipeline_bytes {Aux : Type} (st : State Aux) : list byte :=
  file_bytes (trace st) ++ take (SDpointer st) (SDbuffer st) ++ rb_elems (GNSSbuffer st).

(** The staging buffer of [st'] is that of [st] with bytes added behind. *)
Definition staging_extends {Aux : Type} (st st' : State Aux) : Prop :=
  exists added : list byte,
    rb_elems (GNSSbuffer st') = rb_elems (GNSSbuffer st) ++ added.

Section Resynchronisation.

Context {Aux : Type}.
Variable processUbx : ParseState -> Aux -> byte -> ParseState * Aux.

(** The parser, started in stage [s], is taken through [bytes] and reports
    [SYNC_LOST] on the last byte and no verdict before. *)
Fixpoint parse_lost (s : ParseState) (v : Aux) (bytes : list byte) : option Aux :=
  match bytes with
  | [] => None
  | c :: rest =>
      let '(s1, v1) := processUbx s v c in
      match s1 with
      | SYNC_LOST => match rest with [] => Some v1 | _ :: _ => None end
      | FRAME_VALID => None
      | _ => parse_lost s1 v1 rest
      end
  end.

(** A stretch of noise: failed attempts one after the other, the parser
    being restarted from the first stage after each, as [storeData]
    restarts it (lines 171-176). *)
Fixpoint parse_losses (v : Aux) (runs : list (list byte)) : option Aux :=
  match runs with
  | [] => Some v
  | r :: rest =>
      match parse_lost PARSE_UBX_SYNC_CHAR_1 v r with
      | Some v1 => parse_losses v1 rest
      | None => None
      end
  end.

End Resynchronisation.

(** The invariant of the frame buffer: the index is inside the array, and
    the parser is not left on a verdict. *)
Definition frame_buffer_ok {Aux : Type} (st : State Aux) : Prop :=
  (UBXpointer st < UBXbufferSize)%nat
  /\ length (UBXbuffer st) = UBXbufferSize
  /\ parseUbxState st <> SYNC_LOST /\ parseUbxState st <> FRAME_VALID.

(** ** blinkLed (OpenLog Artemis sketch) *)

(** [previousMillis], [ledState] and what was written to PIN_STAT_LED. *)
Record Blink := mkBlink {
  previousMillis : Z;        (* unsigned long previousMillis *)
  ledState : bool;           (* bool ledState, LOW = false *)
  led_writes : list bool     (* digitalWrite(PIN_STAT_LED, ledState) *)
}.

(** The loop of [blinkLed]: [clock] holds the successive results of
    [millis()], one per pass; [None] means that the loop is still running
    when the readings end.  [i] is a [byte], [flashes * 2] an [int]. *)
Fixpoint blinkLed_loop (clock : list Z) (flashes interval i : Z) (b : Blink)
  : option Blink :=
  if i <? flashes * 2 then
    match clock with
    | [] => None
    | currentMillis :: rest =>
        if wrap32 (currentMillis - previousMillis b) >=? interval then
          let ledState' := negb (ledState b) in
          blinkLed_loop rest flashes interval (wrap8 (i + 1))
            (mkBlink currentMillis ledState' (led_writes b ++ [ledState']))
        else blinkLed_loop rest flashes interval i b
    end
  else Some b.

(** [void blinkLed(byte flashes, unsigned long interval)] *)
Definition blinkLed (clock : list Z) (flashes interval : Z) (b : Blink) : option Blink :=
  blinkLed_loop clock (wrap8 flashes) (wrap32 interval) 0 b.

(** The number of readings of [clock] that find the interval elapsed,
    each counted from the reading that last did. *)
Fixpoint elapsed_readings (clock : list Z) (interval prev : Z) : nat :=
  match clock with
  | [] => O
  | t :: rest =>
      if wrap32 (t - prev) >=? interval
      then S (elapsed_readings rest interval t)
      else elapsed_readings rest interval prev
  end.

(** ** syncRtc (OpenLog Artemis sketch) *)

(** What one pass of the loop of [syncRtc] reads from outside: [millis()]
    at the loop test, the receiver's validity flags, the clock seen by
    [blinkLed], the receiver's date and time, and [Serial.available()]. *)
Record GnssPoll := mkGnssPoll {
  poll_millis : Z;
  dateValid : bool;              (* gnss.getDateValid() *)
  timeValid : bool;              (* gnss.getTimeValid() *)
  blink_clock : list Z;
  gnssHour : Z; gnssMinute : Z; gnssSecond : Z; gnssMillisecond : Z;
  gnssDay : Z; gnssMonth : Z; gnssYear : Z;
  serial_input : bool
}.

Inductive SyncEvent :=
| SyncAttempt                    (* "Attempting to sync RTC with GNSS..." *)
| SyncSetTime (hh mm ss hund day mon yr : Z)   (* rtc.setTime(...) *)
| SyncSuccess                    (* "Success: RTC time synced", printDateTime() *)
| SyncFailed                     (* "Warning: RTC sync failed" *)
| SyncNoDevice.                  (* "Warning: No device detected on Qwiic bus" *)

Record SyncState := mkSyncState {
  sync_blink : Blink;
  sync_flag : bool;              (* rtcSyncFlag *)
  sync_events : list SyncEvent
}.

Definition is_set_time (e : SyncEvent) : bool :=
  match e with SyncSetTime _ _ _ _ _ _ _ => true | _ => false end.

Definition set_times (l : list SyncEvent) : list SyncEvent :=
  filter (fun e => is_set_time e = true) l.

(** The call of [rtc.setTime] made from the readings of a pass. *)
Definition set_time_of (p : GnssPoll) : SyncEvent :=
  SyncSetTime (gnssHour p) (gnssMinute p) (gnssSecond p) (gnssMillisecond p / 10)
              (gnssDay p) (gnssMonth p) (gnssYear p - 2000).

(** The [while] loop of [syncRtc]; [None]: still running when the
    readings end, or inside a [blinkLed] that does not return. *)
Fixpoint syncRtc_loop (polls : list GnssPoll) (loopStartTime : Z)
         (dv tv : bool) (s : SyncState) : option SyncState :=
  if negb dv || negb tv then
    match polls with
    | [] => None
    | p :: rest =>
        if wrap32 (poll_millis p - loopStartTime) <? 5 * 60 * 1000 then
          match blinkLed (blink_clock p) 1 1000 (sync_blink s) with
          | None => None
          | Some b =>
              let s1 := mkSyncState b (sync_flag s) (sync_events s) in
              let s2 :=
                if dateValid p && timeValid p
                then mkSyncState b true (sync_events s ++ [set_time_of p; SyncSuccess])
                else s1 in
              if serial_input p then Some s2
              else syncRtc_loop rest loopStartTime (dateValid p) (timeValid p) s2
          end
        else Some s
    end
  else Some s.

(** [void syncRtc()]; [uBlox] is [qwiicOnline.uBlox], [start] the first
    [millis()]. *)
Definition syncRtc (uBlox : bool) (start : Z) (polls : list GnssPoll) (s : SyncState)
  : option SyncState :=
  if uBlox then
    let s0 := mkSyncState (sync_blink s) false (sync_events s ++ [SyncAttempt]) in
    match syncRtc_loop polls start false false s0 with
    | None => None
    | Some s1 =>
        Some (if sync_flag s1 then s1
              else mkSyncState (sync_blink s1) (sync_flag s1)
                               (sync_events s1 ++ [SyncFailed]))
    end
  else Some (mkSyncState (sync_blink s) (sync_flag s) (sync_events s ++ [SyncNoDevice])).

(** The receiver announces 60 bytes (0x003C) and delivers an ACK, a PVT,
    an ACK and a TIMEUTC frame. *)
Definition frames_60 : list (list byte) :=
  [ack_frame; nav_frame; ack_frame; timeutc_frame].

Definition transport_60 : Transport :=
  mkTransport (LenBytes x00 x3c) (chunked 60 (concat frames_60)).


(** ** A session of invocations *)

(** The periodic sync of [storeData] is due in this invocation: the block
    writer is on and more than 500 ms have passed since the last sync
    (lines 370 and 410). *)
Definition sync_due {Aux : Type} (cfg : Config) (env : Env) (st : State Aux) : bool :=
  logging_on cfg && (wrap32 (millis env - lastDataLogSyncTime st) >? 500).

(** [loop] calls [storeData] again and again (part_000, lines 213-216),
    each time with the clocks and the receiver as they are then; a call
    that freezes is the last one. *)
Fixpoint invocations {Aux : Type}
         (processUbx : ParseState -> Aux -> byte -> ParseState * Aux)
         (cfg : Config) (calls : list (Env * Transport)) (st : State Aux) : State Aux :=
  match calls with
  | [] => st
  | (env, tr) :: rest =>
      match storeData processUbx cfg env tr st with
      | Returned _ st1 => invocations processUbx cfg rest st1
      | Halted st1 => st1
      end
  end.

(** The sizes of the writes to the file, in order. *)
Fixpoint write_sizes (t : list Event) : list nat :=
  match t with
  | [] => []
  | FileWrite data :: rest => length data :: write_sizes rest
  | _ :: rest => write_sizes rest
  end.

(** "Only the final block can be shorter than [SDpacket]": every write
    but the last has [SDpacket] bytes. *)
Definition only_last_short (sizes : list nat) : bool :=
  forallb (fun n => (n =? SDpacket)%nat) (removelast sizes).

(** Three invocations, each finding the 600 bytes of [transport_600]: the
    first with the periodic sync due, the other two 99 ms and 199 ms
    later.  [calls_before_block] are the first two, [env_block] holds the
    clocks of the third. *)
Definition calls_before_block : list (Env * Transport) :=
  [(env_later, transport_600); (mkEnv 2000000 700, transport_600)].

Definition env_block : Env := mkEnv 3000000 800.

Definition state_before_block : State UbxVars :=
  invocations processUbx_ref cfg_logging calls_before_block state0.

Definition state_after_block : State UbxVars :=
  invocations processUbx_ref cfg_logging
              (calls_before_block ++ [(env_block, transport_600)]) state0.

(** Stray bytes between two frames: a zero byte, a one, and a first sync
    character that is not followed by the second. *)
Definition noise_runs : list (list byte) := [[x00]; [x01]; [xb5; x00]].
(** * Properties *)

(** ** Bytes and the ring buffer *)

Lemma b2z_range b : 0 <= b2z b < 256.
Proof.
  unfold b2z. pose proof (Byte.to_N_bounded b). lia.
Qed.

Lemma z2b_b2z b : z2b (b2z b) = b.
Proof.
  unfold z2b, wrap8. pose proof (b2z_range b) as Hr.
  rewrite Z.mod_small by lia. unfold b2z.
  rewrite N2Z.id, Byte.of_to_N. reflexivity.
Qed.

Lemma copy_frame_full N frame b :
  (N <= available b)%nat -> copy_frame N frame b = b.
Proof.
  induction frame as [|c rest IH]; intros Hfull; simpl; [reflexivity|].
  unfold store_char.
  destruct (Nat.ltb_spec (available b) N) as [Hlt|Hge]; [lia|].
  apply IH, Hfull.
Qed.

Lemma copy_frame_elems N frame b :
  rb_elems (copy_frame N frame b)
  = rb_elems b ++ take (free_capacity N b) frame.
Proof.
  revert b. induction frame as [|c rest IH]; intros b; simpl.
  - rewrite take_nil, app_nil_r. reflexivity.
  - unfold store_char, free_capacity.
    destruct (Nat.ltb_spec (available b) N) as [Hlt|Hge].
    + rewrite IH. unfold free_capacity, available. simpl.
      rewrite length_app. simpl.
      replace (N - length (rb_elems b))%nat
        with (S (N - (length (rb_elems b) + 1)))%nat
        by (unfold available in Hlt; lia).
      simpl. rewrite <- app_assoc. reflexivity.
    + rewrite copy_frame_full by exact Hge.
      replace (N - available b)%nat with 0%nat by lia.
      rewrite take_0, app_nil_r. reflexivity.
Qed.

Lemma copy_frame_available N frame b :
  (available b <= N)%nat ->
  available (copy_frame N frame b) = Nat.min N (available b + length frame).
Proof.
  intros Hle. unfold available at 1. rewrite copy_frame_elems.
  rewrite length_app, length_take. unfold free_capacity, available in *. lia.
Qed.

(** ** C2: what the copy into the staging buffer does when it overflows *)

Section Staging.

Context {Aux : Type}.
Implicit Types st : State Aux.

Lemma stage_frame_full st :
  (GNSSbufferSize <= available (GNSSbuffer st))%nat ->
  GNSSbuffer (stage_frame st) = GNSSbuffer st.
Proof.
  intros Hfull. unfold stage_frame. simpl. apply copy_frame_full, Hfull.
Qed.

(** C2, as amended.  When the staging buffer has room for [k] bytes and a
    frame of [k + j] bytes is copied into it, the first [k] bytes of the
    frame are appended in order and the buffer is full; the other [j]
    bytes are dropped, and the copy leaves no trace of them: every other
    global and the output trace are what they were. *)
Theorem stage_frame_truncates st (k j : nat) :
  free_capacity GNSSbufferSize (GNSSbuffer st) = k ->
  (available (GNSSbuffer st) <= GNSSbufferSize)%nat ->
  UBXpointer st = (k + j)%nat ->
  (UBXpointer st <= length (UBXbuffer st))%nat ->
  let st' := stage_frame st in
  rb_elems (GNSSbuffer st') = rb_elems (GNSSbuffer st) ++ take k (UBXbuffer st)
  /\ available (GNSSbuffer st') = (available (GNSSbuffer st) + k)%nat
  /\ lost_bytes st = j
  /\ st' = set_GNSSbuffer (GNSSbuffer st') st.
Proof.
  intros Hk Hcap Hptr Hlen st'. subst st'. unfold stage_frame. simpl.
  rewrite copy_frame_elems, Hk.
  rewrite take_take. replace (Nat.min k (UBXpointer st)) with k by lia.
  repeat split.
  - unfold available at 1. rewrite copy_frame_elems, Hk.
    rewrite length_app, !length_take. unfold available. lia.
  - unfold lost_bytes. rewrite length_take, Hk. lia.
Qed.

End Staging.

Lemma available_replicate n c : available (mkRing (replicate n c)) = n.
Proof. unfold available. simpl. apply length_replicate. Qed.

(** C2, as the specification states it, fails: with the staging buffer
    full, copying a one-byte frame loses that byte and leaves the whole
    state as it was, so no quantity of the state can have gone up by one. *)
Lemma overflow_not_accounted :
  ~ exists acct : State UbxVars -> Z, overflow_accounted acct.
Proof.
  intros [acct Hacct]. specialize (Hacct state_full).
  assert (Havail : available (GNSSbuffer state_full) = GNSSbufferSize)
    by apply available_replicate.
  assert (Hsame : stage_frame state_full = state_full).
  { unfold stage_frame. rewrite copy_frame_full by (rewrite Havail; reflexivity).
    reflexivity. }
  assert (Hlost : lost_bytes state_full = 1%nat).
  { unfold lost_bytes, free_capacity. rewrite Havail, Nat.sub_diag. reflexivity. }
  rewrite Hsame, Hlost in Hacct. lia.
Qed.

(** A buffer with room for two bytes is offered a frame of five. *)
Lemma stage_frame_truncates_witness :
  let st := set_UBXpointer 5%nat
              (set_GNSSbuffer (mkRing (replicate (GNSSbufferSize - 2) x01)) state0) in
  rb_elems (GNSSbuffer (stage_frame st)) = rb_elems (GNSSbuffer st) ++ take 2 (UBXbuffer st)
  /\ available (GNSSbuffer (stage_frame st)) = (available (GNSSbuffer st) + 2)%nat
  /\ lost_bytes st = 3%nat
  /\ stage_frame st = set_GNSSbuffer (GNSSbuffer (stage_frame st)) st.
Proof.
  intros st.
  assert (Havail : available (GNSSbuffer st) = (GNSSbufferSize - 2)%nat)
    by apply available_replicate.
  apply (stage_frame_truncates st 2 3).
  - unfold free_capacity. rewrite Havail. vm_compute. reflexivity.
  - rewrite Havail. apply Nat.le_sub_l.
  - reflexivity.
  - vm_compute. lia.
Defined.

(** ** C3: the watchdog handler of the MicroMod sketch *)

Module WatchdogFacts.
Import MicroMod.

(** Below the threshold the handler pets the watchdog, raises the flag,
    counts the interrupt and returns. *)
Lemma am_watchdog_isr_pets w :
  watchdogCounter w < 10 ->
  am_watchdog_isr w
  = IsrReturn (set_watchdogCounter (wrap_int (watchdogCounter w + 1))
                 (set_watchdogFlag true (wdt_restart (wdt_clear w)))).
Proof.
  intros Hlt. unfold am_watchdog_isr. simpl.
  destruct (Z.ltb_spec (watchdogCounter w) 10) as [_|Hge]; [reflexivity | lia].
Qed.

(** At the threshold the handler stops the watchdog, lights the LED and
    spins: the counter is not incremented and the handler never returns. *)
Lemma am_watchdog_isr_spins w :
  10 <= watchdogCounter w ->
  am_watchdog_isr w = IsrSpin (set_led_builtin true (wdt_stop (wdt_clear w))).
Proof.
  intros Hge. unfold am_watchdog_isr. simpl.
  destruct (Z.ltb_spec (watchdogCounter w) 10) as [Hlt|_]; [lia | reflexivity].
Qed.

Lemma wrap_int_small z : 0 <= z < 2147483648 -> wrap_int z = z.
Proof.
  intros Hz. unfold wrap_int, wrap32, signed32.
  rewrite Z.mod_small by lia.
  destruct (Z.ltb_spec z 2147483648); lia.
Qed.

(** From a counter of zero, [n <= 10] interrupts in a row all return, with
    the counter at [n] and [n] more pets. *)
Lemma watchdog_interrupts_below (n : nat) : forall w,
  (n <= 10)%nat -> watchdogCounter w = 10 - Z.of_nat n ->
  exists w', watchdog_interrupts n w = IsrReturn w'
             /\ watchdogCounter w' = 10
             /\ wdt_pets w' = (wdt_pets w + n)%nat
             /\ wdt_running w' = wdt_running w
             /\ led_builtin w' = led_builtin w.
Proof.
  induction n as [|n IH]; intros w Hn Hc.
  - exists w. simpl in *. repeat split; lia.
  - simpl. rewrite am_watchdog_isr_pets by lia.
    destruct (IH (set_watchdogCounter (wrap_int (watchdogCounter w + 1))
                    (set_watchdogFlag true (wdt_restart (wdt_clear w)))))
      as (w' & Hrun & Hcnt & Hpets & Hrunning & Hled).
    + lia.
    + simpl. rewrite wrap_int_small by lia. lia.
    + exists w'. rewrite Hrun, Hcnt, Hpets, Hrunning, Hled. simpl.
      repeat split; lia.
Qed.

(** C3: what the code does on the eleventh watchdog interrupt in a row.
    Starting from a counter of zero, ten interrupts pet the watchdog and
    bring the counter to ten; the eleventh stops the watchdog, lights the
    LED and spins for ever with the counter still at ten.  No restart is
    issued, and with the watchdog stopped none can follow. *)
Theorem am_watchdog_isr_eleventh w :
  watchdogCounter w = 0 ->
  exists w10 w11,
    watchdog_interrupts 10 w = IsrReturn w10
    /\ watchdogCounter w10 = 10
    /\ wdt_pets w10 = (wdt_pets w + 10)%nat
    /\ watchdog_interrupts 11 w = IsrSpin w11
    /\ watchdogCounter w11 = 10
    /\ wdt_pets w11 = (wdt_pets w + 10)%nat
    /\ wdt_running w11 = false
    /\ led_builtin w11 = true
    /\ hard_restart_follows w11 = false.
Proof.
  intros Hzero.
  destruct (watchdog_interrupts_below 10 w) as (w10 & Hrun & Hcnt & Hpets & _ & _);
    [lia | rewrite Hzero; reflexivity |].
  exists w10, (set_led_builtin true (wdt_stop (wdt_clear w10))).
  assert (Hsplit : watchdog_interrupts 11 w
                   = match watchdog_interrupts 10 w with
                     | IsrReturn w1 => am_watchdog_isr w1
                     | IsrSpin w1 => IsrSpin w1
                     end).
  { clear. change 11%nat with (10 + 1)%nat. generalize 10%nat as n. intros n.
    revert w. induction n as [|n IH]; intros w; simpl.
    - destruct (am_watchdog_isr w); reflexivity.
    - destruct (am_watchdog_isr w) as [w1|w1]; [apply IH | reflexivity]. }
  rewrite Hsplit, Hrun, am_watchdog_isr_spins by lia.
  simpl. repeat split; assumption.
Qed.

Lemma am_watchdog_isr_eleventh_witness :
  exists w10 w11,
    watchdog_interrupts 10 watchdog0 = IsrReturn w10
    /\ watchdogCounter w10 = 10
    /\ wdt_pets w10 = (wdt_pets watchdog0 + 10)%nat
    /\ watchdog_interrupts 11 watchdog0 = IsrSpin w11
    /\ watchdogCounter w11 = 10
    /\ wdt_pets w11 = (wdt_pets watchdog0 + 10)%nat
    /\ wdt_running w11 = false
    /\ led_builtin w11 = true
    /\ hard_restart_follows w11 = false.
Proof.
  apply (am_watchdog_isr_eleventh watchdog0). reflexivity.
Defined.

End WatchdogFacts.

(** ** C8: re-arming the RTC alarm in the MicroMod sketch *)

Module AlarmFacts.
Import MicroMod.

Lemma setSleepAlarm_ops s r :
  rtc_ops (setSleepAlarm s r)
  = rtc_ops r ++ [OpIntClear; OpSetAlarm (sleep_target s r); OpSetAlarmMode 5;
                  OpGetTime; OpPrintDateTime (clock r);
                  OpGetAlarm; OpPrintAlarm (year (clock r)) (sleep_target s r)].
Proof.
  unfold setSleepAlarm, printAlarm, printDateTime, rtc_getAlarm, rtc_getTime,
    rtc_setAlarmMode, rtc_setAlarm, am_hal_rtc_int_clear, rtc_op, sleep_target.
  simpl. repeat rewrite <- app_assoc. reflexivity.
Qed.

Lemma setLoggingAlarm_ops s r :
  rtc_ops (setLoggingAlarm s r)
  = rtc_ops r ++ [OpIntClear; OpSetAlarm (logging_target s r); OpSetAlarmMode 5;
                  OpGetTime; OpPrintDateTime (clock r);
                  OpGetAlarm; OpPrintAlarm (year (clock r)) (logging_target s r)].
Proof.
  unfold setLoggingAlarm, printAlarm, printDateTime, rtc_getAlarm, rtc_getTime,
    rtc_setAlarmMode, rtc_setAlarm, am_hal_rtc_int_clear, rtc_op, logging_target.
  simpl. repeat rewrite <- app_assoc. reflexivity.
Qed.

(** The hardware side of the RTC after a re-arming: nothing latched, the
    new target in the alarm registers, mode 5. *)
Lemma setSleepAlarm_hw s r :
  int_pending (setSleepAlarm s r) = false
  /\ alarm_reg (setSleepAlarm s r) = sleep_target s r
  /\ alarmMode (setSleepAlarm s r) = 5
  /\ int_attached (setSleepAlarm s r) = int_attached r
  /\ fields (setSleepAlarm s r) = clock r
  /\ clock (setSleepAlarm s r) = clock r.
Proof. repeat split. Qed.

Lemma setLoggingAlarm_hw s r :
  int_pending (setLoggingAlarm s r) = false
  /\ alarm_reg (setLoggingAlarm s r) = logging_target s r
  /\ alarmMode (setLoggingAlarm s r) = 5
  /\ int_attached (setLoggingAlarm s r) = int_attached r
  /\ fields (setLoggingAlarm s r) = clock r
  /\ clock (setLoggingAlarm s r) = clock r.
Proof. repeat split. Qed.

(** After a tick the interrupt is latched exactly when it was latched
    before or the new time matches the alarm. *)
Lemma rtc_tick_pending t r :
  int_pending (rtc_tick t r)
  = int_pending r || alarm_match (alarmMode r) (alarm_reg r) t.
Proof.
  unfold rtc_tick. simpl.
  destruct (alarm_match (alarmMode r) (alarm_reg r) t); simpl;
    [rewrite orb_true_r | rewrite orb_false_r]; reflexivity.
Qed.

Lemma rtc_tick_attached t r : int_attached (rtc_tick t r) = int_attached r.
Proof.
  unfold rtc_tick. simpl.
  destruct (alarm_match (alarmMode r) (alarm_reg r) t); reflexivity.
Qed.

(** The handler runs once for a latched, attached interrupt and leaves
    nothing latched behind. *)
Lemma take_alarm_interrupt_once r flag :
  let '(st1, n1) := take_alarm_interrupt (r, flag) in
  let '(_, n2) := take_alarm_interrupt st1 in
  n1 = (if int_pending r && int_attached r then 1%nat else 0%nat)
  /\ (n1 = 1%nat -> n2 = 0%nat).
Proof.
  unfold take_alarm_interrupt. simpl.
  destruct (int_pending r) eqn:Hp, (int_attached r) eqn:Ha; simpl;
    rewrite ?Hp, ?Ha; simpl; split; (reflexivity || discriminate || trivial).
Qed.

(** C8.  [setSleepAlarm] and [setLoggingAlarm] clear the alarm interrupt
    first and program the alarm next, so that whatever was latched before
    is gone: after the call nothing is pending, and once the clock moves to
    [t] the interrupt is latched exactly when [t] matches the new target.
    Re-arming a second time with the same target leaves the alarm
    registers, the mode and the (empty) latch as the first call left them;
    when the target time is then reached one interrupt is latched, the
    handler runs once and a second dispatch finds nothing. *)
Theorem rearm_clears_pending_first s r t flag :
  let r1 := setSleepAlarm s r in
  let r2 := setLoggingAlarm s r in
  (exists rest, rtc_ops r1
     = rtc_ops r ++ OpIntClear :: OpSetAlarm (sleep_target s r) :: OpSetAlarmMode 5 :: rest)
  /\ (exists rest, rtc_ops r2
     = rtc_ops r ++ OpIntClear :: OpSetAlarm (logging_target s r) :: OpSetAlarmMode 5 :: rest)
  /\ int_pending r1 = false /\ int_pending r2 = false
  /\ int_pending (rtc_tick t r1) = alarm_match 5 (sleep_target s r) t
  /\ int_pending (rtc_tick t r2) = alarm_match 5 (logging_target s r) t
  /\ (sleep_target s r1 = sleep_target s r ->
      let r11 := setSleepAlarm s r1 in
      alarm_reg r11 = alarm_reg r1 /\ alarmMode r11 = alarmMode r1
      /\ int_pending r11 = int_pending r1
      /\ (alarm_match 5 (sleep_target s r) t = true -> int_attached r = true ->
          int_pending (rtc_tick t r11) = true
          /\ snd (take_alarm_interrupt (rtc_tick t r11, flag)) = 1%nat
          /\ snd (take_alarm_interrupt (fst (take_alarm_interrupt (rtc_tick t r11, flag))))
             = 0%nat))
  /\ (logging_target s r2 = logging_target s r ->
      let r22 := setLoggingAlarm s r2 in
      alarm_reg r22 = alarm_reg r2 /\ alarmMode r22 = alarmMode r2
      /\ int_pending r22 = int_pending r2
      /\ (alarm_match 5 (logging_target s r) t = true -> int_attached r = true ->
          int_pending (rtc_tick t r22) = true
          /\ snd (take_alarm_interrupt (rtc_tick t r22, flag)) = 1%nat
          /\ snd (take_alarm_interrupt (fst (take_alarm_interrupt (rtc_tick t r22, flag))))
             = 0%nat)).
Proof.
  intros r1 r2.
  destruct (setSleepAlarm_hw s r) as (Hp1 & Hreg1 & Hm1 & Ha1 & _).
  destruct (setLoggingAlarm_hw s r) as (Hp2 & Hreg2 & Hm2 & Ha2 & _).
  fold r1 in Hp1, Hreg1, Hm1, Ha1. fold r2 in Hp2, Hreg2, Hm2, Ha2.
  split; [eexists; unfold r1; rewrite setSleepAlarm_ops; reflexivity|].
  split; [eexists; unfold r2; rewrite setLoggingAlarm_ops; reflexivity|].
  split; [exact Hp1|]. split; [exact Hp2|].
  split; [rewrite rtc_tick_pending, Hp1, Hm1, Hreg1; reflexivity|].
  split; [rewrite rtc_tick_pending, Hp2, Hm2, Hreg2; reflexivity|].
  split.
  - intros Hsame r11.
    destruct (setSleepAlarm_hw s r1) as (Hp & Hreg & Hm & Ha & _).
    fold r11 in Hp, Hreg, Hm, Ha.
    split; [congruence|]. split; [congruence|]. split; [congruence|].
    intros Hmatch Hatt.
    assert (Hpend : int_pending (rtc_tick t r11) = true)
      by (rewrite rtc_tick_pending, Hp, Hm, Hreg, Hsame, Hmatch; reflexivity).
    assert (Hatt' : int_attached (rtc_tick t r11) = true)
      by (rewrite rtc_tick_attached; congruence).
    split; [exact Hpend|].
    unfold take_alarm_interrupt, am_rtc_isr, am_hal_rtc_int_clear, rtc_op.
    cbn [fst snd]. rewrite Hpend, Hatt'. cbn. split; reflexivity.
  - intros Hsame r22.
    destruct (setLoggingAlarm_hw s r2) as (Hp & Hreg & Hm & Ha & _).
    fold r22 in Hp, Hreg, Hm, Ha.
    split; [congruence|]. split; [congruence|]. split; [congruence|].
    intros Hmatch Hatt.
    assert (Hpend : int_pending (rtc_tick t r22) = true)
      by (rewrite rtc_tick_pending, Hp, Hm, Hreg, Hsame, Hmatch; reflexivity).
    assert (Hatt' : int_attached (rtc_tick t r22) = true)
      by (rewrite rtc_tick_attached; congruence).
    split; [exact Hpend|].
    unfold take_alarm_interrupt, am_rtc_isr, am_hal_rtc_int_clear, rtc_op.
    cbn [fst snd]. rewrite Hpend, Hatt'. cbn. split; reflexivity.
Qed.

(** The stale interrupt of [rtc_stale] is gone after [setSleepAlarm]; armed
    twice, the alarm fires once at 13:30:00.00. *)
Lemma rearm_clears_pending_first_witness :
  let s := default_alarms in
  int_pending rtc_stale = true
  /\ int_pending (setSleepAlarm s rtc_stale) = false
  /\ snd (take_alarm_interrupt
            (rtc_tick next_half_hour (setSleepAlarm s (setSleepAlarm s rtc_stale)), false))
     = 1%nat
  /\ snd (take_alarm_interrupt
            (fst (take_alarm_interrupt
                    (rtc_tick next_half_hour (setSleepAlarm s (setSleepAlarm s rtc_stale)),
                     false))))
     = 0%nat.
Proof.
  intros s.
  destruct (rearm_clears_pending_first s rtc_stale next_half_hour false)
    as (_ & _ & Hclear & _ & _ & _ & Htwice & _).
  destruct (Htwice eq_refl) as (_ & _ & _ & Hfire).
  destruct (Hfire eq_refl eq_refl) as (_ & Hone & Hnone).
  split; [reflexivity|]. split; [exact Hclear|]. split; [exact Hone | exact Hnone].
Defined.

End AlarmFacts.

(** ** The frame buffer *)

Lemma length_write_bytes bytes : forall p buf,
  length (write_bytes p bytes buf) = length buf.
Proof.
  induction bytes as [|c rest IH]; intros p buf; simpl; [reflexivity|].
  rewrite IH. apply length_insert.
Qed.

Lemma take_write_bytes bytes : forall p buf,
  (p + length bytes <= length buf)%nat ->
  take (p + length bytes) (write_bytes p bytes buf) = take p buf ++ bytes.
Proof.
  induction bytes as [|c rest IH]; intros p buf Hlen; simpl in *.
  - rewrite Nat.add_0_r, app_nil_r. reflexivity.
  - replace (p + S (length rest))%nat with (S p + length rest)%nat by lia.
    rewrite IH by (rewrite length_insert; lia).
    rewrite (take_S_r _ p c) by (apply list_lookup_insert_eq; lia).
    rewrite take_insert_ge by lia.
    rewrite <- app_assoc. reflexivity.
Qed.

Lemma write_bytes_whole bytes buf :
  (length bytes <= length buf)%nat ->
  take (length bytes) (write_bytes 0 bytes buf) = bytes.
Proof.
  intros Hlen. apply (take_write_bytes bytes 0 buf). simpl. exact Hlen.
Qed.

Lemma nth_take_lt {A} (l : list A) n i d :
  (i < n)%nat -> nth i (take n l) d = nth i l d.
Proof.
  intros Hi. rewrite !nth_lookup, lookup_take_lt by exact Hi. reflexivity.
Qed.

(** Below the length of the frame the buffer holds the frame. *)
Lemma nth_write_bytes bytes buf i :
  (length bytes <= length buf)%nat -> (i < length bytes)%nat ->
  nth i (write_bytes 0 bytes buf) x00 = nth i bytes x00.
Proof.
  intros Hlen Hi.
  rewrite <- (nth_take_lt _ (length bytes)) by exact Hi.
  rewrite write_bytes_whole by exact Hlen. reflexivity.
Qed.

Lemma copy_frame_app N f1 f2 b :
  copy_frame N (f1 ++ f2) b = copy_frame N f2 (copy_frame N f1 b).
Proof.
  revert b. induction f1 as [|c rest IH]; intros b; simpl; [reflexivity | apply IH].
Qed.

(** ** storeData: one byte, one frame *)

(** Closed comparisons of natural numbers, by evaluation. *)
Ltac nat_compute :=
  repeat split;
  first [apply Nat.leb_le | apply Nat.ltb_lt | idtac]; vm_compute; reflexivity.

(** Unfold record projections and setters only. *)
Ltac fields :=
  cbn [lastReadTime lastDataLogSyncTime rtcSyncFlag rtcSyncRequiredFlag GNSSbuffer
       UBXbuffer UBXpointer SDbuffer SDpointer maxGNSSbufferAvailable rates
       parseUbxState parserVars trace
       set_lastReadTime set_lastDataLogSyncTime set_rtcSyncFlag set_rtcSyncRequiredFlag
       set_GNSSbuffer set_UBXbuffer set_UBXpointer set_SDbuffer set_SDpointer
       set_maxGNSSbufferAvailable set_rates set_parseUbxState set_parserVars set_trace
       emit mid_frame frame_read stage_frame forget_rates forget_sync forget_frame].

Ltac fields_in H :=
  cbn [lastReadTime lastDataLogSyncTime rtcSyncFlag rtcSyncRequiredFlag GNSSbuffer
       UBXbuffer UBXpointer SDbuffer SDpointer maxGNSSbufferAvailable rates
       parseUbxState parserVars trace
       set_lastReadTime set_lastDataLogSyncTime set_rtcSyncFlag set_rtcSyncRequiredFlag
       set_GNSSbuffer set_UBXbuffer set_UBXpointer set_SDbuffer set_SDpointer
       set_maxGNSSbufferAvailable set_rates set_parseUbxState set_parserVars set_trace
       emit mid_frame frame_read stage_frame forget_rates forget_sync forget_frame] in H.


Section PipelineFacts.

Context {Aux : Type}.
Variable processUbx : ParseState -> Aux -> byte -> ParseState * Aux.
Variable cfg : Config.
Variable env : Env.
Implicit Types st : State Aux.

Lemma file_ops_app t1 t2 : file_ops (t1 ++ t2) = file_ops t1 ++ file_ops t2.
Proof. apply filter_app. Qed.

Lemma rtc_sets_app t1 t2 : rtc_sets (t1 ++ t2) = rtc_sets t1 ++ rtc_sets t2.
Proof. apply filter_app. Qed.

Lemma forget_note_frame k st :
  forget_rates (note_frame cfg env k st) = forget_rates st.
Proof.
  unfold note_frame, print_if, emit.
  repeat case_match; reflexivity.
Qed.

Lemma trace_note_frame k st :
  trace (note_frame cfg env k st) = trace st
  \/ trace (note_frame cfg env k st) = trace st ++ [SerialPrint (MsgInterval k)].
Proof.
  unfold note_frame, print_if, emit.
  repeat case_match; simpl; auto.
Qed.

Lemma ubx_forget_rates st st' i :
  forget_rates st' = forget_rates st -> ubx st' i = ubx st i.
Proof.
  intros H. apply (f_equal UBXbuffer) in H. simpl in H. unfold ubx. rewrite H.
  reflexivity.
Qed.

Lemma forget_maybe_note (c : bool) k st :
  forget_rates (if c then note_frame cfg env k st else st) = forget_rates st.
Proof. destruct c; [apply forget_note_frame | reflexivity]. Qed.

Lemma forget_frame_rates st :
  forget_rates (frame_rates cfg env st) = forget_rates st.
Proof.
  unfold frame_rates. cbv zeta.
  rewrite !forget_maybe_note. reflexivity.
Qed.

Lemma prints_only_refl t : prints_only t t.
Proof. exists []. simpl. rewrite app_nil_r. reflexivity. Qed.

Lemma prints_only_trans t1 t2 t3 :
  prints_only t1 t2 -> prints_only t2 t3 -> prints_only t1 t3.
Proof.
  intros [m1 H1] [m2 H2]. exists (m1 ++ m2).
  rewrite H2, H1, map_app, app_assoc. reflexivity.
Qed.

Lemma prints_only_one t m : prints_only t (t ++ [SerialPrint m]).
Proof. exists [m]. reflexivity. Qed.

Lemma file_ops_prints msgs : file_ops (map SerialPrint msgs) = [].
Proof. induction msgs as [|m rest IH]; [reflexivity | exact IH]. Qed.

Lemma rtc_sets_prints msgs : rtc_sets (map SerialPrint msgs) = [].
Proof. induction msgs as [|m rest IH]; [reflexivity | exact IH]. Qed.

Lemma prints_only_file_ops t t' : prints_only t t' -> file_ops t' = file_ops t.
Proof.
  intros [msgs ->]. rewrite file_ops_app, file_ops_prints, app_nil_r. reflexivity.
Qed.

Lemma prints_only_rtc_sets t t' : prints_only t t' -> rtc_sets t' = rtc_sets t.
Proof.
  intros [msgs ->]. rewrite rtc_sets_app, rtc_sets_prints, app_nil_r. reflexivity.
Qed.

Lemma prints_note_frame k st : prints_only (trace st) (trace (note_frame cfg env k st)).
Proof.
  destruct (trace_note_frame k st) as [-> | ->];
    [apply prints_only_refl | apply prints_only_one].
Qed.

Lemma prints_maybe_note (c : bool) k st :
  prints_only (trace st) (trace (if c then note_frame cfg env k st else st)).
Proof. destruct c; [apply prints_note_frame | apply prints_only_refl]. Qed.

Lemma prints_frame_rates st : prints_only (trace st) (trace (frame_rates cfg env st)).
Proof.
  unfold frame_rates. cbv zeta.
  eapply prints_only_trans; [|apply prints_maybe_note].
  eapply prints_only_trans; [|apply prints_maybe_note].
  eapply prints_only_trans; [|apply prints_maybe_note].
  apply prints_maybe_note.
Qed.

Lemma prints_report_ack st : prints_only (trace st) (trace (report_ack cfg st)).
Proof.
  unfold report_ack, emit.
  repeat case_match; simpl; first [apply prints_only_refl | apply prints_only_one].
Qed.

Lemma forget_report_ack st : forget_rates (report_ack cfg st) = forget_rates st.
Proof.
  unfold report_ack, emit. repeat case_match; reflexivity.
Qed.

(** *** The RTC synchronisation *)

Lemma forget_sync_rtc st : forget_sync (sync_rtc cfg st) = forget_sync st.
Proof.
  unfold sync_rtc, print_if, emit. repeat case_match; reflexivity.
Qed.

Lemma sync_rtc_idle st : rtc_fires st = false -> sync_rtc cfg st = st.
Proof.
  unfold rtc_fires, sync_rtc. intros H.
  destruct (ubx st 2 =? UBX_CLASS_NAV); [|reflexivity].
  destruct (ubx st 3 =? UBX_NAV_TIMEUTC); [|reflexivity].
  destruct (rtcSyncRequiredFlag st); [|reflexivity].
  simpl in H. rewrite H. reflexivity.
Qed.

Lemma sync_rtc_fires st :
  rtc_fires st = true ->
  rtcSyncRequiredFlag (sync_rtc cfg st) = false
  /\ rtcSyncFlag (sync_rtc cfg st) = true
  /\ exists msgs, trace (sync_rtc cfg st) = trace st ++ rtc_call st :: map SerialPrint msgs.
Proof.
  unfold rtc_fires, sync_rtc. intros H.
  destruct (ubx st 2 =? UBX_CLASS_NAV); [|discriminate H].
  destruct (ubx st 3 =? UBX_NAV_TIMEUTC); [|discriminate H].
  destruct (rtcSyncRequiredFlag st); [|discriminate H].
  simpl in H. rewrite H. simpl.
  unfold print_if, emit, rtc_call.
  destruct (printMinorDebugMessages cfg); simpl.
  - repeat split. eexists [_]. simpl. rewrite <- app_assoc. reflexivity.
  - repeat split. exists []. reflexivity.
Qed.

Lemma sync_rtc_file_ops st : file_ops (trace (sync_rtc cfg st)) = file_ops (trace st).
Proof.
  destruct (rtc_fires st) eqn:Hf.
  - destruct (sync_rtc_fires st Hf) as (_ & _ & msgs & ->).
    rewrite file_ops_app. change (rtc_call st :: map SerialPrint msgs)
      with ([rtc_call st] ++ map SerialPrint msgs).
    rewrite file_ops_app, file_ops_prints. unfold rtc_call. simpl.
    rewrite app_nil_r. reflexivity.
  - rewrite sync_rtc_idle by exact Hf. reflexivity.
Qed.

Lemma sync_rtc_rtc_sets st :
  rtc_sets (trace (sync_rtc cfg st))
  = rtc_sets (trace st) ++ (if rtc_fires st then [rtc_call st] else []).
Proof.
  destruct (rtc_fires st) eqn:Hf.
  - destruct (sync_rtc_fires st Hf) as (_ & _ & msgs & ->).
    rewrite rtc_sets_app. change (rtc_call st :: map SerialPrint msgs)
      with ([rtc_call st] ++ map SerialPrint msgs).
    rewrite rtc_sets_app, rtc_sets_prints. reflexivity.
  - rewrite sync_rtc_idle by exact Hf. rewrite app_nil_r. reflexivity.
Qed.

Lemma sync_rtc_flag st :
  rtcSyncRequiredFlag (sync_rtc cfg st)
  = if rtc_fires st then false else rtcSyncRequiredFlag st.
Proof.
  destruct (rtc_fires st) eqn:Hf.
  - apply sync_rtc_fires, Hf.
  - rewrite sync_rtc_idle by exact Hf. reflexivity.
Qed.


(** *** A valid frame *)

Lemma forget_frame_of_rates st st' :
  forget_rates st' = forget_rates st -> forget_frame st' = forget_frame st.
Proof.
  intros H. unfold forget_frame, forget_sync.
  assert (Hg : forall s : State Aux, forget_rates (set_trace [] (forget_rates s))
                                     = forget_rates s) by reflexivity.
  replace (set_trace [] (forget_rates st')) with (set_trace [] (forget_rates st))
    by (rewrite H; reflexivity).
  reflexivity.
Qed.

Lemma forget_frame_of_sync st st' :
  forget_sync st' = forget_sync st -> forget_frame st' = forget_frame st.
Proof.
  intros H.
  assert (Hg : forall s : State Aux, forget_frame s
            = set_GNSSbuffer rb_empty
                (set_UBXpointer 0%nat
                   (set_parseUbxState PARSE_UBX_SYNC_CHAR_1
                      (set_rates rates0 (forget_sync s))))) by reflexivity.
  rewrite !Hg, H. reflexivity.
Qed.

Lemma forget_frame_release st s p g :
  forget_frame (set_parseUbxState s (set_UBXpointer p (set_GNSSbuffer g st)))
  = forget_frame st.
Proof. reflexivity. Qed.

Lemma forget_frame_release' st s p :
  forget_frame (set_parseUbxState s (set_UBXpointer p st)) = forget_frame st.
Proof. reflexivity. Qed.

Lemma forget_frame_valid st : forget_frame (frame_valid cfg env st) = forget_frame st.
Proof.
  unfold frame_valid.
  destruct (negb (ubx st 2 =? UBX_CLASS_ACK)).
  - unfold stage_frame. rewrite forget_frame_release.
    rewrite (forget_frame_of_sync _ _ (forget_sync_rtc _)).
    apply forget_frame_of_rates, forget_frame_rates.
  - rewrite forget_frame_release'.
    apply forget_frame_of_rates, forget_report_ack.
Qed.

(** What the equalities of forgetful images say field by field. *)
Lemma forget_rates_fields st st' :
  forget_rates st' = forget_rates st ->
  GNSSbuffer st' = GNSSbuffer st /\ UBXbuffer st' = UBXbuffer st
  /\ UBXpointer st' = UBXpointer st /\ rtcSyncRequiredFlag st' = rtcSyncRequiredFlag st
  /\ parseUbxState st' = parseUbxState st /\ parserVars st' = parserVars st
  /\ SDbuffer st' = SDbuffer st /\ SDpointer st' = SDpointer st
  /\ lastDataLogSyncTime st' = lastDataLogSyncTime st.
Proof.
  intros H.
  pose proof (f_equal GNSSbuffer H). pose proof (f_equal UBXbuffer H).
  pose proof (f_equal UBXpointer H). pose proof (f_equal rtcSyncRequiredFlag H).
  pose proof (f_equal parseUbxState H). pose proof (f_equal parserVars H).
  pose proof (f_equal SDbuffer H). pose proof (f_equal SDpointer H).
  pose proof (f_equal lastDataLogSyncTime H).
  auto 10.
Qed.

Lemma forget_sync_fields st st' :
  forget_sync st' = forget_sync st ->
  GNSSbuffer st' = GNSSbuffer st /\ UBXbuffer st' = UBXbuffer st
  /\ UBXpointer st' = UBXpointer st
  /\ parseUbxState st' = parseUbxState st /\ parserVars st' = parserVars st
  /\ SDbuffer st' = SDbuffer st /\ SDpointer st' = SDpointer st
  /\ lastDataLogSyncTime st' = lastDataLogSyncTime st.
Proof.
  intros H.
  pose proof (f_equal GNSSbuffer H). pose proof (f_equal UBXbuffer H).
  pose proof (f_equal UBXpointer H).
  pose proof (f_equal parseUbxState H). pose proof (f_equal parserVars H).
  pose proof (f_equal SDbuffer H). pose proof (f_equal SDpointer H).
  pose proof (f_equal lastDataLogSyncTime H).
  auto 10.
Qed.

Lemma forget_frame_fields st st' :
  forget_frame st' = forget_frame st ->
  UBXbuffer st' = UBXbuffer st /\ parserVars st' = parserVars st
  /\ SDbuffer st' = SDbuffer st /\ SDpointer st' = SDpointer st
  /\ lastDataLogSyncTime st' = lastDataLogSyncTime st
  /\ maxGNSSbufferAvailable st' = maxGNSSbufferAvailable st
  /\ lastReadTime st' = lastReadTime st.
Proof.
  intros H.
  pose proof (f_equal UBXbuffer H). pose proof (f_equal parserVars H).
  pose proof (f_equal SDbuffer H). pose proof (f_equal SDpointer H).
  pose proof (f_equal lastDataLogSyncTime H).
  pose proof (f_equal maxGNSSbufferAvailable H). pose proof (f_equal lastReadTime H).
  auto 10.
Qed.

(** The frame-rate bookkeeping does not change what the RTC
    synchronisation looks at. *)
Lemma rtc_fires_frame_rates st : rtc_fires (frame_rates cfg env st) = rtc_fires st.
Proof.
  pose proof (forget_frame_rates st) as H. unfold rtc_fires.
  rewrite !(ubx_forget_rates _ _ _ H).
  destruct (forget_rates_fields _ _ H) as (_ & _ & _ & -> & _). reflexivity.
Qed.

Lemma rtc_call_frame_rates st : rtc_call (frame_rates cfg env st) = rtc_call st.
Proof.
  pose proof (forget_frame_rates st) as H.
  unfold rtc_call, nanos_unsigned32, rtcYear_of.
  rewrite !(ubx_forget_rates _ _ _ H). reflexivity.
Qed.

(** What [frame_valid] does: the frame goes to the staging buffer unless
    it is an ACK/NACK, the RTC is set when [rtc_fires], the file is not
    touched, and the frame buffer is released. *)
Lemma frame_valid_spec st :
  let st' := frame_valid cfg env st in
  let ack := ubx st 2 =? UBX_CLASS_ACK in
  UBXpointer st' = 0%nat
  /\ parseUbxState st' = PARSE_UBX_SYNC_CHAR_1
  /\ GNSSbuffer st'
     = (if ack then GNSSbuffer st
        else copy_frame GNSSbufferSize (take (UBXpointer st) (UBXbuffer st)) (GNSSbuffer st))
  /\ file_ops (trace st') = file_ops (trace st)
  /\ rtc_sets (trace st')
     = rtc_sets (trace st) ++ (if negb ack && rtc_fires st then [rtc_call st] else [])
  /\ rtcSyncRequiredFlag st'
     = (if negb ack && rtc_fires st then false else rtcSyncRequiredFlag st).
Proof.
  intros st' ack. subst st' ack. unfold frame_valid.
  destruct (ubx st 2 =? UBX_CLASS_ACK); cbn [negb andb]; fields.
  - pose proof (prints_report_ack st) as Hp.
    destruct (forget_rates_fields _ _ (forget_report_ack st)) as (Hg & _ & _ & Hq & _).
    split; [reflexivity|]. split; [reflexivity|].
    split; [exact Hg|].
    split; [apply prints_only_file_ops, Hp|].
    split; [rewrite app_nil_r; apply prints_only_rtc_sets, Hp| exact Hq].
  - pose proof (prints_frame_rates st) as Hp.
    destruct (forget_rates_fields _ _ (forget_frame_rates st))
      as (Hg & Hb & Hq & Hflag & _).
    destruct (forget_sync_fields _ _ (forget_sync_rtc (frame_rates cfg env st)))
      as (Hg' & Hb' & Hq' & _).
    split; [reflexivity|]. split; [reflexivity|].
    split; [rewrite Hg', Hb', Hq', Hg, Hb, Hq; reflexivity|].
    split; [rewrite sync_rtc_file_ops; apply prints_only_file_ops, Hp|].
    split.
    { rewrite sync_rtc_rtc_sets, rtc_fires_frame_rates, rtc_call_frame_rates.
      rewrite (prints_only_rtc_sets _ _ Hp). reflexivity. }
    rewrite sync_rtc_flag, rtc_fires_frame_rates, Hflag. reflexivity.
Qed.

(** *** One byte *)

Lemma handle_byte_overflow st c :
  S (UBXpointer st) = UBXbufferSize ->
  exists st', handle_byte processUbx cfg env st c = Frozen st'
    /\ trace st' = trace st ++ [SerialPrint MsgUBXbufferOverflow]
    /\ GNSSbuffer st' = GNSSbuffer st
    /\ UBXpointer st' = UBXbufferSize
    /\ rtcSyncRequiredFlag st' = rtcSyncRequiredFlag st.
Proof.
  intros Hp. unfold handle_byte.
  destruct (processUbx (parseUbxState st) (parserVars st) c) as [s1 v1]. fields.
  rewrite Hp, Nat.eqb_refl. eexists. split; [reflexivity|]. fields. auto.
Qed.

Lemma handle_byte_running st c s1 v1 :
  processUbx (parseUbxState st) (parserVars st) c = (s1, v1) ->
  (S (UBXpointer st) < UBXbufferSize)%nat ->
  let st3 := mid_frame s1 v1 (<[UBXpointer st := c]> (UBXbuffer st)) (S (UBXpointer st)) st in
  handle_byte processUbx cfg env st c
  = Running (match s1 with
             | SYNC_LOST => set_parseUbxState PARSE_UBX_SYNC_CHAR_1 (set_UBXpointer 0%nat st3)
             | FRAME_VALID => frame_valid cfg env st3
             | _ => st3
             end).
Proof.
  intros Hstep Hlt st3. unfold handle_byte. rewrite Hstep. fields.
  destruct (Nat.eqb_spec (S (UBXpointer st)) UBXbufferSize) as [Heq|_]; [lia|].
  destruct s1; reflexivity.
Qed.

(** *** One frame *)

Lemma feed_app a b st :
  feed processUbx cfg env (a ++ b) st
  = match feed processUbx cfg env a st with
    | Running st1 => feed processUbx cfg env b st1
    | Frozen st1 => Frozen st1
    end.
Proof.
  revert st. induction a as [|c rest IH]; intros st; simpl; [reflexivity|].
  destruct (handle_byte processUbx cfg env st c); [apply IH | reflexivity].
Qed.

(** Feeding a frame the parser recognises ends in [frame_valid], with the
    frame in the buffer behind what was there. *)
Lemma feed_frame bytes : forall st v',
  parse_frame processUbx (parseUbxState st) (parserVars st) bytes = Some v' ->
  (UBXpointer st + length bytes < UBXbufferSize)%nat ->
  feed processUbx cfg env bytes st
  = Running (frame_valid cfg env
               (mid_frame FRAME_VALID v'
                  (write_bytes (UBXpointer st) bytes (UBXbuffer st))
                  (UBXpointer st + length bytes) st)).
Proof.
  induction bytes as [|c rest IH]; intros st v' Hparse Hlen; [discriminate Hparse|].
  cbn [parse_frame feed length] in Hparse, Hlen |- *.
  destruct (processUbx (parseUbxState st) (parserVars st) c) as [s1 v1] eqn:Hstep.
  rewrite (handle_byte_running st c s1 v1 Hstep) by lia.
  set (st3 := mid_frame s1 v1 (<[UBXpointer st:=c]> (UBXbuffer st)) (S (UBXpointer st)) st).
  assert (Hnext : forall s, parseUbxState st3 = s1 -> s = s1 ->
            parse_frame processUbx s v1 rest = Some v' ->
            feed processUbx cfg env rest st3
            = Running (frame_valid cfg env
                         (mid_frame FRAME_VALID v'
                            (write_bytes (UBXpointer st) (c :: rest) (UBXbuffer st))
                            (UBXpointer st + S (length rest)) st))).
  { intros s Hs3 -> Hrest.
    rewrite (IH st3 v') by (first [exact Hrest | subst st3; fields; lia]).
    subst st3. fields. cbn [write_bytes].
    replace (S (UBXpointer st) + length rest)%nat
      with (UBXpointer st + S (length rest))%nat by lia.
    reflexivity. }
  destruct s1;
    first [ discriminate Hparse
          | exact (Hnext _ eq_refl eq_refl Hparse)
          | idtac ].
  destruct rest as [|c' rest']; [|discriminate Hparse].
  injection Hparse as ->. subst st3. cbn [feed write_bytes length].
  rewrite Nat.add_1_r. reflexivity.
Qed.

Lemma ubx_frame_read f v st i :
  (length f <= length (UBXbuffer st))%nat -> (i < length f)%nat ->
  ubx (frame_read f v st) i = frame_byte f i.
Proof.
  intros Hlen Hi. unfold ubx, frame_byte. fields.
  rewrite nth_write_bytes by assumption. reflexivity.
Qed.

Lemma feed_one_frame f st v1 :
  parseUbxState st = PARSE_UBX_SYNC_CHAR_1 ->
  UBXpointer st = 0%nat ->
  parse_frame processUbx PARSE_UBX_SYNC_CHAR_1 (parserVars st) f = Some v1 ->
  (length f < UBXbufferSize)%nat ->
  feed processUbx cfg env f st = Running (frame_valid cfg env (frame_read f v1 st)).
Proof.
  intros Hs Hp Hparse Hlen.
  rewrite (feed_frame f st v1) by (rewrite ?Hs, ?Hp; simpl; assumption).
  rewrite Hp. reflexivity.
Qed.

(** The state after a recognised frame, seen from the frame. *)
Lemma after_one_frame f st v1 :
  length (UBXbuffer st) = UBXbufferSize ->
  (3 <= length f < UBXbufferSize)%nat ->
  let st1 := frame_valid cfg env (frame_read f v1 st) in
  parseUbxState st1 = PARSE_UBX_SYNC_CHAR_1
  /\ UBXpointer st1 = 0%nat
  /\ length (UBXbuffer st1) = UBXbufferSize
  /\ parserVars st1 = v1
  /\ GNSSbuffer st1
     = (if is_ack f then GNSSbuffer st else copy_frame GNSSbufferSize f (GNSSbuffer st))
  /\ file_ops (trace st1) = file_ops (trace st).
Proof.
  intros Hbuf Hlen st1.
  destruct (frame_valid_spec (frame_read f v1 st)) as (Hp & Hs & Hg & Hf & _ & _).
  destruct (forget_frame_fields _ _ (forget_frame_valid (frame_read f v1 st)))
    as (Hb & Hv & _).
  fold st1 in Hp, Hs, Hg, Hf, Hb, Hv.
  split; [exact Hs|]. split; [exact Hp|].
  split; [rewrite Hb; fields; rewrite length_write_bytes; exact Hbuf|].
  split; [exact Hv|].
  split; [|exact Hf].
  rewrite Hg. rewrite ubx_frame_read by lia.
  unfold is_ack, frame_class, frame_byte. fields.
  rewrite write_bytes_whole by lia. reflexivity.
Qed.

Lemma non_ack_bytes_cons f frames :
  non_ack_bytes (f :: frames)
  = if is_ack f then non_ack_bytes frames else f ++ non_ack_bytes frames.
Proof.
  unfold non_ack_bytes. rewrite filter_cons.
  destruct (is_ack f); simpl; reflexivity.
Qed.

(** C1.  A stream made of frames the parser recognises is fed to the byte
    loop of [storeData], starting between two frames.  The loop does not
    freeze, and the staging buffer receives, through [store_char], the
    bytes of the frames whose class byte is not the ACK class, frame by
    frame and byte for byte in the order of the stream, and no byte of an
    ACK/NACK frame: its content grows by those bytes, as far as it has
    room, and by exactly those bytes when they fit. *)
Theorem ack_frames_filtered frames : forall st v',
  parseUbxState st = PARSE_UBX_SYNC_CHAR_1 ->
  UBXpointer st = 0%nat ->
  length (UBXbuffer st) = UBXbufferSize ->
  parse_frames processUbx (parserVars st) frames = Some v' ->
  Forall (fun f => (3 <= length f < UBXbufferSize)%nat) frames ->
  exists st',
    feed processUbx cfg env (concat frames) st = Running st'
    /\ GNSSbuffer st' = copy_frame GNSSbufferSize (non_ack_bytes frames) (GNSSbuffer st)
    /\ rb_elems (GNSSbuffer st')
       = rb_elems (GNSSbuffer st)
         ++ take (free_capacity GNSSbufferSize (GNSSbuffer st)) (non_ack_bytes frames)
    /\ ((length (non_ack_bytes frames) <= free_capacity GNSSbufferSize (GNSSbuffer st))%nat ->
        rb_elems (GNSSbuffer st') = rb_elems (GNSSbuffer st) ++ non_ack_bytes frames)
    /\ parseUbxState st' = PARSE_UBX_SYNC_CHAR_1
    /\ UBXpointer st' = 0%nat
    /\ file_ops (trace st') = file_ops (trace st).
Proof.
  assert (Hmain : forall st v',
    parseUbxState st = PARSE_UBX_SYNC_CHAR_1 ->
    UBXpointer st = 0%nat ->
    length (UBXbuffer st) = UBXbufferSize ->
    parse_frames processUbx (parserVars st) frames = Some v' ->
    Forall (fun f => (3 <= length f < UBXbufferSize)%nat) frames ->
    exists st',
      feed processUbx cfg env (concat frames) st = Running st'
      /\ GNSSbuffer st' = copy_frame GNSSbufferSize (non_ack_bytes frames) (GNSSbuffer st)
      /\ parseUbxState st' = PARSE_UBX_SYNC_CHAR_1
      /\ UBXpointer st' = 0%nat
      /\ file_ops (trace st') = file_ops (trace st)).
  { induction frames as [|f rest IH]; intros st v' Hs Hp Hbuf Hparse Hall.
    - exists st. simpl. auto.
    - simpl in Hparse.
      destruct (parse_frame processUbx PARSE_UBX_SYNC_CHAR_1 (parserVars st) f)
        as [v1|] eqn:Hf; [|discriminate Hparse].
      apply Forall_cons in Hall as [Hlen Hall].
      destruct (after_one_frame f st v1 Hbuf Hlen) as (Hs1 & Hp1 & Hb1 & Hv1 & Hg1 & Hf1).
      destruct (IH (frame_valid cfg env (frame_read f v1 st)) v' Hs1 Hp1 Hb1)
        as (st' & Hfeed & Hg & Hs' & Hp' & Hf'); [rewrite Hv1; exact Hparse | exact Hall |].
      exists st'. simpl concat. rewrite feed_app.
      rewrite (feed_one_frame f st v1 Hs Hp Hf) by lia.
      split; [exact Hfeed|].
      split; [|split; [exact Hs'|split; [exact Hp'| congruence]]].
      rewrite Hg, Hg1, non_ack_bytes_cons.
      destruct (is_ack f); [reflexivity | rewrite copy_frame_app; reflexivity]. }
  intros st v' Hs Hp Hbuf Hparse Hall.
  destruct (Hmain st v' Hs Hp Hbuf Hparse Hall) as (st' & Hfeed & Hg & Hs' & Hp' & Hf').
  exists st'. split; [exact Hfeed|]. split; [exact Hg|].
  assert (Helems : rb_elems (GNSSbuffer st')
                   = rb_elems (GNSSbuffer st)
                     ++ take (free_capacity GNSSbufferSize (GNSSbuffer st))
                             (non_ack_bytes frames))
    by (rewrite Hg; apply copy_frame_elems).
  split; [exact Helems|].
  split; [|auto].
  intros Hroom. rewrite Helems, take_ge by exact Hroom. reflexivity.
Qed.


End PipelineFacts.

(** ** Examples with the reference parser *)

Example parse_ack_frame :
  parse_frame processUbx_ref PARSE_UBX_SYNC_CHAR_1 ubx_vars0 ack_frame <> None.
Proof. vm_compute. discriminate. Qed.

Example parse_rawx_frame_500 :
  length rawx_frame_500 = 500%nat
  /\ parse_frame processUbx_ref PARSE_UBX_SYNC_CHAR_1 ubx_vars0 rawx_frame_500 <> None.
Proof. split; [reflexivity | vm_compute; discriminate]. Qed.

(** A corrupted checksum byte makes the parser lose the frame. *)
Example parse_corrupted :
  parse_frame processUbx_ref PARSE_UBX_SYNC_CHAR_1 ubx_vars0
              (<[9%nat := x00]> ack_frame) = None.
Proof. vm_compute. reflexivity. Qed.

(** Two ACK frames around two other frames: the other two are staged. *)
Lemma ack_frames_filtered_witness :
  let frames := [ack_frame; nav_frame; ack_frame; timeutc_frame] in
  exists st',
    feed processUbx_ref cfg_logging env0 (concat frames) state0 = Running st'
    /\ rb_elems (GNSSbuffer st') = nav_frame ++ timeutc_frame.
Proof.
  intros frames.
  destruct (ack_frames_filtered processUbx_ref cfg_logging env0 frames state0
              (mkUbxVars 20 20 169 125 169))
    as (st' & Hfeed & _ & _ & Hroom & _).
  - reflexivity.
  - reflexivity.
  - vm_compute. reflexivity.
  - vm_compute. reflexivity.
  - repeat (apply List.Forall_cons; [nat_compute|]). apply List.Forall_nil.
  - exists st'. split; [exact Hfeed|].
    rewrite Hroom by nat_compute. reflexivity.
Defined.

(** ** storeData: what the byte loop preserves *)

Section Preservation.

Context {Aux : Type}.
Variable processUbx : ParseState -> Aux -> byte -> ParseState * Aux.
Variable cfg : Config.
Variable env : Env.
Implicit Types st : State Aux.

(** A relation between the state before and the state after that holds
    across one byte holds across everything before [SD_WRITE]. *)
Variable R : State Aux -> State Aux -> Prop.
Hypothesis R_refl : forall st, R st st.
Hypothesis R_trans : forall st1 st2 st3, R st1 st2 -> R st2 st3 -> R st1 st3.
Hypothesis R_byte : forall st c, R st (step_state (handle_byte processUbx cfg env st c)).
Hypothesis R_print : forall b m st, R st (print_if b m st).
Hypothesis R_read_time : forall t st, R st (set_lastReadTime t st).

Lemma feed_preserves bytes : forall st,
  R st (step_state (feed processUbx cfg env bytes st)).
Proof.
  induction bytes as [|c rest IH]; intros st; cbn [feed]; [apply R_refl|].
  pose proof (R_byte st c) as Hc.
  destruct (handle_byte processUbx cfg env st c) as [st1|st1]; cbn [step_state] in *.
  - eapply R_trans; [exact Hc | apply IH].
  - exact Hc.
Qed.

Lemma read_loop_preserves script : forall n st,
  R st (outcome_state (read_loop processUbx cfg env script n st)).
Proof.
  induction script as [|ch rest IH]; intros n st; cbn [read_loop].
  - destruct (n =? 0); apply R_refl.
  - destruct (n =? 0); [apply R_refl|].
    destruct ch as [| |[|b0 data]]; try apply R_refl.
    match goal with
    | |- context [feed processUbx cfg env ?bs st] =>
        pose proof (feed_preserves bs st) as Hf;
        destruct (feed processUbx cfg env bs st) as [st1|st1]
    end; cbn [step_state outcome_state] in *.
    + eapply R_trans; [exact Hf | apply IH].
    + exact Hf.
Qed.

Lemma read_gnss_preserves tr st :
  R st (outcome_state (read_gnss processUbx cfg env tr st)).
Proof.
  unfold read_gnss.
  destruct (negb (qwiicOnline_uBlox cfg) || negb (qwiicAvailable_uBlox cfg));
    [apply R_refl|].
  destruct (wrap32 (micros env - lastReadTime st) >? usBetweenReadings cfg / 3);
    [|apply R_refl].
  destruct (len_reply tr) as [| |msb lsb]; cbn [outcome_state];
    [apply R_refl | apply R_read_time |].
  destruct (b2z lsb =? 255); cbn [outcome_state].
  { eapply R_trans; [apply R_print | apply R_read_time]. }
  destruct (_ =? 0); cbn [outcome_state]; [apply R_read_time|].
  destruct (Z.testbit _ 15).
  - eapply R_trans; [apply R_print | apply read_loop_preserves].
  - apply read_loop_preserves.
Qed.

End Preservation.

(** ** storeData: the block writer's state and the RTC across the byte loop *)

Section ByteLoopFacts.

Context {Aux : Type}.
Variable processUbx : ParseState -> Aux -> byte -> ParseState * Aux.
Variable cfg : Config.
Variable env : Env.
Implicit Types st : State Aux.

(** The four ways one byte can go.  [st3] is the state with the byte
    stored and the parser advanced. *)
Lemma handle_byte_cases st c :
  exists st3,
    UBXpointer st3 = S (UBXpointer st)
    /\ UBXbuffer st3 = <[UBXpointer st := c]> (UBXbuffer st)
    /\ GNSSbuffer st3 = GNSSbuffer st
    /\ trace st3 = trace st
    /\ rtcSyncRequiredFlag st3 = rtcSyncRequiredFlag st
    /\ sd_view st3 = sd_view st
    /\ ((S (UBXpointer st) = UBXbufferSize
         /\ handle_byte processUbx cfg env st c
            = Frozen (emit (SerialPrint MsgUBXbufferOverflow) st3))
        \/ (S (UBXpointer st) <> UBXbufferSize
            /\ (handle_byte processUbx cfg env st c = Running st3
                \/ handle_byte processUbx cfg env st c
                   = Running (set_parseUbxState PARSE_UBX_SYNC_CHAR_1
                                (set_UBXpointer 0%nat st3))
                \/ handle_byte processUbx cfg env st c
                   = Running (frame_valid cfg env st3)))).
Proof.
  unfold handle_byte.
  destruct (processUbx (parseUbxState st) (parserVars st) c) as [s1 v1]. fields.
  eexists (mid_frame s1 v1 (<[UBXpointer st := c]> (UBXbuffer st)) (S (UBXpointer st)) st).
  repeat (split; [reflexivity|]).
  destruct (Nat.eqb_spec (S (UBXpointer st)) UBXbufferSize) as [Heq|Hne].
  - left. split; [exact Heq | reflexivity].
  - right. split; [exact Hne|]. destruct s1; auto.
Qed.

Lemma sd_view_frame_valid st : sd_view (frame_valid cfg env st) = sd_view st.
Proof.
  destruct (frame_valid_spec cfg env st) as (_ & _ & _ & Hf & _).
  destruct (forget_frame_fields _ _ (forget_frame_valid cfg env st))
    as (_ & _ & Hb & Hp & Ht & Hm & _).
  unfold sd_view. rewrite Hf, Hb, Hp, Ht, Hm. reflexivity.
Qed.

Lemma sd_view_handle_byte st c :
  sd_view (step_state (handle_byte processUbx cfg env st c)) = sd_view st.
Proof.
  destruct (handle_byte_cases st c)
    as (st3 & _ & _ & _ & _ & _ & Hsd & [[_ ->] | [_ [-> | [-> | ->]]]]);
    cbn [step_state]; rewrite <- Hsd.
  - unfold sd_view, emit. fields. rewrite file_ops_app, app_nil_r. reflexivity.
  - reflexivity.
  - reflexivity.
  - apply sd_view_frame_valid.
Qed.

Lemma sd_view_print b m st : sd_view (print_if b m st) = sd_view st.
Proof.
  unfold print_if, emit, sd_view. destruct b; fields; [|reflexivity].
  rewrite file_ops_app, app_nil_r. reflexivity.
Qed.

(** Nothing before [SD_WRITE] touches the block writer or the file. *)
Lemma sd_view_read_gnss tr st :
  sd_view (outcome_state (read_gnss processUbx cfg env tr st)) = sd_view st.
Proof.
  apply (read_gnss_preserves processUbx cfg env (fun a b => sd_view b = sd_view a)).
  - reflexivity.
  - intros st1 st2 st3 H12 H23. congruence.
  - apply sd_view_handle_byte.
  - apply sd_view_print.
  - reflexivity.
Qed.

(** *** The RTC is set at most once *)

Lemma sync_step_refl st : sync_step st st.
Proof. left. split; reflexivity. Qed.

Lemma sync_step_trans st1 st2 st3 :
  sync_step st1 st2 -> sync_step st2 st3 -> sync_step st1 st3.
Proof.
  intros [[Hs1 Hf1] | (Hf1 & Hf1' & e1 & Hs1)] [[Hs2 Hf2] | (Hf2 & Hf2' & e2 & Hs2)].
  - left. split; congruence.
  - right. split; [congruence|]. split; [exact Hf2'|]. exists e2. congruence.
  - right. split; [exact Hf1|]. split; [congruence|]. exists e1. congruence.
  - congruence.
Qed.

Lemma sync_step_quiet st st' :
  prints_only (trace st) (trace st') ->
  rtcSyncRequiredFlag st' = rtcSyncRequiredFlag st -> sync_step st st'.
Proof.
  intros Hp Hf. left. split; [apply prints_only_rtc_sets, Hp | exact Hf].
Qed.

Lemma rtc_fires_flag st : rtc_fires st = true -> rtcSyncRequiredFlag st = true.
Proof.
  unfold rtc_fires. intros H.
  apply andb_prop in H as [H _]. apply andb_prop in H as [_ H]. exact H.
Qed.

Lemma sync_step_frame_valid st : sync_step st (frame_valid cfg env st).
Proof.
  destruct (frame_valid_spec cfg env st) as (_ & _ & _ & _ & Hs & Hf).
  destruct (negb (ubx st 2 =? UBX_CLASS_ACK) && rtc_fires st) eqn:Hfire.
  - right. apply andb_prop in Hfire as [_ Hfire].
    split; [apply rtc_fires_flag, Hfire|]. split; [exact Hf|].
    exists (rtc_call st). exact Hs.
  - left. rewrite app_nil_r in Hs. split; assumption.
Qed.

Lemma sync_step_handle_byte st c :
  sync_step st (step_state (handle_byte processUbx cfg env st c)).
Proof.
  destruct (handle_byte_cases st c)
    as (st3 & _ & _ & _ & Ht & Hf & _ & [[_ ->] | [_ [-> | [-> | ->]]]]);
    cbn [step_state].
  - apply sync_step_quiet; unfold emit; fields;
      [rewrite Ht; apply prints_only_one | exact Hf].
  - left. rewrite Ht, Hf. split; reflexivity.
  - left. fields. rewrite Ht, Hf. split; reflexivity.
  - eapply sync_step_trans; [|apply sync_step_frame_valid].
    left. rewrite Ht, Hf. split; reflexivity.
Qed.

Lemma sync_step_print b m st : sync_step st (print_if b m st).
Proof.
  apply sync_step_quiet.
  - unfold print_if, emit. destruct b; fields;
      [apply prints_only_one | apply prints_only_refl].
  - unfold print_if, emit. destruct b; reflexivity.
Qed.

Lemma sync_step_feed bytes st :
  sync_step st (step_state (feed processUbx cfg env bytes st)).
Proof.
  exact (feed_preserves processUbx cfg env sync_step sync_step_refl sync_step_trans
           sync_step_handle_byte bytes st).
Qed.

Lemma sync_step_read_gnss tr st :
  sync_step st (outcome_state (read_gnss processUbx cfg env tr st)).
Proof.
  apply (read_gnss_preserves processUbx cfg env sync_step sync_step_refl sync_step_trans
           sync_step_handle_byte sync_step_print).
  intros t st0. left. split; reflexivity.
Qed.

End ByteLoopFacts.

(** ** storeData: the block writer *)

Section BlockWriterFacts.

Context {Aux : Type}.
Implicit Types st : State Aux.

(** The drain loop either stops short of a full block, with nothing
    written, or writes one block of [SDpacket] bytes and stops with the
    pointer at zero. *)
Lemma drain_spec n : forall st,
  (SDpointer st < SDpacket)%nat ->
  length (SDbuffer st) = SDpacket ->
  let st' := drain n st in
  length (SDbuffer st') = SDpacket
  /\ (SDpointer st' < SDpacket)%nat
  /\ lastDataLogSyncTime st' = lastDataLogSyncTime st
  /\ rtcSyncRequiredFlag st' = rtcSyncRequiredFlag st
  /\ (available (GNSSbuffer st') <= available (GNSSbuffer st))%nat
  /\ ((trace st' = trace st /\ SDpointer st' = (SDpointer st + n)%nat)
      \/ (exists blk, length blk = SDpacket
            /\ trace st' = trace st ++ [StatLed true; FileWrite blk; StatLed false]
            /\ SDpointer st' = 0%nat
            /\ (SDpacket <= SDpointer st + n)%nat)).
Proof.
  induction n as [|n IH]; intros st Hp Hb; cbn [drain].
  - cbv zeta. repeat split; try assumption; try reflexivity.
    left. split; [reflexivity | lia].
  - assert (Havail : (available (snd (read_char (GNSSbuffer st)))
                      <= available (GNSSbuffer st))%nat).
    { unfold read_char, available.
      destruct (rb_elems (GNSSbuffer st)) eqn:Hg; simpl; rewrite ?Hg; simpl; lia. }
    destruct (read_char (GNSSbuffer st)) as [c g]. cbn [snd] in Havail. fields.
    destruct (Nat.eqb_spec (S (SDpointer st)) SDpacket) as [Heq|Hne].
    + cbv zeta. unfold emit. fields.
      split; [rewrite length_insert; exact Hb|].
      split; [unfold SDpacket; lia|].
      split; [reflexivity|]. split; [reflexivity|]. split; [exact Havail|].
      right. eexists. split; [|split; [|split; [reflexivity | lia]]].
      * rewrite length_take, length_insert, Hb. apply Nat.min_id.
      * rewrite <- !app_assoc. reflexivity.
    + set (st3 := set_SDpointer (S (SDpointer st))
                    (set_SDbuffer (<[SDpointer st:=z2b c]> (SDbuffer st))
                       (set_GNSSbuffer g st))).
      destruct (IH st3) as (Hb' & Hp' & Ht' & Hf' & Ha' & Hcases).
      { subst st3. fields. lia. }
      { subst st3. fields. rewrite length_insert. exact Hb. }
      cbv zeta.
      split; [exact Hb'|]. split; [exact Hp'|]. split; [exact Ht'|].
      split; [exact Hf'|].
      split; [subst st3; fields_in Ha'; lia|].
      destruct Hcases as [[Htr Hptr] | (blk & Hlen & Htr & Hptr & Hge)].
      * left. split; [exact Htr|]. rewrite Hptr. subst st3. fields. lia.
      * right. exists blk. split; [exact Hlen|]. split; [exact Htr|].
        split; [exact Hptr|]. subst st3. fields_in Hge. lia.
Qed.

Lemma force_sync_idle env st :
  wrap32 (millis env - lastDataLogSyncTime st) <= 500 -> force_sync env st = st.
Proof.
  intros H. unfold force_sync.
  destruct (Z.gtb_spec (wrap32 (millis env - lastDataLogSyncTime st)) 500); [lia|].
  reflexivity.
Qed.

(** When the period has elapsed: the partial block, if any, then the sync. *)
Lemma force_sync_fires env st :
  500 < wrap32 (millis env - lastDataLogSyncTime st) ->
  trace (force_sync env st)
  = trace st ++ StatLed true
      :: (if (0 <? SDpointer st)%nat then [FileWrite (take (SDpointer st) (SDbuffer st))]
          else [])
      ++ [FileSync; StatLed false]
  /\ SDpointer (force_sync env st) = 0%nat
  /\ SDbuffer (force_sync env st) = SDbuffer st
  /\ lastDataLogSyncTime (force_sync env st) = millis env
  /\ GNSSbuffer (force_sync env st) = GNSSbuffer st
  /\ rtcSyncRequiredFlag (force_sync env st) = rtcSyncRequiredFlag st.
Proof.
  intros H. unfold force_sync.
  destruct (Z.gtb_spec (wrap32 (millis env - lastDataLogSyncTime st)) 500); [|lia].
  unfold emit. fields.
  destruct (Nat.ltb_spec 0 (SDpointer st)) as [Hpos|Hzero]; fields.
  - repeat split. rewrite <- !app_assoc. reflexivity.
  - repeat split; [rewrite <- !app_assoc; reflexivity | lia].
Qed.

Lemma discard_empties fuel : forall g,
  (available g <= fuel)%nat -> available (discard fuel g) = 0%nat.
Proof.
  induction fuel as [|fuel IH]; intros g Hle; cbn [discard]; [lia|].
  destruct (Nat.eqb_spec (available g) 0) as [Hz|Hnz]; [exact Hz|].
  apply IH. unfold read_char, available in *.
  destruct (rb_elems g) eqn:Hg; simpl in *; lia.
Qed.

End BlockWriterFacts.

(** ** storeData: from SD_WRITE to the end *)

Section SdWriteFacts.

Context {Aux : Type}.
Variable processUbx : ParseState -> Aux -> byte -> ParseState * Aux.
Implicit Types st : State Aux.

Lemma file_ops_block (blk : list byte) :
  file_ops [StatLed true; FileWrite blk; StatLed false] = [FileWrite blk].
Proof. reflexivity. Qed.

Lemma file_ops_sync_partial (part : list byte) :
  file_ops (StatLed true :: [FileWrite part] ++ [FileSync; StatLed false])
  = [FileWrite part; FileSync].
Proof. reflexivity. Qed.

Lemma file_ops_sync_only :
  file_ops (StatLed true :: [] ++ [FileSync; StatLed false]) = [FileSync].
Proof. reflexivity. Qed.

Lemma note_high_water_spec cfg st :
  let st1 := note_high_water cfg st in
  prints_only (trace st) (trace st1)
  /\ SDbuffer st1 = SDbuffer st /\ SDpointer st1 = SDpointer st
  /\ lastDataLogSyncTime st1 = lastDataLogSyncTime st
  /\ GNSSbuffer st1 = GNSSbuffer st
  /\ rtcSyncRequiredFlag st1 = rtcSyncRequiredFlag st.
Proof.
  unfold note_high_water, print_if, emit. cbv zeta.
  destruct (_ >? _); [destruct (printMajorDebugMessages cfg)|]; fields;
    (split; [first [apply prints_only_one | apply prints_only_refl] | auto 10]).
Qed.

Lemma sd_write_on cfg env st :
  logging_on cfg = true ->
  sd_write cfg env st
  = force_sync env (drain (available (GNSSbuffer st)) (note_high_water cfg st)).
Proof.
  unfold logging_on, sd_write. intros ->. reflexivity.
Qed.

Lemma sd_write_off cfg env st :
  logging_on cfg = false -> sd_write cfg env st = discard_data cfg st.
Proof.
  unfold logging_on, sd_write. intros ->. reflexivity.
Qed.

(** With logging off the staging buffer is emptied and nothing else of the
    block writer moves. *)
Lemma discard_data_spec cfg st :
  let st' := discard_data cfg st in
  available (GNSSbuffer st') = 0%nat
  /\ prints_only (trace st) (trace st')
  /\ sd_view st' = sd_view st
  /\ parseUbxState st' = parseUbxState st /\ parserVars st' = parserVars st
  /\ UBXbuffer st' = UBXbuffer st /\ UBXpointer st' = UBXpointer st.
Proof.
  unfold discard_data, print_if, emit, sd_view. cbv zeta.
  destruct (printMinorDebugMessages cfg); fields.
  - split; [apply discard_empties; lia|].
    split; [apply prints_only_one|].
    rewrite file_ops_app, app_nil_r. auto 10.
  - split; [apply discard_empties; lia|].
    split; [apply prints_only_refl | auto 10].
Qed.

(** The file operations one call of [sd_write] can add: nothing, a full
    block, a sync, a full block and a sync, or a partial block and a sync. *)
Lemma sd_write_ops cfg env st :
  (SDpointer st < SDpacket)%nat ->
  length (SDbuffer st) = SDpacket ->
  let st' := sd_write cfg env st in
  (SDpointer st' < SDpacket)%nat
  /\ length (SDbuffer st') = SDpacket
  /\ exists ops,
       file_ops (trace st') = file_ops (trace st) ++ ops
       /\ (ops = []
           \/ (sync_due cfg env st = true /\ ops = [FileSync])
           \/ (exists blk, length blk = SDpacket /\ SDpointer st' = 0%nat
                 /\ (ops = [FileWrite blk]
                     \/ (sync_due cfg env st = true /\ ops = [FileWrite blk; FileSync])))
           \/ (exists part, (0 < length part < SDpacket)%nat /\ SDpointer st' = 0%nat
                 /\ sync_due cfg env st = true
                 /\ ops = [FileWrite part; FileSync])).
Proof.
  intros Hp Hb st'. subst st'.
  destruct (logging_on cfg) eqn:Hgate.
  - rewrite sd_write_on by exact Hgate.
    destruct (note_high_water_spec cfg st) as (Hpr & Hb1 & Hp1 & Ht1 & _).
    set (st1 := note_high_water cfg st) in *.
    destruct (drain_spec (available (GNSSbuffer st)) st1)
      as (Hbd & Hpd & Htd & _ & _ & Hcases); [lia | congruence |].
    set (d := drain (available (GNSSbuffer st)) st1) in *.
    assert (Hdrain : exists ops_d,
               file_ops (trace d) = file_ops (trace st) ++ ops_d
               /\ ((ops_d = [] )
                   \/ (exists blk, length blk = SDpacket /\ SDpointer d = 0%nat
                         /\ ops_d = [FileWrite blk]))).
    { destruct Hcases as [[Htr _] | (blk & Hlen & Htr & Hptr & _)].
      - exists []. rewrite Htr, (prints_only_file_ops _ _ Hpr), app_nil_r. auto.
      - exists [FileWrite blk].
        rewrite Htr, file_ops_app, file_ops_block, (prints_only_file_ops _ _ Hpr).
        split; [reflexivity|]. right. exists blk. auto. }
    destruct Hdrain as (ops_d & Hops_d & Hshape).
    destruct (Z.le_gt_cases (wrap32 (millis env - lastDataLogSyncTime d)) 500)
      as [Hidle|Hfire].
    + rewrite force_sync_idle by exact Hidle.
      split; [exact Hpd|]. split; [exact Hbd|].
      exists ops_d. split; [exact Hops_d|].
      destruct Hshape as [-> | (blk & Hlen & Hptr & ->)]; [auto|].
      right. right. left. exists blk. auto.
    + assert (Hdue : sync_due cfg env st = true).
      { unfold sync_due. rewrite Hgate. cbn [andb].
        apply Z.gtb_lt. rewrite <- Ht1, <- Htd. lia. }
      destruct (force_sync_fires env d) as (Htr & Hptr & Hbuf & _); [lia|].
      split; [rewrite Hptr; unfold SDpacket; lia|].
      split; [rewrite Hbuf; exact Hbd|].
      rewrite Htr, file_ops_app, Hops_d.
      destruct (Nat.ltb_spec 0 (SDpointer d)) as [Hpos|Hzero].
      * destruct Hshape as [-> | (blk & _ & Hz & _)]; [|lia].
        exists [FileWrite (take (SDpointer d) (SDbuffer d)); FileSync].
        rewrite app_nil_r, file_ops_sync_partial.
        split; [reflexivity|]. right. right. right.
        eexists. split; [|split; [exact Hptr | split; [exact Hdue | reflexivity]]].
        rewrite length_take, Hbd. lia.
      * exists (ops_d ++ [FileSync]).
        rewrite file_ops_sync_only.
        split; [rewrite <- app_assoc; reflexivity|].
        destruct Hshape as [-> | (blk & Hlen & _ & ->)]; [auto|].
        right. right. left. exists blk. auto.
  - rewrite sd_write_off by exact Hgate.
    destruct (discard_data_spec cfg st) as (_ & Hpr & Hsd & _).
    assert (Hb' : SDbuffer (discard_data cfg st) = SDbuffer st)
      by (apply (f_equal (fun v => fst (fst (fst (fst v))))) in Hsd; exact Hsd).
    assert (Hp' : SDpointer (discard_data cfg st) = SDpointer st)
      by (apply (f_equal (fun v => snd (fst (fst (fst v))))) in Hsd; exact Hsd).
    split; [lia|]. split; [congruence|].
    exists []. rewrite app_nil_r. split; [apply prints_only_file_ops, Hpr | auto].
Qed.

(** *** The gate does not reach the byte loop *)

Lemma frame_valid_gate l m d cfg env st :
  frame_valid (with_gate l m d cfg) env st = frame_valid cfg env st.
Proof.
  assert (Hn : forall k (s : State Aux), note_frame (with_gate l m d cfg) env k s = note_frame cfg env k s)
    by reflexivity.
  assert (Hr : forall s : State Aux, frame_rates (with_gate l m d cfg) env s = frame_rates cfg env s).
  { intros s. unfold frame_rates. rewrite !Hn. reflexivity. }
  assert (Hs : forall s : State Aux, sync_rtc (with_gate l m d cfg) s = sync_rtc cfg s) by reflexivity.
  assert (Ha : forall s : State Aux, report_ack (with_gate l m d cfg) s = report_ack cfg s)
    by reflexivity.
  unfold frame_valid. rewrite Hr, Hs, Ha. reflexivity.
Qed.

Lemma handle_byte_gate l m d cfg env st c :
  handle_byte processUbx (with_gate l m d cfg) env st c = handle_byte processUbx cfg env st c.
Proof.
  unfold handle_byte.
  destruct (processUbx (parseUbxState st) (parserVars st) c) as [s1 v1].
  rewrite frame_valid_gate. reflexivity.
Qed.

Lemma feed_gate l m d cfg env bytes : forall st,
  feed processUbx (with_gate l m d cfg) env bytes st = feed processUbx cfg env bytes st.
Proof.
  induction bytes as [|c rest IH]; intros st; cbn [feed]; [reflexivity|].
  rewrite handle_byte_gate.
  destruct (handle_byte processUbx cfg env st c); [apply IH | reflexivity].
Qed.

Lemma read_loop_gate l m d cfg env script : forall n st,
  read_loop processUbx (with_gate l m d cfg) env script n st
  = read_loop processUbx cfg env script n st.
Proof.
  induction script as [|ch rest IH]; intros n st; cbn [read_loop]; [reflexivity|].
  destruct (n =? 0); [reflexivity|].
  destruct ch as [| |[|b0 data]]; try reflexivity.
  rewrite feed_gate.
  destruct (feed processUbx cfg env _ st); [apply IH | reflexivity].
Qed.

(** The part of [storeData] before [SD_WRITE] does not read the three
    flags of the gate. *)
Lemma read_gnss_gate l m d cfg env tr st :
  read_gnss processUbx (with_gate l m d cfg) env tr st = read_gnss processUbx cfg env tr st.
Proof.
  unfold read_gnss.
  change (qwiicOnline_uBlox (with_gate l m d cfg)) with (qwiicOnline_uBlox cfg).
  change (qwiicAvailable_uBlox (with_gate l m d cfg)) with (qwiicAvailable_uBlox cfg).
  change (usBetweenReadings (with_gate l m d cfg)) with (usBetweenReadings cfg).
  change (printMajorDebugMessages (with_gate l m d cfg)) with (printMajorDebugMessages cfg).
  destruct (negb (qwiicOnline_uBlox cfg) || negb (qwiicAvailable_uBlox cfg));
    [reflexivity|].
  destruct (_ >? _); [|reflexivity].
  destruct (len_reply tr) as [| |msb lsb]; try reflexivity.
  destruct (b2z lsb =? 255); [reflexivity|].
  destruct (_ =? 0); [reflexivity|].
  destruct (Z.testbit _ 15); apply read_loop_gate.
Qed.

(** *** The claims about the block writer *)

(** C5.  Whatever the invocation, and whichever way it ends, [storeData]
    adds to the file one of: nothing; one block of exactly [SDpacket] = 512
    bytes; a sync; a block of 512 bytes and a sync; a partial block of 1 to
    511 bytes and a sync.  So there is at most one full-block write per
    invocation, every block the drain loop writes has 512 bytes with the
    pointer back at zero, and a shorter write comes only from the periodic
    sync: it is made in an invocation in which the sync is due, and the
    sync follows it at once.  Such an invocation need not be the last
    one: blocks of 512 bytes can follow a short write.  The pointer stays
    below 512 and the buffer keeps its size. *)
Theorem one_block_per_invocation cfg env tr st :
  (SDpointer st < SDpacket)%nat ->
  length (SDbuffer st) = SDpacket ->
  let st' := outcome_state (storeData processUbx cfg env tr st) in
  (SDpointer st' < SDpacket)%nat
  /\ length (SDbuffer st') = SDpacket
  /\ exists ops,
       file_ops (trace st') = file_ops (trace st) ++ ops
       /\ (ops = []
           \/ (sync_due cfg env st = true /\ ops = [FileSync])
           \/ (exists blk, length blk = SDpacket /\ SDpointer st' = 0%nat
                 /\ (ops = [FileWrite blk]
                     \/ (sync_due cfg env st = true /\ ops = [FileWrite blk; FileSync])))
           \/ (exists part, (0 < length part < SDpacket)%nat /\ SDpointer st' = 0%nat
                 /\ sync_due cfg env st = true
                 /\ ops = [FileWrite part; FileSync])).
Proof.
  intros Hp Hb st'. subst st'. unfold storeData.
  pose proof (sd_view_read_gnss processUbx cfg env tr st) as Hsd.
  destruct (read_gnss processUbx cfg env tr st) as [rv st1|st1];
    cbn [outcome_state] in *.
  - assert (Hb1 : SDbuffer st1 = SDbuffer st)
      by (apply (f_equal (fun v => fst (fst (fst (fst v))))) in Hsd; exact Hsd).
    assert (Hp1 : SDpointer st1 = SDpointer st)
      by (apply (f_equal (fun v => snd (fst (fst (fst v))))) in Hsd; exact Hsd).
    assert (Ht1 : lastDataLogSyncTime st1 = lastDataLogSyncTime st)
      by (apply (f_equal (fun v => snd (fst (fst v)))) in Hsd; exact Hsd).
    assert (Hf1 : file_ops (trace st1) = file_ops (trace st))
      by (apply (f_equal snd) in Hsd; exact Hsd).
    assert (Hdue : sync_due cfg env st1 = sync_due cfg env st)
      by (unfold sync_due; rewrite Ht1; reflexivity).
    rewrite <- Hf1, <- Hdue. apply sd_write_ops; congruence.
  - assert (Hb1 : SDbuffer st1 = SDbuffer st)
      by (apply (f_equal (fun v => fst (fst (fst (fst v))))) in Hsd; exact Hsd).
    assert (Hp1 : SDpointer st1 = SDpointer st)
      by (apply (f_equal (fun v => snd (fst (fst (fst v))))) in Hsd; exact Hsd).
    assert (Hf1 : file_ops (trace st1) = file_ops (trace st))
      by (apply (f_equal snd) in Hsd; exact Hsd).
    split; [lia|]. split; [congruence|].
    exists []. rewrite app_nil_r. auto.
Qed.

(** C4.  Logging is enabled and the card and the data logging are online,
    and more than 500 ms have passed since the last sync.  When the read
    phase of the invocation completes, [storeData] returns, and after the
    drain loop (state [d]) it writes the [SDpointer d] bytes waiting in
    [SDbuffer], if there are any, then syncs the file, whether or not the
    drain loop has just written a full block; the pointer is back at zero
    and the time of the sync is recorded. *)
Theorem periodic_sync_flushes_partial cfg env tr st rv st1 :
  logging_on cfg = true ->
  (SDpointer st < SDpacket)%nat ->
  length (SDbuffer st) = SDpacket ->
  500 < wrap32 (millis env - lastDataLogSyncTime st) ->
  read_gnss processUbx cfg env tr st = Returned rv st1 ->
  exists d st',
    storeData processUbx cfg env tr st = Returned rv st'
    /\ d = drain (available (GNSSbuffer st1)) (note_high_water cfg st1)
    /\ (SDpointer d < SDpacket)%nat
    /\ (file_ops (trace d) = file_ops (trace st)
        \/ exists blk, length blk = SDpacket /\ SDpointer d = 0%nat
             /\ file_ops (trace d) = file_ops (trace st) ++ [FileWrite blk])
    /\ trace st'
       = trace d ++ StatLed true
           :: (if (0 <? SDpointer d)%nat
               then [FileWrite (take (SDpointer d) (SDbuffer d))] else [])
           ++ [FileSync; StatLed false]
    /\ SDpointer st' = 0%nat
    /\ lastDataLogSyncTime st' = millis env.
Proof.
  intros Hgate Hp Hb Hfire Hread.
  pose proof (sd_view_read_gnss processUbx cfg env tr st) as Hsd.
  rewrite Hread in Hsd. cbn [outcome_state] in Hsd.
  assert (Hb1 : SDbuffer st1 = SDbuffer st)
    by (apply (f_equal (fun v => fst (fst (fst (fst v))))) in Hsd; exact Hsd).
  assert (Hp1 : SDpointer st1 = SDpointer st)
    by (apply (f_equal (fun v => snd (fst (fst (fst v))))) in Hsd; exact Hsd).
  assert (Ht1 : lastDataLogSyncTime st1 = lastDataLogSyncTime st)
    by (apply (f_equal (fun v => snd (fst (fst v)))) in Hsd; exact Hsd).
  assert (Hf1 : file_ops (trace st1) = file_ops (trace st))
    by (apply (f_equal snd) in Hsd; exact Hsd).
  destruct (note_high_water_spec cfg st1) as (Hpr & Hb2 & Hp2 & Ht2 & _).
  destruct (drain_spec (available (GNSSbuffer st1)) (note_high_water cfg st1))
    as (Hbd & Hpd & Htd & _ & _ & Hcases); [lia | congruence |].
  set (d := drain (available (GNSSbuffer st1)) (note_high_water cfg st1)) in *.
  destruct (force_sync_fires env d) as (Htr & Hptr & _ & Hlast & _);
    [rewrite Htd, Ht2, Ht1; exact Hfire|].
  exists d, (force_sync env d).
  split; [unfold storeData; rewrite Hread, sd_write_on by exact Hgate; reflexivity|].
  split; [reflexivity|]. split; [exact Hpd|].
  split; [|auto].
  destruct Hcases as [[Htrd _] | (blk & Hlen & Htrd & Hz & _)].
  - left. rewrite Htrd, (prints_only_file_ops _ _ Hpr). exact Hf1.
  - right. exists blk. split; [exact Hlen|]. split; [exact Hz|].
    rewrite Htrd, file_ops_app, file_ops_block, (prints_only_file_ops _ _ Hpr), Hf1.
    reflexivity.
Qed.

(** With the gate of the block writer false, an invocation that returns
    leaves the staging buffer empty and has written nothing to the file,
    the assembly buffer and its pointer being what they were; one that
    freezes in the read phase has written nothing either.  The read phase
    is the same whatever the three flags are, and what it leaves of the
    parser is not touched by the discarding. *)
Lemma gate_off_discards cfg env tr st :
  logging_on cfg = false ->
  match storeData processUbx cfg env tr st with
  | Returned rv st' =>
      available (GNSSbuffer st') = 0%nat
      /\ file_ops (trace st') = file_ops (trace st)
      /\ SDbuffer st' = SDbuffer st /\ SDpointer st' = SDpointer st
      /\ exists st1, read_gnss processUbx cfg env tr st = Returned rv st1
           /\ parseUbxState st' = parseUbxState st1 /\ parserVars st' = parserVars st1
           /\ UBXbuffer st' = UBXbuffer st1 /\ UBXpointer st' = UBXpointer st1
  | Halted st' =>
      read_gnss processUbx cfg env tr st = Halted st'
      /\ file_ops (trace st') = file_ops (trace st)
  end
  /\ forall l m d,
       read_gnss processUbx (with_gate l m d cfg) env tr st
       = read_gnss processUbx cfg env tr st.
Proof.
  intros Hgate. split; [|intros l m d; apply read_gnss_gate].
  unfold storeData.
  pose proof (sd_view_read_gnss processUbx cfg env tr st) as Hsd.
  destruct (read_gnss processUbx cfg env tr st) as [rv st1|st1];
    cbn [outcome_state] in Hsd.
  - rewrite sd_write_off by exact Hgate.
    destruct (discard_data_spec cfg st1) as (Hempty & Hpr & Hsd' & Hs & Hv & Hb & Hp).
    rewrite Hsd in Hsd'.
    split; [exact Hempty|].
    split; [apply (f_equal snd) in Hsd'; exact Hsd'|].
    split; [apply (f_equal (fun v => fst (fst (fst (fst v))))) in Hsd'; exact Hsd'|].
    split; [apply (f_equal (fun v => snd (fst (fst (fst v))))) in Hsd'; exact Hsd'|].
    exists st1. auto.
  - split; [reflexivity|]. apply (f_equal snd) in Hsd. exact Hsd.
Qed.

End SdWriteFacts.

(** ** storeData: the frame buffer overflow, the time frame *)

Section FrameFacts.

Context {Aux : Type}.
Variable processUbx : ParseState -> Aux -> byte -> ParseState * Aux.
Variable cfg : Config.
Variable env : Env.
Implicit Types st : State Aux.

(** While the parser stays inside a frame the bytes pile up in the frame
    buffer and nothing else happens. *)
Lemma feed_in_progress bytes : forall st,
  in_progress processUbx (parseUbxState st) (parserVars st) bytes = true ->
  (UBXpointer st + length bytes < UBXbufferSize)%nat ->
  exists st',
    feed processUbx cfg env bytes st = Running st'
    /\ UBXpointer st' = (UBXpointer st + length bytes)%nat
    /\ GNSSbuffer st' = GNSSbuffer st
    /\ trace st' = trace st.
Proof.
  induction bytes as [|c rest IH]; intros st Hin Hlen.
  - exists st. cbn [feed length]. rewrite Nat.add_0_r. auto.
  - cbn [in_progress feed length] in Hin, Hlen |- *.
    destruct (processUbx (parseUbxState st) (parserVars st) c) as [s1 v1] eqn:Hstep.
    rewrite (handle_byte_running processUbx cfg env st c s1 v1 Hstep) by lia.
    set (st3 := mid_frame s1 v1 (<[UBXpointer st:=c]> (UBXbuffer st))
                          (S (UBXpointer st)) st).
    assert (Hnext : in_progress processUbx (parseUbxState st3) (parserVars st3) rest = true ->
              exists st', feed processUbx cfg env rest st3 = Running st'
                /\ UBXpointer st' = (UBXpointer st + S (length rest))%nat
                /\ GNSSbuffer st' = GNSSbuffer st /\ trace st' = trace st).
    { intros Hrest. destruct (IH st3 Hrest) as (st' & Hfeed & Hp & Hg & Ht).
      - subst st3. fields. lia.
      - exists st'. split; [exact Hfeed|]. rewrite Hp, Hg, Ht. subst st3. fields.
        repeat split. lia. }
    destruct s1; first [discriminate Hin | exact (Hnext Hin)].
Qed.

(** C9.  A frame in progress has filled the frame buffer up to its last
    cell without the parser having said valid or lost.  The next byte,
    whatever it is and whatever the parser says about it, is stored,
    "UBXbuffer overflow" is printed and the loop never ends: the rest of
    the input is not read and the staging buffer is not touched.  A frame
    that reaches the staging buffer therefore has at most
    [UBXbufferSize - 1] = 4095 bytes, and an invocation that freezes here
    does not return. *)
Theorem ubx_buffer_overflow_freezes st bytes c more :
  in_progress processUbx (parseUbxState st) (parserVars st) bytes = true ->
  (UBXpointer st + length bytes + 1 = UBXbufferSize)%nat ->
  (exists st',
     feed processUbx cfg env (bytes ++ c :: more) st = Frozen st'
     /\ trace st' = trace st ++ [SerialPrint MsgUBXbufferOverflow]
     /\ GNSSbuffer st' = GNSSbuffer st
     /\ UBXpointer st' = UBXbufferSize)
  /\ (forall st0 c0 st1,
        (UBXpointer st0 < UBXbufferSize)%nat ->
        handle_byte processUbx cfg env st0 c0 = Running st1 ->
        (UBXpointer st1 < UBXbufferSize)%nat
        /\ (GNSSbuffer st1 = GNSSbuffer st0
            \/ exists frame, (length frame < UBXbufferSize)%nat
                 /\ GNSSbuffer st1 = copy_frame GNSSbufferSize frame (GNSSbuffer st0)))
  /\ (forall tr st0 st1,
        read_gnss processUbx cfg env tr st0 = Halted st1 ->
        storeData processUbx cfg env tr st0 = Halted st1).
Proof.
  intros Hin Hlen. split; [|split].
  - destruct (feed_in_progress bytes st Hin) as (st1 & Hfeed & Hp & Hg & Ht); [lia|].
    rewrite feed_app, Hfeed. cbn [feed].
    destruct (handle_byte_overflow processUbx cfg env st1 c) as (st' & Hb & Ht' & Hg' & Hp' & _);
      [lia|].
    exists st'. rewrite Hb. split; [reflexivity|]. rewrite Ht', Hg', Ht, Hg. auto.
  - intros st0 c0 st1 Hlt Hrun.
    destruct (handle_byte_cases processUbx cfg env st0 c0)
      as (st3 & Hp3 & _ & Hg3 & _ & _ & _ & [[_ Hf] | [Hne [Hr | [Hr | Hr]]]]);
      rewrite Hrun in *; try discriminate.
    + injection Hr as ->. split; [lia | left; exact Hg3].
    + injection Hr as ->. fields. split; [unfold UBXbufferSize; lia | left; exact Hg3].
    + injection Hr as ->.
      destruct (frame_valid_spec cfg env st3) as (Hp & _ & Hg & _).
      split; [rewrite Hp; unfold UBXbufferSize; lia|].
      rewrite Hg. destruct (ubx st3 2 =? UBX_CLASS_ACK); [left; exact Hg3|].
      right. exists (take (UBXpointer st3) (UBXbuffer st3)).
      split; [rewrite length_take; lia | rewrite Hg3; reflexivity].
  - intros tr st0 st1 Hread. unfold storeData. rewrite Hread. reflexivity.
Qed.

(** *** The time frame *)

Lemma rtc_fires_frame_read f v st :
  (26 <= length f <= length (UBXbuffer st))%nat ->
  rtc_fires (frame_read f v st)
  = is_timeutc f && rtcSyncRequiredFlag st && frame_valid_utc f.
Proof.
  intros Hlen. unfold rtc_fires, is_timeutc, frame_valid_utc, frame_class, frame_id.
  rewrite !ubx_frame_read by lia. reflexivity.
Qed.

Lemma rtc_call_frame_read f v st :
  (26 <= length f <= length (UBXbuffer st))%nat ->
  rtc_call (frame_read f v st)
  = RtcSetTime (frame_byte f 22) (frame_byte f 23) (frame_byte f 24)
               (centis_of (frame_nanos f)) (frame_byte f 21) (frame_byte f 20)
               (frame_year f - 2000).
Proof.
  intros Hlen. unfold rtc_call, nanos_unsigned32, rtcYear_of, frame_nanos, frame_year.
  rewrite !ubx_frame_read by lia. reflexivity.
Qed.

Lemma centis_of_negative u : signed32 u < 0 -> clamp_nanos u = 0 /\ centis_of u = 0.
Proof.
  intros Hneg. unfold centis_of, clamp_nanos.
  destruct (Z.ltb_spec (signed32 u) 0) as [_|Hge]; [|lia].
  split; reflexivity.
Qed.

Lemma is_timeutc_not_ack f : is_timeutc f = true -> is_ack f = false.
Proof.
  unfold is_timeutc, is_ack. intros H. apply andb_prop in H as [H _].
  apply Z.eqb_eq in H. rewrite H. reflexivity.
Qed.

(** C6.  A UBX-NAV-TIMEUTC frame the parser recognises arrives while an
    RTC synchronisation is required; its validUTC bit is set and its
    nanosecond field is negative.  The field is replaced by zero before
    the division by 10000000, so the hundredths are 0, and [rtc.setTime]
    is called once, with the hour, minute and second of the frame,
    hundredths 0, and its day, month and year (less 2000). *)
Theorem negative_nanos_clamped f st v1 :
  parseUbxState st = PARSE_UBX_SYNC_CHAR_1 ->
  UBXpointer st = 0%nat ->
  length (UBXbuffer st) = UBXbufferSize ->
  parse_frame processUbx PARSE_UBX_SYNC_CHAR_1 (parserVars st) f = Some v1 ->
  (26 <= length f < UBXbufferSize)%nat ->
  is_timeutc f = true ->
  frame_valid_utc f = true ->
  signed32 (frame_nanos f) < 0 ->
  rtcSyncRequiredFlag st = true ->
  exists st',
    feed processUbx cfg env f st = Running st'
    /\ clamp_nanos (frame_nanos f) = 0
    /\ rtc_sets (trace st')
       = rtc_sets (trace st)
         ++ [RtcSetTime (frame_byte f 22) (frame_byte f 23) (frame_byte f 24) 0
                        (frame_byte f 21) (frame_byte f 20) (frame_year f - 2000)]
    /\ rtcSyncRequiredFlag st' = false.
Proof.
  intros Hs Hp Hbuf Hparse Hlen Hutc Hvalid Hneg Hflag.
  exists (frame_valid cfg env (frame_read f v1 st)).
  split; [apply feed_one_frame; [exact Hs | exact Hp | exact Hparse | lia]|].
  destruct (centis_of_negative _ Hneg) as [Hclamp Hcentis].
  split; [exact Hclamp|].
  destruct (frame_valid_spec cfg env (frame_read f v1 st)) as (_ & _ & _ & _ & Hsets & Hf).
  assert (Hfires : rtc_fires (frame_read f v1 st) = true)
    by (rewrite rtc_fires_frame_read by lia; rewrite Hutc, Hflag, Hvalid; reflexivity).
  assert (Hnack : (ubx (frame_read f v1 st) 2 =? UBX_CLASS_ACK) = false).
  { rewrite ubx_frame_read by lia. apply (is_timeutc_not_ack f Hutc). }
  rewrite Hnack, Hfires in Hsets, Hf. cbn [negb andb] in Hsets, Hf.
  rewrite rtc_call_frame_read, Hcentis in Hsets by lia.
  split; [exact Hsets | exact Hf].
Qed.

End FrameFacts.

(** ** The RTC synchronisation across an invocation and across loop *)

Section SyncFacts.

Context {Aux : Type}.
Variable processUbx : ParseState -> Aux -> byte -> ParseState * Aux.
Implicit Types st : State Aux.

Lemma rtc_sets_block (blk : list byte) :
  rtc_sets [StatLed true; FileWrite blk; StatLed false] = [].
Proof. reflexivity. Qed.

Lemma sync_step_same st st' :
  rtc_sets (trace st') = rtc_sets (trace st) ->
  rtcSyncRequiredFlag st' = rtcSyncRequiredFlag st -> sync_step st st'.
Proof. intros Hs Hf. left. split; assumption. Qed.

Lemma drain_sync_step n : forall st, sync_step st (drain n st).
Proof.
  induction n as [|n IH]; intros st; cbn [drain]; [apply sync_step_refl|].
  destruct (read_char (GNSSbuffer st)) as [c g]. fields.
  destruct (_ =? SDpacket)%nat.
  - apply sync_step_same; unfold emit; fields; [|reflexivity].
    rewrite <- !app_assoc, rtc_sets_app. cbn [app].
    rewrite rtc_sets_block, app_nil_r. reflexivity.
  - eapply sync_step_trans; [|apply IH]. apply sync_step_same; reflexivity.
Qed.

Lemma force_sync_sync_step env st : sync_step st (force_sync env st).
Proof.
  unfold force_sync. destruct (_ >? 500); [|apply sync_step_refl].
  unfold emit. fields.
  destruct (0 <? SDpointer st)%nat; fields; apply sync_step_same; fields;
    rewrite <- ?app_assoc, ?rtc_sets_app; cbn [app];
    try (rewrite app_nil_r); reflexivity.
Qed.

(** The block writer neither sets the RTC nor touches the flag. *)
Lemma sync_step_sd_write cfg env st : sync_step st (sd_write cfg env st).
Proof.
  unfold sd_write.
  destruct (logData cfg && online_microSd cfg && online_dataLogging cfg).
  - cbv zeta.
    destruct (note_high_water_spec cfg st) as (Hpr & _ & _ & _ & _ & Hf1).
    eapply sync_step_trans; [apply (sync_step_quiet _ _ Hpr Hf1)|].
    eapply sync_step_trans; [apply drain_sync_step | apply force_sync_sync_step].
  - unfold discard_data, print_if, emit. cbv zeta.
    destruct (printMinorDebugMessages cfg); apply sync_step_same; fields;
      rewrite ?rtc_sets_app, ?app_nil_r; reflexivity.
Qed.

Lemma sync_step_storeData cfg env tr st :
  sync_step st (outcome_state (storeData processUbx cfg env tr st)).
Proof.
  unfold storeData.
  pose proof (sync_step_read_gnss processUbx cfg env tr st) as Hread.
  destruct (read_gnss processUbx cfg env tr st) as [rv st1|st1];
    cbn [outcome_state] in *; [|exact Hread].
  eapply sync_step_trans; [exact Hread | apply sync_step_sd_write].
Qed.

(** The functions of the sketch that are defined elsewhere. *)
Variable menuMain : Sketch Aux -> Sketch Aux.
Variable stopLogging : Sketch Aux -> Sketch Aux.
Variable openNewLogFile : Sketch Aux -> Sketch Aux.
Variable goToSleep : Sketch Aux -> Sketch Aux.

Lemma require_sync_flag (sk : Sketch Aux) :
  rtcSyncRequiredFlag (core (require_sync sk)) = true.
Proof. reflexivity. Qed.

(** C7.  [storeData] calls [rtc.setTime] for a frame only when the frame
    is a UBX-NAV-TIMEUTC frame, the "sync required" flag is set and the
    validUTC bit is set, and the call clears the flag; so over a whole
    invocation the RTC is set at most once, and not at all when the flag
    is clear on entry ([sync_step]).  In [loop] the flag is set again when
    the RTC alarm has been seen and after every sleep, and the sleep check
    leaves a set flag set. *)
Theorem rtc_set_once_per_request cfg env :
  (forall st,
     let st' := frame_valid cfg env st in
     let fires := negb (ubx st 2 =? UBX_CLASS_ACK) && rtc_fires st in
     rtc_sets (trace st') = rtc_sets (trace st) ++ (if fires then [rtc_call st] else [])
     /\ rtcSyncRequiredFlag st' = (if fires then false else rtcSyncRequiredFlag st)
     /\ (fires = true ->
         rtcSyncRequiredFlag st = true /\ Z.land (ubx st 25) 0x04 = 0x04))
  /\ (forall tr st, sync_step st (outcome_state (storeData processUbx cfg env tr st)))
  /\ (forall sk : Sketch Aux,
        alarmFlag sk = true ->
        rtcSyncRequiredFlag (core (on_alarm openNewLogFile sk)) = true
        /\ alarmFlag (on_alarm openNewLogFile sk) = false)
  /\ (forall inp (sk : Sketch Aux),
        ((usSleepDuration (sleep_cfg sk) >? 0)
         && (rtcMillis inp
             >? wrap64 (measurementStartTime sk + usLoggingDuration (sleep_cfg sk) / 1000)))
        = true ->
        rtcSyncRequiredFlag (core (on_sleep goToSleep inp sk)) = true)
  /\ (forall inp (sk : Sketch Aux),
        rtcSyncRequiredFlag (core sk) = true ->
        rtcSyncRequiredFlag (core (on_sleep goToSleep inp sk)) = true)
  /\ (forall inp (sk sk' : Sketch Aux),
        loop processUbx menuMain stopLogging openNewLogFile goToSleep inp sk = inl sk' ->
        exists sk3, sk' = on_sleep goToSleep inp (on_alarm openNewLogFile sk3)).
Proof.
  split; [|split; [|split; [|split; [|split]]]].
  - intros st st' fires. subst st' fires.
    destruct (frame_valid_spec cfg env st) as (_ & _ & _ & _ & Hsets & Hf).
    split; [exact Hsets|]. split; [exact Hf|].
    intros Hfires. apply andb_prop in Hfires as [_ Hfires].
    split; [apply rtc_fires_flag, Hfires|].
    unfold rtc_fires in Hfires. apply andb_prop in Hfires as [_ Hbit].
    apply Z.eqb_eq, Hbit.
  - intros tr st. apply sync_step_storeData.
  - intros sk Halarm. unfold on_alarm. rewrite Halarm. split; reflexivity.
  - intros inp sk Hcond. unfold on_sleep. cbv zeta. rewrite Hcond. reflexivity.
  - intros inp sk Hflag. unfold on_sleep. cbv zeta.
    destruct (_ && _); [reflexivity | exact Hflag].
  - intros inp sk sk' Hloop. unfold loop in Hloop. cbv zeta in Hloop.
    destruct (if online_dataLogging _ then _ else _) as [rv c|c];
      [|discriminate Hloop].
    injection Hloop as <-. eexists. reflexivity.
Qed.

End SyncFacts.

(** ** The claims at concrete inputs *)

(** The 600 bytes of [transport_600] with logging on and the sync not yet
    due: the 500-byte frame is in the assembly buffer, nothing is written. *)
Example first_invocation_writes_nothing :
  storeData processUbx_ref cfg_logging env0 transport_600 state0
  = Returned true state_after_600
  /\ file_ops (trace state_after_600) = []
  /\ SDpointer state_after_600 = 500%nat
  /\ take 500 (SDbuffer state_after_600) = rawx_frame_500
  /\ available (GNSSbuffer state_after_600) = 0%nat.
Proof. vm_compute. repeat split. Qed.

(** A session in which a short write is followed by a full block: the
    first invocation finds the sync due and writes the 500 bytes it has,
    the second fills the assembly buffer up to 500 again, the third
    completes a block of 512.  The file holds the three frames' bytes in
    order, in a write of 500 and a write of 512 bytes. *)
Lemma short_write_not_final :
  file_ops (trace state_after_block)
  = [FileWrite rawx_frame_500; FileSync;
     FileWrite (rawx_frame_500 ++ take 12 rawx_frame_500)]
  /\ write_sizes (trace state_after_block) = [500%nat; 512%nat]
  /\ only_last_short (write_sizes (trace state_after_block)) = false.
Proof. vm_compute. repeat split. Qed.

(** The third invocation of that session: one block of 512 bytes, no
    sync, the pointer back at zero. *)
Lemma one_block_per_invocation_witness :
  let st' := outcome_state
               (storeData processUbx_ref cfg_logging env_block transport_600
                          state_before_block) in
  ((SDpointer st' < SDpacket)%nat
   /\ length (SDbuffer st') = SDpacket
   /\ exists ops,
        file_ops (trace st') = file_ops (trace state_before_block) ++ ops
        /\ (ops = []
            \/ (sync_due cfg_logging env_block state_before_block = true
                /\ ops = [FileSync])
            \/ (exists blk, length blk = SDpacket /\ SDpointer st' = 0%nat
                  /\ (ops = [FileWrite blk]
                      \/ (sync_due cfg_logging env_block state_before_block = true
                          /\ ops = [FileWrite blk; FileSync])))
            \/ (exists part, (0 < length part < SDpacket)%nat /\ SDpointer st' = 0%nat
                  /\ sync_due cfg_logging env_block state_before_block = true
                  /\ ops = [FileWrite part; FileSync])))
  /\ write_sizes (trace st') = write_sizes (trace state_before_block) ++ [512%nat]
  /\ sync_due cfg_logging env_block state_before_block = false.
Proof.
  intros st'. split; [|vm_compute; split; reflexivity].
  apply (one_block_per_invocation processUbx_ref cfg_logging env_block transport_600
           state_before_block).
  - nat_compute.
  - vm_compute. reflexivity.
Defined.

(** The invocation after that, more than 500 ms later: one partial write
    of the 500 bytes, then the sync. *)
Lemma periodic_sync_flushes_partial_witness :
  exists st',
    storeData processUbx_ref cfg_logging env_later transport_idle state_after_600
    = Returned true st'
    /\ file_ops (trace st') = [FileWrite rawx_frame_500; FileSync]
    /\ SDpointer st' = 0%nat.
Proof.
  destruct (periodic_sync_flushes_partial processUbx_ref cfg_logging env_later
              transport_idle state_after_600 true
              (set_lastReadTime 1000000 state_after_600))
    as (d & st' & Hstore & Hd & _ & _ & Htrace & Hptr & _).
  - reflexivity.
  - nat_compute.
  - vm_compute. reflexivity.
  - vm_compute. reflexivity.
  - vm_compute. reflexivity.
  - exists st'. split; [exact Hstore|]. split; [|exact Hptr].
    rewrite Htrace, Hd. vm_compute. reflexivity.
Defined.

(** The frame with nano = -2 sets the RTC to 12:59:50.00 on 1 November
    (20)21. *)
Lemma negative_nanos_clamped_witness :
  signed32 (frame_nanos timeutc_frame) = -2
  /\ exists st',
       feed processUbx_ref cfg_logging env0 timeutc_frame state0 = Running st'
       /\ rtc_sets (trace st') = [RtcSetTime 12 59 50 0 1 11 21]
       /\ rtcSyncRequiredFlag st' = false.
Proof.
  split; [reflexivity|].
  destruct (negative_nanos_clamped processUbx_ref cfg_logging env0 timeutc_frame state0
              (mkUbxVars 20 20 169 125 169))
    as (st' & Hfeed & _ & Hsets & Hflag).
  - reflexivity.
  - reflexivity.
  - vm_compute. reflexivity.
  - vm_compute. reflexivity.
  - nat_compute.
  - vm_compute. reflexivity.
  - vm_compute. reflexivity.
  - vm_compute. reflexivity.
  - reflexivity.
  - exists st'. split; [exact Hfeed|]. split; [exact Hsets | exact Hflag].
Defined.

(** With the flag clear, the same frame leaves the RTC alone; the alarm
    branch of [loop] sets the flag again. *)
Lemma rtc_set_once_per_request_witness :
  sync_step (set_rtcSyncRequiredFlag false state0)
    (outcome_state (storeData processUbx_ref cfg_logging env0 transport_600
                      (set_rtcSyncRequiredFlag false state0)))
  /\ rtcSyncRequiredFlag (core sketch_alarm) = false
  /\ rtcSyncRequiredFlag (core (on_alarm (fun sk => sk) sketch_alarm)) = true.
Proof.
  destruct (rtc_set_once_per_request processUbx_ref (fun sk => sk) (fun sk => sk)
              (fun sk => sk) (fun sk => sk) cfg_logging env0)
    as (_ & Hstore & Halarm & _).
  split; [apply Hstore|]. split; [reflexivity|].
  apply Halarm. reflexivity.
Defined.

(** 4095 bytes of a frame that announces 65535 payload bytes, then one
    more byte: the loop freezes and the bytes behind are never read. *)
Lemma ubx_buffer_overflow_freezes_witness :
  exists st',
    feed processUbx_ref cfg_logging env0 (long_frame_start ++ x00 :: [x01; x02]) state0
    = Frozen st'
    /\ trace st' = [SerialPrint MsgUBXbufferOverflow]
    /\ GNSSbuffer st' = rb_empty.
Proof.
  destruct (ubx_buffer_overflow_freezes processUbx_ref cfg_logging env0 state0
              long_frame_start x00 [x01; x02])
    as ((st' & Hfeed & Htrace & Hg & _) & _).
  - vm_compute. reflexivity.
  - vm_compute. reflexivity.
  - exists st'. split; [exact Hfeed|]. split; [exact Htrace | exact Hg].
Defined.


(** With logging off the invocation returns, with the staging buffer empty,
    nothing written, and the assembly buffer untouched. *)
Example not_logging_example :
  exists st',
    storeData processUbx_ref cfg_not_logging env0 transport_600 state0 = Returned true st'
    /\ available (GNSSbuffer st') = 0%nat
    /\ trace st' = []
    /\ SDpointer st' = 0%nat.
Proof. eexists. vm_compute. repeat split. Qed.

(** * Further properties of the code *)

(** ** The byte stream from the staging buffer to the file *)

Lemma file_bytes_app t1 t2 : file_bytes (t1 ++ t2) = file_bytes t1 ++ file_bytes t2.
Proof.
  induction t1 as [|e rest IH]; [reflexivity|].
  destruct e; cbn [app file_bytes]; rewrite IH; [reflexivity.. | | reflexivity | reflexivity].
  rewrite app_assoc. reflexivity.
Qed.

Lemma file_bytes_prints t t' : prints_only t t' -> file_bytes t' = file_bytes t.
Proof.
  intros [msgs ->]. rewrite file_bytes_app.
  replace (file_bytes (map SerialPrint msgs)) with (@nil byte);
    [apply app_nil_r|].
  induction msgs as [|m rest IH]; [reflexivity | exact IH].
Qed.

Section StreamFacts.

Context {Aux : Type}.
Implicit Types st : State Aux.

(** The drain loop moves bytes from the staging buffer to the assembly
    buffer and from there to the file without losing, repeating or
    reordering any. *)
Lemma drain_conserves n : forall st,
  (SDpointer st < SDpacket)%nat ->
  length (SDbuffer st) = SDpacket ->
  (n <= available (GNSSbuffer st))%nat ->
  pipeline_bytes (drain n st) = pipeline_bytes st.
Proof.
  induction n as [|n IH]; intros st Hp Hb Hn; cbn [drain]; [reflexivity|].
  assert (Hn' := Hn). unfold available in Hn'.
  destruct (rb_elems (GNSSbuffer st)) as [|c rest] eqn:Hg; [simpl in Hn'; lia|].
  unfold read_char. rewrite Hg. fields. rewrite z2b_b2z.
  assert (Htake : take (S (SDpointer st)) (<[SDpointer st:=c]> (SDbuffer st))
                  = take (SDpointer st) (SDbuffer st) ++ [c]).
  { rewrite (take_S_r _ _ c) by (apply list_lookup_insert_eq; lia).
    rewrite take_insert_ge by lia. reflexivity. }
  destruct (Nat.eqb_spec (S (SDpointer st)) SDpacket) as [Heq|Hne].
  - unfold pipeline_bytes, emit. fields. rewrite Hg.
    rewrite <- !app_assoc, !file_bytes_app. cbn [file_bytes app take].
    rewrite app_nil_r, <- Heq, Htake, <- !app_assoc. reflexivity.
  - rewrite IH.
    + unfold pipeline_bytes. fields. rewrite Hg, Htake, <- !app_assoc. reflexivity.
    + fields. lia.
    + fields. rewrite length_insert. exact Hb.
    + fields. unfold available. cbn [rb_elems]. simpl in Hn'. lia.
Qed.

Lemma force_sync_conserves env st :
  pipeline_bytes (force_sync env st) = pipeline_bytes st.
Proof.
  unfold force_sync. destruct (_ >? 500); [|reflexivity].
  unfold pipeline_bytes, emit. fields.
  destruct (Nat.ltb_spec 0 (SDpointer st)) as [Hpos|Hzero]; fields.
  - rewrite <- !app_assoc, !file_bytes_app. cbn [file_bytes app take].
    rewrite app_nil_r, <- !app_assoc. reflexivity.
  - rewrite <- !app_assoc, !file_bytes_app. cbn [file_bytes app].
    rewrite app_nil_r. reflexivity.
Qed.

Lemma note_high_water_conserves cfg st :
  pipeline_bytes (note_high_water cfg st) = pipeline_bytes st.
Proof.
  destruct (note_high_water_spec cfg st) as (Hpr & Hb & Hp & _ & Hg & _).
  unfold pipeline_bytes. rewrite (file_bytes_prints _ _ Hpr), Hb, Hp, Hg. reflexivity.
Qed.

End StreamFacts.

Section ReadPhaseFacts.

Context {Aux : Type}.
Variable processUbx : ParseState -> Aux -> byte -> ParseState * Aux.
Variable cfg : Config.
Variable env : Env.
Implicit Types st : State Aux.

Lemma staging_extends_refl st : staging_extends st st.
Proof. exists []. rewrite app_nil_r. reflexivity. Qed.

Lemma staging_extends_trans st1 st2 st3 :
  staging_extends st1 st2 -> staging_extends st2 st3 -> staging_extends st1 st3.
Proof.
  intros [a1 H1] [a2 H2]. exists (a1 ++ a2). rewrite H2, H1, app_assoc. reflexivity.
Qed.

Lemma staging_extends_same st st' :
  GNSSbuffer st' = GNSSbuffer st -> staging_extends st st'.
Proof. intros H. exists []. rewrite H, app_nil_r. reflexivity. Qed.

Lemma staging_extends_handle_byte st c :
  staging_extends st (step_state (handle_byte processUbx cfg env st c)).
Proof.
  destruct (handle_byte_cases processUbx cfg env st c)
    as (st3 & _ & _ & Hg & _ & _ & _ & [[_ ->] | [_ [-> | [-> | ->]]]]);
    cbn [step_state]; try (apply staging_extends_same; exact Hg).
  destruct (frame_valid_spec cfg env st3) as (_ & _ & Hg' & _).
  destruct (ubx st3 2 =? UBX_CLASS_ACK).
  - apply staging_extends_same. congruence.
  - eexists. rewrite Hg', copy_frame_elems, Hg. reflexivity.
Qed.

Lemma staging_extends_print b m st : staging_extends st (print_if b m st).
Proof. apply staging_extends_same. destruct b; reflexivity. Qed.

(** The read phase only ever adds bytes behind those already staged. *)
Lemma staging_extends_read_gnss tr st :
  staging_extends st (outcome_state (read_gnss processUbx cfg env tr st)).
Proof.
  apply (read_gnss_preserves processUbx cfg env staging_extends
           staging_extends_refl staging_extends_trans
           staging_extends_handle_byte staging_extends_print).
  intros t st0. apply staging_extends_same. reflexivity.
Qed.

(** *** The frame buffer stays in bounds *)

Lemma frame_buffer_ok_handle_byte st c :
  frame_buffer_ok st ->
  match handle_byte processUbx cfg env st c with
  | Running st' => frame_buffer_ok st'
  | Frozen st' => UBXpointer st' = UBXbufferSize /\ length (UBXbuffer st') = UBXbufferSize
  end.
Proof.
  intros (Hp & Hb & _ & _). unfold handle_byte.
  destruct (processUbx (parseUbxState st) (parserVars st) c) as [s1 v1]. fields.
  destruct (Nat.eqb_spec (S (UBXpointer st)) UBXbufferSize) as [Heq|Hne].
  - unfold emit. fields. rewrite length_insert. auto.
  - assert (Hlen : length (<[UBXpointer st:=c]> (UBXbuffer st)) = UBXbufferSize)
      by (rewrite length_insert; exact Hb).
    assert (Hzero : (0 < UBXbufferSize)%nat) by (unfold UBXbufferSize; lia).
    destruct s1; unfold frame_buffer_ok; fields;
      try (repeat split; first [lia | exact Hlen | discriminate]).
    match goal with |- context [frame_valid cfg env ?s] => set (st3 := s) end.
    destruct (frame_valid_spec cfg env st3) as (Hp' & Hs' & _).
    destruct (forget_frame_fields _ _ (forget_frame_valid cfg env st3)) as (Hb' & _).
    rewrite Hp', Hs', Hb'. subst st3. fields.
    repeat split; first [lia | exact Hlen | discriminate].
Qed.

Lemma frame_buffer_ok_feed bytes : forall st,
  frame_buffer_ok st ->
  match feed processUbx cfg env bytes st with
  | Running st' => frame_buffer_ok st'
  | Frozen st' => UBXpointer st' = UBXbufferSize /\ length (UBXbuffer st') = UBXbufferSize
  end.
Proof.
  induction bytes as [|c rest IH]; intros st Hok; cbn [feed]; [exact Hok|].
  pose proof (frame_buffer_ok_handle_byte st c Hok) as Hc.
  destruct (handle_byte processUbx cfg env st c) as [st1|st1]; [apply IH, Hc | exact Hc].
Qed.

Lemma frame_buffer_ok_read_loop script : forall n st,
  frame_buffer_ok st ->
  match read_loop processUbx cfg env script n st with
  | Returned _ st' => frame_buffer_ok st'
  | Halted st' => UBXpointer st' = UBXbufferSize /\ length (UBXbuffer st') = UBXbufferSize
  end.
Proof.
  induction script as [|ch rest IH]; intros n st Hok; cbn [read_loop].
  - destruct (n =? 0); exact Hok.
  - destruct (n =? 0); [exact Hok|].
    destruct ch as [| |[|b0 data]]; try exact Hok.
    match goal with
    | |- context [feed processUbx cfg env ?bs st] =>
        pose proof (frame_buffer_ok_feed bs st Hok) as Hf;
        destruct (feed processUbx cfg env bs st) as [st1|st1]
    end; [apply IH, Hf | exact Hf].
Qed.

Lemma frame_buffer_ok_read_gnss tr st :
  frame_buffer_ok st ->
  match read_gnss processUbx cfg env tr st with
  | Returned _ st' => frame_buffer_ok st'
  | Halted st' => UBXpointer st' = UBXbufferSize /\ length (UBXbuffer st') = UBXbufferSize
  end.
Proof.
  intros Hok. unfold read_gnss.
  destruct (negb (qwiicOnline_uBlox cfg) || negb (qwiicAvailable_uBlox cfg));
    [exact Hok|].
  destruct (_ >? _); [|exact Hok].
  destruct (len_reply tr) as [| |msb lsb]; try exact Hok.
  destruct (b2z lsb =? 255).
  { unfold print_if, emit. destruct (printMajorDebugMessages cfg); exact Hok. }
  destruct (_ =? 0); [exact Hok|].
  destruct (Z.testbit _ 15); apply frame_buffer_ok_read_loop; [|exact Hok].
  unfold print_if, emit. destruct (printMajorDebugMessages cfg); exact Hok.
Qed.

(** The block writer does not touch the frame buffer or the parser. *)
Lemma drain_frame n : forall st,
  UBXpointer (drain n st) = UBXpointer st /\ UBXbuffer (drain n st) = UBXbuffer st
  /\ parseUbxState (drain n st) = parseUbxState st
  /\ parserVars (drain n st) = parserVars st
  /\ lastReadTime (drain n st) = lastReadTime st
  /\ maxGNSSbufferAvailable (drain n st) = maxGNSSbufferAvailable st.
Proof.
  induction n as [|n IH]; intros st; cbn [drain]; [auto 10|].
  destruct (read_char (GNSSbuffer st)) as [c g]. fields.
  destruct (_ =? SDpacket)%nat; [unfold emit; fields; auto 10|].
  match goal with |- context [drain n ?s] => destruct (IH s) as (-> & -> & -> & -> & -> & ->) end.
  auto 10.
Qed.

Lemma sd_write_frame st :
  let st' := sd_write cfg env st in
  UBXpointer st' = UBXpointer st /\ UBXbuffer st' = UBXbuffer st
  /\ parseUbxState st' = parseUbxState st /\ parserVars st' = parserVars st
  /\ lastReadTime st' = lastReadTime st.
Proof.
  unfold sd_write. destruct (_ && _); cbv zeta.
  - match goal with |- context [drain ?n ?s] =>
      destruct (drain_frame n s) as (Hp & Hb & Hs & Hv & Ht & _);
      set (d := drain n s) in *
    end.
    assert (Hh : UBXpointer (note_high_water cfg st) = UBXpointer st
                 /\ UBXbuffer (note_high_water cfg st) = UBXbuffer st
                 /\ parseUbxState (note_high_water cfg st) = parseUbxState st
                 /\ parserVars (note_high_water cfg st) = parserVars st
                 /\ lastReadTime (note_high_water cfg st) = lastReadTime st).
    { unfold note_high_water, print_if, emit. cbv zeta.
      destruct (_ >? _); [destruct (printMajorDebugMessages cfg)|]; auto 10. }
    destruct Hh as (Hp0 & Hb0 & Hs0 & Hv0 & Ht0).
    unfold force_sync. destruct (_ >? 500).
    + unfold emit. fields. destruct (0 <? SDpointer d)%nat; fields;
        rewrite Hp, Hb, Hs, Hv, Ht; auto 10.
    + rewrite Hp, Hb, Hs, Hv, Ht; auto 10.
  - unfold discard_data, print_if, emit. cbv zeta.
    destruct (printMinorDebugMessages cfg); fields; auto 10.
Qed.

End ReadPhaseFacts.

Lemma file_bytes_file_ops t : file_bytes (file_ops t) = file_bytes t.
Proof.
  induction t as [|e rest IH]; [reflexivity|].
  unfold file_ops in *. rewrite filter_cons.
  destruct e; cbn [is_file_op file_bytes]; (destruct (decide _) as [Hd|Hd];
    [|try discriminate; try (exfalso; apply Hd; reflexivity)]);
    cbn [file_bytes]; rewrite ?IH; try reflexivity; try discriminate Hd.
Qed.

Lemma file_bytes_of_ops t t' : file_ops t' = file_ops t -> file_bytes t' = file_bytes t.
Proof.
  intros H. rewrite <- (file_bytes_file_ops t'), H. apply file_bytes_file_ops.
Qed.

Section StoreDataExtras.

Context {Aux : Type}.
Variable processUbx : ParseState -> Aux -> byte -> ParseState * Aux.
Variable cfg : Config.
Variable env : Env.
Implicit Types st : State Aux.

(** X1.  With logging on, [storeData] neither loses nor reorders nor
    repeats a byte on the way from the staging buffer to the file: the
    bytes written to the file, followed by those waiting in the assembly
    buffer, followed by those in the staging buffer, are after the call
    what they were before it, followed by the bytes the read phase of this
    call has staged.  This holds whichever way the call ends. *)
Theorem storeData_conserves_stream tr st :
  logging_on cfg = true ->
  (SDpointer st < SDpacket)%nat ->
  length (SDbuffer st) = SDpacket ->
  exists added,
    rb_elems (GNSSbuffer (outcome_state (read_gnss processUbx cfg env tr st)))
    = rb_elems (GNSSbuffer st) ++ added
    /\ pipeline_bytes (outcome_state (storeData processUbx cfg env tr st))
       = pipeline_bytes st ++ added.
Proof.
  intros Hgate Hp Hb.
  destruct (staging_extends_read_gnss processUbx cfg env tr st) as [added Hadded].
  pose proof (sd_view_read_gnss processUbx cfg env tr st) as Hsd.
  exists added. split; [exact Hadded|].
  unfold storeData.
  destruct (read_gnss processUbx cfg env tr st) as [rv st1|st1];
    cbn [outcome_state] in *.
  - assert (Hb1 : SDbuffer st1 = SDbuffer st)
      by (apply (f_equal (fun v => fst (fst (fst (fst v))))) in Hsd; exact Hsd).
    assert (Hp1 : SDpointer st1 = SDpointer st)
      by (apply (f_equal (fun v => snd (fst (fst (fst v))))) in Hsd; exact Hsd).
    assert (Hst1 : pipeline_bytes st1 = pipeline_bytes st ++ added).
    { unfold pipeline_bytes. rewrite Hb1, Hp1, Hadded, <- !app_assoc.
      f_equal. apply file_bytes_of_ops.
      apply (f_equal snd) in Hsd. exact Hsd. }
    rewrite sd_write_on by exact Hgate.
    rewrite force_sync_conserves, drain_conserves, note_high_water_conserves.
    + exact Hst1.
    + destruct (note_high_water_spec cfg st1) as (_ & _ & -> & _). lia.
    + destruct (note_high_water_spec cfg st1) as (_ & -> & _). congruence.
    + destruct (note_high_water_spec cfg st1) as (_ & _ & _ & _ & -> & _). lia.
  - unfold pipeline_bytes.
    assert (Hb1 : SDbuffer st1 = SDbuffer st)
      by (apply (f_equal (fun v => fst (fst (fst (fst v))))) in Hsd; exact Hsd).
    assert (Hp1 : SDpointer st1 = SDpointer st)
      by (apply (f_equal (fun v => snd (fst (fst (fst v))))) in Hsd; exact Hsd).
    rewrite Hb1, Hp1, Hadded, <- !app_assoc. f_equal. apply file_bytes_of_ops.
    apply (f_equal snd) in Hsd. exact Hsd.
Qed.

End StoreDataExtras.

Section StoreDataExtras2.

Context {Aux : Type}.
Variable processUbx : ParseState -> Aux -> byte -> ParseState * Aux.
Variable cfg : Config.
Variable env : Env.
Implicit Types st : State Aux.

(** X2.  The frame buffer is never indexed out of bounds and the parser
    is never left on a verdict.  If [UBXpointer] is below [UBXbufferSize],
    the buffer has its declared size and [parseUbxState] is neither
    [SYNC_LOST] nor [FRAME_VALID] before a call of [storeData], the same
    holds after every call that returns; the only other outcome is the
    freeze, with the pointer at [UBXbufferSize] and no further store. *)
Theorem storeData_keeps_frame_buffer tr st :
  frame_buffer_ok st ->
  match storeData processUbx cfg env tr st with
  | Returned _ st' => frame_buffer_ok st'
  | Halted st' => UBXpointer st' = UBXbufferSize /\ length (UBXbuffer st') = UBXbufferSize
  end.
Proof.
  intros Hok. unfold storeData.
  pose proof (frame_buffer_ok_read_gnss processUbx cfg env tr st Hok) as Hread.
  destruct (read_gnss processUbx cfg env tr st) as [rv st1|st1]; [|exact Hread].
  destruct (sd_write_frame cfg env st1) as (Hp & Hb & Hs & _).
  unfold frame_buffer_ok in *. rewrite Hp, Hb, Hs. exact Hread.
Qed.

(** A run of bytes on which the parser loses sync is stored in the frame
    buffer and then dropped: nothing is staged, printed or set. *)
Lemma feed_lost bytes : forall st v',
  parse_lost processUbx (parseUbxState st) (parserVars st) bytes = Some v' ->
  (UBXpointer st + length bytes < UBXbufferSize)%nat ->
  exists st',
    feed processUbx cfg env bytes st = Running st'
    /\ UBXpointer st' = 0%nat /\ parseUbxState st' = PARSE_UBX_SYNC_CHAR_1
    /\ parserVars st' = v'
    /\ length (UBXbuffer st') = length (UBXbuffer st)
    /\ GNSSbuffer st' = GNSSbuffer st /\ trace st' = trace st
    /\ rtcSyncRequiredFlag st' = rtcSyncRequiredFlag st.
Proof.
  induction bytes as [|c rest IH]; intros st v' Hparse Hlen; [discriminate Hparse|].
  cbn [parse_lost feed length] in Hparse, Hlen |- *.
  destruct (processUbx (parseUbxState st) (parserVars st) c) as [s1 v1] eqn:Hstep.
  rewrite (handle_byte_running processUbx cfg env st c s1 v1 Hstep) by lia.
  set (st3 := mid_frame s1 v1 (<[UBXpointer st:=c]> (UBXbuffer st)) (S (UBXpointer st)) st).
  assert (Hnext : parse_lost processUbx (parseUbxState st3) (parserVars st3) rest = Some v' ->
            exists st', feed processUbx cfg env rest st3 = Running st'
              /\ UBXpointer st' = 0%nat /\ parseUbxState st' = PARSE_UBX_SYNC_CHAR_1
              /\ parserVars st' = v'
              /\ length (UBXbuffer st') = length (UBXbuffer st)
              /\ GNSSbuffer st' = GNSSbuffer st /\ trace st' = trace st
              /\ rtcSyncRequiredFlag st' = rtcSyncRequiredFlag st).
  { intros Hrest.
    destruct (IH st3 v' Hrest) as (st' & Hfeed & Hp & Hs & Hv & Hb & Hg & Ht & Hf).
    - subst st3. fields. lia.
    - exists st'. split; [exact Hfeed|]. rewrite Hb, Hg, Ht, Hf. subst st3. fields.
      rewrite length_insert. auto 10. }
  destruct s1; first [discriminate Hparse | exact (Hnext Hparse) | idtac].
  destruct rest as [|c' rest']; [|discriminate Hparse].
  injection Hparse as ->. eexists. split; [reflexivity|]. subst st3. fields.
  rewrite length_insert. auto 10.
Qed.

(** A stretch of noise, one failed attempt after the other. *)
Lemma feed_losses runs : forall st v',
  parseUbxState st = PARSE_UBX_SYNC_CHAR_1 ->
  UBXpointer st = 0%nat ->
  parse_losses processUbx (parserVars st) runs = Some v' ->
  Forall (fun r => (length r < UBXbufferSize)%nat) runs ->
  exists st',
    feed processUbx cfg env (concat runs) st = Running st'
    /\ UBXpointer st' = 0%nat /\ parseUbxState st' = PARSE_UBX_SYNC_CHAR_1
    /\ parserVars st' = v'
    /\ length (UBXbuffer st') = length (UBXbuffer st)
    /\ GNSSbuffer st' = GNSSbuffer st /\ trace st' = trace st
    /\ rtcSyncRequiredFlag st' = rtcSyncRequiredFlag st.
Proof.
  induction runs as [|r rest IH]; intros st v' Hs Hp Hparse Hall.
  - exists st. simpl in Hparse |- *. injection Hparse as <-. auto 10.
  - cbn [parse_losses] in Hparse.
    destruct (parse_lost processUbx PARSE_UBX_SYNC_CHAR_1 (parserVars st) r)
      as [v1|] eqn:Hr; [|discriminate Hparse].
    apply Forall_cons in Hall as [Hlen Hall].
    destruct (feed_lost r st v1) as (st1 & Hfeed1 & Hp1 & Hs1 & Hv1 & Hb1 & Hg1 & Ht1 & Hf1).
    { rewrite Hs. exact Hr. }
    { rewrite Hp. simpl. exact Hlen. }
    destruct (IH st1 v' Hs1 Hp1) as (st' & Hfeed & Hp' & Hs' & Hv' & Hb' & Hg' & Ht' & Hf');
      [rewrite Hv1; exact Hparse | exact Hall |].
    exists st'. simpl concat. rewrite feed_app, Hfeed1.
    split; [exact Hfeed|]. rewrite Hb', Hg', Ht', Hf'. auto 10.
Qed.

(** X3.  Resynchronisation.  A stretch of noise between two frames, that
    is, any number of runs of bytes on each of which the parser loses
    sync, is dropped without a trace: nothing is staged or put out, and
    the byte loop is back between two frames.  The frame behind the noise
    is handled as if the noise had not been there: it is staged when it is
    not an ACK/NACK, and not otherwise, and the byte loop is between two
    frames again, so that more noise and more frames may follow. *)
Theorem noise_before_frame_is_dropped runs f st v1 v2 :
  parseUbxState st = PARSE_UBX_SYNC_CHAR_1 ->
  UBXpointer st = 0%nat ->
  length (UBXbuffer st) = UBXbufferSize ->
  parse_losses processUbx (parserVars st) runs = Some v1 ->
  Forall (fun r => (length r < UBXbufferSize)%nat) runs ->
  parse_frame processUbx PARSE_UBX_SYNC_CHAR_1 v1 f = Some v2 ->
  (3 <= length f < UBXbufferSize)%nat ->
  exists st1 st2,
    feed processUbx cfg env (concat runs) st = Running st1
    /\ GNSSbuffer st1 = GNSSbuffer st /\ trace st1 = trace st
    /\ UBXpointer st1 = 0%nat /\ parseUbxState st1 = PARSE_UBX_SYNC_CHAR_1
    /\ parserVars st1 = v1 /\ length (UBXbuffer st1) = UBXbufferSize
    /\ feed processUbx cfg env (concat runs ++ f) st = Running st2
    /\ GNSSbuffer st2
       = (if is_ack f then GNSSbuffer st else copy_frame GNSSbufferSize f (GNSSbuffer st))
    /\ UBXpointer st2 = 0%nat /\ parseUbxState st2 = PARSE_UBX_SYNC_CHAR_1
    /\ parserVars st2 = v2 /\ length (UBXbuffer st2) = UBXbufferSize.
Proof.
  intros Hs Hp Hb Hlost Hall Hframe Hf.
  destruct (feed_losses runs st v1 Hs Hp Hlost Hall)
    as (st1 & Hfeed1 & Hp1 & Hs1 & Hv1 & Hb1 & Hg1 & Ht1 & _).
  assert (Hb1' : length (UBXbuffer st1) = UBXbufferSize) by congruence.
  destruct (after_one_frame cfg env f st1 v2 Hb1' Hf) as (Hs2 & Hp2 & Hb2 & Hv2 & Hg2 & _).
  exists st1, (frame_valid cfg env (frame_read f v2 st1)).
  split; [exact Hfeed1|]. split; [exact Hg1|]. split; [exact Ht1|]. split; [exact Hp1|].
  split; [exact Hs1|]. split; [exact Hv1|]. split; [exact Hb1'|].
  split.
  { rewrite feed_app, Hfeed1.
    apply feed_one_frame; [exact Hs1 | exact Hp1 | rewrite Hv1; exact Hframe | lia]. }
  rewrite Hg2, Hg1. auto 10.
Qed.

(** *** The read loop and the 32-byte limit *)

Lemma chunk_bytes_take n bytes :
  (n <= length bytes)%nat ->
  chunk_bytes n (take (Z.to_nat I2C_BUFFER_LENGTH) bytes ) = take n bytes
  \/ (Z.to_nat I2C_BUFFER_LENGTH < n)%nat.
Proof.
  intros Hn. destruct (Nat.le_gt_cases n (Z.to_nat I2C_BUFFER_LENGTH)) as [Hle|Hgt];
    [left | right; exact Hgt].
  unfold chunk_bytes. rewrite take_app_le by (rewrite length_take; lia).
  rewrite take_take. f_equal. lia.
Qed.

Lemma read_loop_first_read all rest st :
  (0 < length all)%nat ->
  Z.of_nat (length all) < 65536 ->
  read_loop processUbx cfg env
            (ChunkData (take (Z.to_nat I2C_BUFFER_LENGTH) all) :: rest)
            (Z.of_nat (length all)) st
  = match feed processUbx cfg env (take (Z.to_nat I2C_BUFFER_LENGTH) all) st with
    | Running st1 =>
        read_loop processUbx cfg env rest
                  (Z.of_nat (length (drop (Z.to_nat I2C_BUFFER_LENGTH) all))) st1
    | Frozen st1 => Halted st1
    end.
Proof.
  intros Hpos Hsmall.
  assert (Htk : exists b bs, take (Z.to_nat I2C_BUFFER_LENGTH) all = b :: bs).
  { destruct all as [|b bs]; [simpl in Hpos; lia|]. eexists _, _. reflexivity. }
  destruct Htk as (b0 & bs0 & Htk). rewrite Htk. cbn [read_loop]. rewrite <- Htk.
  assert (HI : Z.to_nat I2C_BUFFER_LENGTH = 32%nat) by reflexivity.
  destruct (Z.eqb_spec (Z.of_nat (length all)) 0) as [Hz|_]; [lia|].
  set (k := if Z.of_nat (length all) >? I2C_BUFFER_LENGTH
            then I2C_BUFFER_LENGTH else Z.of_nat (length all)).
  assert (Hk : Z.to_nat k = Nat.min (length all) (Z.to_nat I2C_BUFFER_LENGTH)).
  { subst k. unfold I2C_BUFFER_LENGTH.
    destruct (Z.gtb_spec (Z.of_nat (length all)) 32); lia. }
  assert (Hk' : k = Z.of_nat (Z.to_nat k)).
  { subst k. unfold I2C_BUFFER_LENGTH.
    destruct (Z.gtb_spec (Z.of_nat (length all)) 32); lia. }
  destruct (chunk_bytes_take (Z.to_nat k) all) as [Hchunk|Hbad]; [lia | | lia].
  rewrite Hchunk.
  assert (Htake : take (Z.to_nat k) all = take (Z.to_nat I2C_BUFFER_LENGTH) all).
  { rewrite Hk, HI. destruct (Nat.le_gt_cases (length all) 32).
    - rewrite Nat.min_l by lia. rewrite !take_ge by lia. reflexivity.
    - rewrite Nat.min_r by lia. reflexivity. }
  rewrite Htake.
  assert (Hrest : wrap16 (Z.of_nat (length all) - k)
                  = Z.of_nat (length (drop (Z.to_nat I2C_BUFFER_LENGTH) all))).
  { rewrite length_drop, HI. unfold wrap16. rewrite Z.mod_small; lia. }
  rewrite Hrest. reflexivity.
Qed.

(** When the byte loop gets through the bytes, so does the read loop. *)
Lemma read_loop_chunked_running fuel : forall bytes st st',
  (length bytes <= fuel)%nat ->
  Z.of_nat (length bytes) < 65536 ->
  feed processUbx cfg env bytes st = Running st' ->
  read_loop processUbx cfg env (chunked fuel bytes) (Z.of_nat (length bytes)) st
  = Returned true st'.
Proof.
  induction fuel as [|fuel IH]; intros bytes st st' Hfuel Hsmall Hfeed.
  - destruct bytes; [|simpl in Hfuel; lia].
    simpl in Hfeed. injection Hfeed as <-. reflexivity.
  - destruct bytes as [|b bs].
    { simpl in Hfeed. injection Hfeed as <-. reflexivity. }
    set (all := b :: bs) in *.
    change (chunked (S fuel) all)
      with (ChunkData (take (Z.to_nat I2C_BUFFER_LENGTH) all)
              :: chunked fuel (drop (Z.to_nat I2C_BUFFER_LENGTH) all)).
    rewrite read_loop_first_read by first [exact Hsmall | subst all; simpl; lia].
    rewrite <- (take_drop (Z.to_nat I2C_BUFFER_LENGTH) all), feed_app in Hfeed.
    destruct (feed processUbx cfg env (take (Z.to_nat I2C_BUFFER_LENGTH) all) st)
      as [st1|st1]; [|discriminate].
    assert (HI : Z.to_nat I2C_BUFFER_LENGTH = 32%nat) by reflexivity.
    apply IH; [| rewrite length_drop; lia | exact Hfeed].
    rewrite length_drop, HI. subst all. simpl in Hfuel |- *. lia.
Qed.

(** X4.  The 32-byte limit of a bus read does not show in what the parser
    sees.  When the receiver announces [n] bytes and serves them in reads
    of at most [I2C_BUFFER_LENGTH] bytes, the read loop handles exactly
    those [n] bytes, in order, as one run of the byte loop would, and ends
    with [ret_val] true, or freezes where the byte loop freezes. *)
Theorem read_loop_chunking_invariant fuel : forall bytes st,
  (length bytes <= fuel)%nat ->
  Z.of_nat (length bytes) < 65536 ->
  read_loop processUbx cfg env (chunked fuel bytes) (Z.of_nat (length bytes)) st
  = match feed processUbx cfg env bytes st with
    | Running st' => Returned true st'
    | Frozen st' => Halted st'
    end.
Proof.
  induction fuel as [|fuel IH]; intros bytes st Hfuel Hsmall.
  - destruct bytes; [reflexivity | simpl in Hfuel; lia].
  - destruct bytes as [|b bs]; [reflexivity|].
    set (all := b :: bs) in *.
    change (chunked (S fuel) all)
      with (ChunkData (take (Z.to_nat I2C_BUFFER_LENGTH) all)
              :: chunked fuel (drop (Z.to_nat I2C_BUFFER_LENGTH) all)).
    rewrite read_loop_first_read by first [exact Hsmall | subst all; simpl; lia].
    replace (feed processUbx cfg env all st)
      with (feed processUbx cfg env
              (take (Z.to_nat I2C_BUFFER_LENGTH) all
               ++ drop (Z.to_nat I2C_BUFFER_LENGTH) all) st)
      by (rewrite take_drop; reflexivity).
    rewrite feed_app.
    destruct (feed processUbx cfg env (take (Z.to_nat I2C_BUFFER_LENGTH) all) st)
      as [st1|st1]; [|reflexivity].
    assert (HI : Z.to_nat I2C_BUFFER_LENGTH = 32%nat) by reflexivity.
    apply IH.
    + rewrite length_drop, HI. subst all. simpl in Hfuel |- *. lia.
    + rewrite length_drop. lia.
Qed.

End StoreDataExtras2.

(** ** The length query *)

Lemma lor_shiftl_8 x l :
  0 <= x -> 0 <= l < 256 -> Z.lor (Z.shiftl x 8) l = 256 * x + l.
Proof.
  intros Hx Hl.
  rewrite Z.shiftl_mul_pow2 by lia. change (2 ^ 8) with 256.
  rewrite <- Z.add_nocarry_lor; [lia|].
  apply Z.bits_inj'. intros n Hn. rewrite Z.land_spec, Z.bits_0.
  destruct (Z.ltb_spec n 8) as [Hlow|Hhigh].
  - replace (x * 256) with (Z.shiftl x 8)
      by (rewrite Z.shiftl_mul_pow2 by lia; reflexivity).
    rewrite Z.shiftl_spec_low by lia. reflexivity.
  - destruct (Z.eq_dec l 0) as [->|Hnz]; [rewrite Z.bits_0; apply andb_false_r|].
    rewrite (Z.bits_above_log2 l n), andb_false_r; [reflexivity | lia |].
    apply Z.lt_le_trans with 8; [|exact Hhigh].
    apply Z.log2_lt_pow2; [lia | change (2 ^ 8) with 256; lia].
Qed.

(** A length with the top bit set: the bit is there, and masking it gives
    the length without it. *)
Lemma masked_length m l :
  0 <= m < 128 -> 0 <= l < 256 ->
  let plain := wrap16 (Z.lor (Z.shiftl m 8) l) in
  let high := wrap16 (Z.lor (Z.shiftl (m + 128) 8) l) in
  plain = 256 * m + l
  /\ Z.testbit plain 15 = false
  /\ Z.testbit high 15 = true
  /\ Z.land high 0x7FFF = plain
  /\ high <> 0.
Proof.
  intros Hm Hl plain high. subst plain high. unfold wrap16.
  rewrite !lor_shiftl_8 by lia.
  rewrite !Z.mod_small by lia.
  split; [reflexivity|].
  split.
  { apply Z.bits_above_log2; [lia|].
    destruct (Z.eq_dec (256 * m + l) 0) as [->|Hnz]; [reflexivity|].
    apply Z.log2_lt_pow2; [lia | change (2 ^ 15) with 32768; lia]. }
  split.
  { apply Z.testbit_true; [lia|]. change (2 ^ 15) with 32768.
    replace (256 * (m + 128) + l) with ((256 * m + l) + 1 * 32768) by lia.
    rewrite Z.div_add by lia. rewrite Z.div_small by lia. reflexivity. }
  split; [|lia].
  change 0x7FFF with (Z.ones 15). rewrite Z.land_ones by lia.
  change (2 ^ 15) with 32768.
  replace (256 * (m + 128) + l) with ((256 * m + l) + 1 * 32768) by lia.
  rewrite Z.mod_add by lia. apply Z.mod_small. lia.
Qed.

Section LengthQueryFacts.

Context {Aux : Type}.
Variable processUbx : ParseState -> Aux -> byte -> ParseState * Aux.
Variable cfg : Config.
Variable env : Env.
Implicit Types st : State Aux.

(** X5.  The top bit of the announced length is not trusted.  A receiver
    that announces a non-zero length with bit 15 set is read exactly as
    one that announces the same length without the bit (with the major
    debug messages off, so that nothing is printed about it). *)
Theorem length_high_bit_is_masked tr tr' st msb msb' lsb :
  len_reply tr = LenBytes msb lsb ->
  len_reply tr' = LenBytes msb' lsb ->
  chunks tr' = chunks tr ->
  b2z msb' = b2z msb + 128 ->
  256 * b2z msb + b2z lsb <> 0 ->
  printMajorDebugMessages cfg = false ->
  read_gnss processUbx cfg env tr' st = read_gnss processUbx cfg env tr st.
Proof.
  intros Hr Hr' Hch Hmsb Hnz Hquiet.
  pose proof (b2z_range msb) as Hm. pose proof (b2z_range msb') as Hm'.
  pose proof (b2z_range lsb) as Hl.
  destruct (masked_length (b2z msb) (b2z lsb)) as (Hplain & Hlow & Hhigh & Hmask & Hnz');
    [lia | lia |].
  unfold read_gnss. rewrite Hr, Hr', Hch, Hmsb, Hquiet.
  destruct (negb (qwiicOnline_uBlox cfg) || negb (qwiicAvailable_uBlox cfg));
    [reflexivity|].
  destruct (_ >? _); [|reflexivity].
  destruct (b2z lsb =? 255); [reflexivity|].
  rewrite Hhigh, Hlow, Hmask.
  destruct (Z.eqb_spec (wrap16 (Z.lor (Z.shiftl (b2z msb + 128) 8) (b2z lsb))) 0)
    as [Hz|_]; [contradiction|].
  destruct (Z.eqb_spec (wrap16 (Z.lor (Z.shiftl (b2z msb) 8) (b2z lsb))) 0)
    as [Hz|_]; [lia|].
  reflexivity.
Qed.

(** *** The time of the last read *)




(** *** The high-water mark *)

(** X7.  [maxGNSSbufferAvailable] never goes down.  With logging on, a
    call that returns leaves it at the larger of its old value and the
    number of bytes that were in the staging buffer when the block writer
    started; with logging off, and in the read phase, it is not touched. *)
Theorem high_water_mark_is_monotone tr st :
  let st1 := outcome_state (read_gnss processUbx cfg env tr st) in
  let st' := outcome_state (storeData processUbx cfg env tr st) in
  maxGNSSbufferAvailable st <= maxGNSSbufferAvailable st'
  /\ maxGNSSbufferAvailable st1 = maxGNSSbufferAvailable st
  /\ (forall rv s, storeData processUbx cfg env tr st = Returned rv s ->
        maxGNSSbufferAvailable s
        = if logging_on cfg
          then Z.max (maxGNSSbufferAvailable st) (Z.of_nat (available (GNSSbuffer st1)))
          else maxGNSSbufferAvailable st).
Proof.
  intros st1 st'. subst st1 st'.
  pose proof (sd_view_read_gnss processUbx cfg env tr st) as Hsd.
  apply (f_equal (fun v => snd (fst v))) in Hsd. cbn [sd_view fst snd] in Hsd.
  assert (Hwrite : forall s : State Aux,
            maxGNSSbufferAvailable (sd_write cfg env s)
            = if logging_on cfg
              then Z.max (maxGNSSbufferAvailable s) (Z.of_nat (available (GNSSbuffer s)))
              else maxGNSSbufferAvailable s).
  { intros s. unfold sd_write, logging_on. destruct (_ && _); cbv zeta.
    - assert (Hf : forall d : State Aux,
                maxGNSSbufferAvailable (force_sync env d) = maxGNSSbufferAvailable d).
      { intros d. unfold force_sync, emit. destruct (_ >? 500); [|reflexivity].
        fields. destruct (0 <? SDpointer d)%nat; reflexivity. }
      rewrite Hf.
      match goal with |- context [drain ?n ?x] =>
        destruct (drain_frame n x) as (_ & _ & _ & _ & _ & ->) end.
      unfold note_high_water, print_if, emit. cbv zeta.
      destruct (Z.gtb_spec (Z.of_nat (available (GNSSbuffer s))) (maxGNSSbufferAvailable s));
        [destruct (printMajorDebugMessages cfg)|]; fields; lia.
    - unfold discard_data, print_if, emit. cbv zeta.
      destruct (printMinorDebugMessages cfg); reflexivity. }
  unfold storeData.
  destruct (read_gnss processUbx cfg env tr st) as [rv s1|s1]; cbn [outcome_state] in *.
  - split; [|split; [exact Hsd|]].
    + rewrite Hwrite, Hsd. destruct (logging_on cfg); lia.
    + intros rv' s Heq. injection Heq as _ <-. rewrite Hwrite, Hsd. reflexivity.
  - split; [lia|]. split; [exact Hsd|]. intros rv' s Heq. discriminate Heq.
Qed.

End LengthQueryFacts.

(** ** The alarms of the two sketches *)

Module AlarmExtras.
Import MicroMod.


Lemma alarm_match_5 a t :
  alarm_match 5 a t
  = (alarmHundredths a =? hundredths t) && (alarmSeconds a =? seconds t)
    && (alarmMinute a =? minute t).
Proof. reflexivity. Qed.

(** X8.  [configureRtc] of the MicroMod sketch arms an alarm for every
    full hour and leaves nothing latched: whatever was pending before,
    after the call the interrupt is attached and not pending, and when the
    clock moves to [t] it is latched exactly when [t] is mm:ss.hh =
    00:00.00, whatever the hour, day and month.  [configureRtc] of the
    OpenLog Artemis sketch arms the same alarm but keeps an interrupt that
    was already latched. *)
Theorem configureRtc_arms_hourly_alarm r t :
  int_pending (configureRtc r) = false
  /\ int_attached (configureRtc r) = true
  /\ int_pending (rtc_tick t (configureRtc r))
     = (hundredths t =? 0) && (seconds t =? 0) && (minute t =? 0)
  /\ int_pending (configureRtc_ola r) = int_pending r
  /\ int_attached (configureRtc_ola r) = true
  /\ int_pending (rtc_tick t (configureRtc_ola r))
     = int_pending r || ((hundredths t =? 0) && (seconds t =? 0) && (minute t =? 0)).
Proof.
  assert (Hm : int_pending (configureRtc r) = false /\ int_attached (configureRtc r) = true
               /\ alarmMode (configureRtc r) = 5
               /\ alarm_reg (configureRtc r) = mkAlarm 0 0 0 0 0 0)
    by (repeat split).
  assert (Ho : int_pending (configureRtc_ola r) = int_pending r
               /\ int_attached (configureRtc_ola r) = true
               /\ alarmMode (configureRtc_ola r) = 5
               /\ alarm_reg (configureRtc_ola r) = mkAlarm 0 0 0 0 0 0)
    by (repeat split).
  destruct Hm as (Hp & Ha & Hmode & Hreg). destruct Ho as (Hp' & Ha' & Hmode' & Hreg').
  rewrite !AlarmFacts.rtc_tick_pending, Hp, Hp', Hmode, Hmode', Hreg, Hreg', !alarm_match_5.
  cbn [alarmHundredths alarmSeconds alarmMinute orb].
  rewrite !(Z.eqb_sym 0). auto 10.
Qed.



End AlarmExtras.

(** ** The watchdog budget *)

Module WatchdogExtras.
Import MicroMod.

(** X10.  From a counter [c] between 0 and 10, the handler of the MicroMod
    sketch returns for the next [10 - c] watchdog interrupts, petting the
    watchdog and counting each, and spins on the one after: [n]
    interrupts in a row all return exactly when [n <= 10 - c]; otherwise
    the watchdog ends up stopped with the counter at 10, after [10 - c]
    pets, however many interrupts follow. *)
Theorem watchdog_budget (n : nat) : forall w,
  0 <= watchdogCounter w <= 10 ->
  (Z.of_nat n <= 10 - watchdogCounter w ->
   exists w', watchdog_interrupts n w = IsrReturn w'
     /\ watchdogCounter w' = watchdogCounter w + Z.of_nat n
     /\ wdt_pets w' = (wdt_pets w + n)%nat
     /\ wdt_running w' = wdt_running w)
  /\ (10 - watchdogCounter w < Z.of_nat n ->
      exists w', watchdog_interrupts n w = IsrSpin w'
        /\ watchdogCounter w' = 10
        /\ wdt_pets w' = (wdt_pets w + Z.to_nat (10 - watchdogCounter w))%nat
        /\ wdt_running w' = false /\ led_builtin w' = true).
Proof.
  induction n as [|n IH]; intros w Hc.
  - split; [|lia]. intros _. exists w. cbn [watchdog_interrupts]. repeat split; lia.
  - cbn [watchdog_interrupts].
    destruct (Z.lt_ge_cases (watchdogCounter w) 10) as [Hlt|Hge].
    + rewrite WatchdogFacts.am_watchdog_isr_pets by exact Hlt.
      set (w1 := set_watchdogCounter _ _).
      assert (Hc1 : watchdogCounter w1 = watchdogCounter w + 1)
        by (subst w1; simpl; apply WatchdogFacts.wrap_int_small; lia).
      assert (Hp1 : wdt_pets w1 = S (wdt_pets w)) by reflexivity.
      assert (Hr1 : wdt_running w1 = wdt_running w) by reflexivity.
      destruct (IH w1) as [Hret Hspin]; [lia|].
      split.
      * intros Hn. destruct Hret as (w' & Hrun & Hcnt & Hpets & Hrunning); [lia|].
        exists w'. rewrite Hrun, Hcnt, Hpets, Hrunning, Hc1, Hp1, Hr1.
        repeat split; lia.
      * intros Hn. destruct Hspin as (w' & Hrun & Hcnt & Hpets & Hrunning & Hled); [lia|].
        exists w'. rewrite Hrun, Hcnt, Hpets, Hrunning, Hled, Hc1, Hp1.
        repeat split; lia.
    + rewrite WatchdogFacts.am_watchdog_isr_spins by exact Hge.
      split; [lia|]. intros _. eexists. split; [reflexivity|].
      simpl. repeat split; lia.
Qed.

(** From a counter of 7: three more interrupts return, the fourth spins. *)
Lemma watchdog_budget_witness :
  let w := set_watchdogCounter 7 watchdog0 in
  (exists w', watchdog_interrupts 3 w = IsrReturn w' /\ watchdogCounter w' = 10)
  /\ (exists w', watchdog_interrupts 4 w = IsrSpin w' /\ wdt_running w' = false).
Proof.
  intros w.
  destruct (watchdog_budget 3 w) as [Hret _]; [vm_compute; split; discriminate|].
  destruct (watchdog_budget 4 w) as [_ Hspin]; [vm_compute; split; discriminate|].
  destruct Hret as (w3 & Hrun3 & Hcnt3 & _); [vm_compute; discriminate|].
  destruct Hspin as (w4 & Hrun4 & _ & _ & Hstop & _); [vm_compute; reflexivity|].
  split; [exists w3 | exists w4]; auto.
Defined.

End WatchdogExtras.

(** ** blinkLed *)

(** What the loop of [blinkLed] does while its counter cannot wrap: it
    returns once it has seen the [2 * flashes - i] readings it waits for,
    and has then toggled the LED that many times. *)
Lemma blinkLed_loop_spec clock : forall flashes interval i b,
  0 <= i <= flashes * 2 -> flashes * 2 <= 255 ->
  let need := Z.to_nat (flashes * 2 - i) in
  ((need <= elapsed_readings clock interval (previousMillis b))%nat ->
   exists b', blinkLed_loop clock flashes interval i b = Some b'
     /\ length (led_writes b') = (length (led_writes b) + need)%nat
     /\ ledState b' = (if Nat.even need then ledState b else negb (ledState b)))
  /\ ((elapsed_readings clock interval (previousMillis b) < need)%nat ->
      blinkLed_loop clock flashes interval i b = None).
Proof.
  induction clock as [|t rest IH]; intros flashes interval i b Hi Hmax need.
  - cbn [blinkLed_loop elapsed_readings].
    destruct (Z.ltb_spec i (flashes * 2)) as [Hlt|Hge].
    + split; [subst need; lia | reflexivity].
    + assert (Hneed : need = 0%nat) by (subst need; lia).
      split; [|lia]. intros _. exists b. rewrite Hneed. cbn. auto.
  - cbn [blinkLed_loop elapsed_readings].
    destruct (Z.ltb_spec i (flashes * 2)) as [Hlt|Hge].
    + destruct (wrap32 (t - previousMillis b) >=? interval).
      * assert (Hw : wrap8 (i + 1) = i + 1) by (unfold wrap8; apply Z.mod_small; lia).
        rewrite Hw.
        destruct (IH flashes interval (i + 1)
                    (mkBlink t (negb (ledState b)) (led_writes b ++ [negb (ledState b)])))
          as [Hsome Hnone]; [lia | lia |].
        cbn [previousMillis led_writes ledState] in Hsome, Hnone.
        assert (Hneed : need = S (Z.to_nat (flashes * 2 - (i + 1)))) by (subst need; lia).
        split.
        -- intros Hle. destruct Hsome as (b' & Hrun & Hlen & Hled); [lia|].
           exists b'. split; [exact Hrun|]. rewrite Hlen, Hled, length_app, Hneed.
           split; [simpl; lia|].
           rewrite Nat.even_succ, <- Nat.negb_even.
           destruct (Nat.even _), (ledState b); reflexivity.
        -- intros Hlt'. apply Hnone. lia.
      * destruct (IH flashes interval i b) as [Hsome Hnone]; [lia | lia |].
        split; [exact Hsome | exact Hnone].
    + assert (Hneed : need = 0%nat) by (subst need; lia).
      split; [|lia]. intros _. exists b. rewrite Hneed. cbn. auto.
Qed.

(** With 128 flashes or more the bound is above every value of the
    counter: the loop never ends. *)
Lemma blinkLed_loop_forever clock : forall flashes interval i b,
  0 <= i <= 255 -> 256 <= flashes * 2 ->
  blinkLed_loop clock flashes interval i b = None.
Proof.
  induction clock as [|t rest IH]; intros flashes interval i b Hi Hbig;
    cbn [blinkLed_loop];
    (destruct (Z.ltb_spec i (flashes * 2)) as [_|Hge]; [|lia]); [reflexivity|].
  destruct (_ >=? _); apply IH; try assumption.
  unfold wrap8. pose proof (Z.mod_pos_bound (i + 1) 256). lia.
Qed.

(** X11.  [blinkLed], for fewer than 128 flashes, returns as soon as the
    clock has shown [2 * flashes] readings that each find the interval
    elapsed since the previous one, and not before; it has then toggled
    the LED [2 * flashes] times, so it leaves the LED in the state it found
    it in.  For 128 flashes or more it never returns, whatever the clock
    does, because its counter is a byte. *)
Theorem blinkLed_toggles_twice_per_flash clock flashes interval b :
  0 <= flashes <= 255 ->
  (flashes < 128 ->
   ((Z.to_nat (2 * flashes) <= elapsed_readings clock (wrap32 interval) (previousMillis b))%nat ->
    exists b', blinkLed clock flashes interval b = Some b'
      /\ length (led_writes b') = (length (led_writes b) + Z.to_nat (2 * flashes))%nat
      /\ ledState b' = ledState b)
   /\ ((elapsed_readings clock (wrap32 interval) (previousMillis b) < Z.to_nat (2 * flashes))%nat ->
       blinkLed clock flashes interval b = None))
  /\ (128 <= flashes -> blinkLed clock flashes interval b = None).
Proof.
  intros Hf. unfold blinkLed.
  assert (Hw : wrap8 flashes = flashes) by (unfold wrap8; apply Z.mod_small; lia).
  rewrite Hw. split.
  - intros Hsmall.
    destruct (blinkLed_loop_spec clock flashes (wrap32 interval) 0 b) as [Hsome Hnone];
      [lia | lia |].
    replace (flashes * 2 - 0) with (2 * flashes) in Hsome, Hnone by lia.
    split; [|exact Hnone].
    intros Hle. destruct (Hsome Hle) as (b' & Hrun & Hlen & Hled).
    exists b'. split; [exact Hrun|]. split; [exact Hlen|].
    rewrite Hled.
    replace (Z.to_nat (2 * flashes)) with (2 * Z.to_nat flashes)%nat by lia.
    rewrite Nat.even_mul. reflexivity.
  - intros Hbig. apply blinkLed_loop_forever; lia.
Qed.

(** One flash with a clock that is polled every 10 ms and an interval of
    25 ms; 200 flashes. *)
Lemma blinkLed_toggles_twice_per_flash_witness :
  let b := mkBlink 0 false [] in
  let clock := [10; 20; 30; 40; 50; 60; 70] in
  (exists b', blinkLed clock 1 25 b = Some b'
     /\ length (led_writes b') = 2%nat /\ ledState b' = false)
  /\ blinkLed [10; 20; 30; 40] 1 25 b = None
  /\ blinkLed clock 200 25 b = None.
Proof.
  intros b clock.
  destruct (blinkLed_toggles_twice_per_flash clock 1 25 b) as [Hsmall _]; [lia|].
  destruct (Hsmall ltac:(lia)) as [Hsome _].
  destruct (blinkLed_toggles_twice_per_flash [10; 20; 30; 40] 1 25 b) as [Hsmall' _]; [lia|].
  destruct (Hsmall' ltac:(lia)) as [_ Hnone].
  destruct (blinkLed_toggles_twice_per_flash clock 200 25 b) as [_ Hbig]; [lia|].
  split; [|split; [apply Hnone; vm_compute; lia | apply Hbig; lia]].
  destruct Hsome as (b' & Hrun & Hlen & Hled); [vm_compute; lia|].
  exists b'. auto.
Defined.

(** ** syncRtc *)

Lemma set_times_app l1 l2 : set_times (l1 ++ l2) = set_times l1 ++ set_times l2.
Proof. apply filter_app. Qed.

(** Across the loop the RTC is set at most once; the flag is raised by the
    set and by nothing else, and the loop ends with the pass that sets. *)
Lemma syncRtc_loop_spec polls : forall start dv tv s s',
  syncRtc_loop polls start dv tv s = Some s' ->
  (set_times (sync_events s') = set_times (sync_events s)
   /\ sync_flag s' = sync_flag s)
  \/ (exists p, In p polls /\ dateValid p = true /\ timeValid p = true
        /\ set_times (sync_events s') = set_times (sync_events s) ++ [set_time_of p]
        /\ sync_flag s' = true).
Proof.
  induction polls as [|p rest IH]; intros start dv tv s s' Hrun; cbn [syncRtc_loop] in Hrun.
  - destruct (negb dv || negb tv); [discriminate Hrun|].
    injection Hrun as <-. left. auto.
  - destruct (negb dv || negb tv); [|injection Hrun as <-; left; auto].
    destruct (_ <? _); [|injection Hrun as <-; left; auto].
    destruct (blinkLed (blink_clock p) 1 1000 (sync_blink s)) as [b|]; [|discriminate Hrun].
    destruct (dateValid p) eqn:Hd, (timeValid p) eqn:Ht; cbn [andb] in Hrun.
    + (* the pass sets the RTC, and the loop ends on the next test *)
      assert (Hs' : s' = mkSyncState b true (sync_events s ++ [set_time_of p; SyncSuccess])).
      { destruct (serial_input p); [injection Hrun as <-; reflexivity|].
        destruct rest; cbn [syncRtc_loop negb orb] in Hrun; injection Hrun as <-;
          reflexivity. }
      right. exists p. rewrite Hs'. cbn [sync_events sync_flag].
      split; [left; reflexivity|]. split; [exact Hd|]. split; [exact Ht|].
      rewrite set_times_app. split; reflexivity.
    + destruct (serial_input p); [injection Hrun as <-; left; auto|].
      destruct (IH _ _ _ _ _ Hrun) as [Hsame | (q & Hin & Hrest)]; [left; exact Hsame|].
      right. exists q. split; [right; exact Hin | exact Hrest].
    + destruct (serial_input p); [injection Hrun as <-; left; auto|].
      destruct (IH _ _ _ _ _ Hrun) as [Hsame | (q & Hin & Hrest)]; [left; exact Hsame|].
      right. exists q. split; [right; exact Hin | exact Hrest].
    + destruct (serial_input p); [injection Hrun as <-; left; auto|].
      destruct (IH _ _ _ _ _ Hrun) as [Hsame | (q & Hin & Hrest)]; [left; exact Hsame|].
      right. exists q. split; [right; exact Hin | exact Hrest].
Qed.

(** X12.  [syncRtc] sets the RTC at most once, from a pass in which the
    receiver reported both date and time valid, with hundredths =
    milliseconds / 10 and year - 2000; with the receiver online,
    [rtcSyncFlag] is true on return exactly when the RTC was set.  With
    the receiver offline nothing is set and [rtcSyncFlag] keeps the value
    it had.  When the first pass already has a valid date and time (and its
    [blinkLed] returns) the call does return, with the RTC set from it. *)
Theorem syncRtc_sets_rtc_at_most_once uBlox start polls s :
  (forall s', syncRtc uBlox start polls s = Some s' ->
     (uBlox = false /\ set_times (sync_events s') = set_times (sync_events s)
      /\ sync_flag s' = sync_flag s)
     \/ (uBlox = true /\ sync_flag s' = false
         /\ set_times (sync_events s') = set_times (sync_events s))
     \/ (uBlox = true /\ sync_flag s' = true
         /\ exists p, In p polls /\ dateValid p = true /\ timeValid p = true
              /\ set_times (sync_events s') = set_times (sync_events s) ++ [set_time_of p]))
  /\ (forall p rest b,
        uBlox = true -> polls = p :: rest ->
        wrap32 (poll_millis p - start) < 300000 ->
        dateValid p = true -> timeValid p = true ->
        blinkLed (blink_clock p) 1 1000 (sync_blink s) = Some b ->
        syncRtc uBlox start polls s
        = Some (mkSyncState b true
                  (sync_events s ++ [SyncAttempt; set_time_of p; SyncSuccess]))).
Proof.
  split.
  - intros s' Hrun. unfold syncRtc in Hrun. destruct uBlox.
    + destruct (syncRtc_loop polls start false false _) as [s1|] eqn:Hloop;
        [|discriminate Hrun].
      apply syncRtc_loop_spec in Hloop. cbn [sync_events sync_flag] in Hloop.
      rewrite set_times_app in Hloop. cbn in Hloop. rewrite app_nil_r in Hloop.
      destruct Hloop as [[Hsets Hflag] | (p & Hin & Hd & Ht & Hsets & Hflag)].
      * right. left. rewrite Hflag in Hrun. injection Hrun as <-.
        cbn [sync_flag sync_events]. rewrite set_times_app, Hsets.
        cbn. rewrite app_nil_r. auto.
      * right. right. rewrite Hflag in Hrun. injection Hrun as <-.
        split; [reflexivity|]. split; [exact Hflag|]. exists p. auto.
    + injection Hrun as <-. left. cbn [sync_flag sync_events].
      rewrite set_times_app. cbn. rewrite app_nil_r. auto.
  - intros p rest b -> -> Htime Hd Ht Hblink. unfold syncRtc.
    cbn [syncRtc_loop negb orb sync_blink sync_flag sync_events].
    destruct (Z.ltb_spec (wrap32 (poll_millis p - start)) (5 * 60 * 1000)) as [_|Hge];
      [|lia].
    rewrite Hblink, Hd, Ht. cbn [andb].
    assert (Hend : forall s2 : SyncState,
              (if serial_input p then Some s2
               else syncRtc_loop rest start true true s2) = Some s2).
    { intros s2. destruct (serial_input p); [reflexivity|].
      destruct rest; reflexivity. }
    rewrite Hend. cbn [sync_flag]. rewrite <- app_assoc. reflexivity.
Qed.

(** The receiver reports a valid date and time, 12:59:50.370 on
    1 November 2021, in the first pass. *)
Lemma syncRtc_sets_rtc_at_most_once_witness :
  let p := mkGnssPoll 3010 true true [4000; 5000] 12 59 50 370 1 11 2021 false in
  let s := mkSyncState (mkBlink 0 false []) false [] in
  exists s',
    syncRtc true 5 [p] s = Some s'
    /\ sync_flag s' = true
    /\ set_times (sync_events s') = [SyncSetTime 12 59 50 37 1 11 21].
Proof.
  intros p s.
  destruct (syncRtc_sets_rtc_at_most_once true 5 [p] s) as [_ Hfirst].
  eexists. split.
  - apply (Hfirst p [] (mkBlink 5000 false [true; false])); reflexivity.
  - split; reflexivity.
Defined.

(** ** storeData from the receiver to the file *)

Section EndToEnd.

Context {Aux : Type}.
Variable processUbx : ParseState -> Aux -> byte -> ParseState * Aux.
Variable cfg : Config.
Variable env : Env.
Implicit Types st : State Aux.

Lemma sd_view_feed bytes st :
  sd_view (step_state (feed processUbx cfg env bytes st)) = sd_view st.
Proof.
  apply (feed_preserves processUbx cfg env (fun a b => sd_view b = sd_view a)).
  - reflexivity.
  - intros st1 st2 st3 H12 H23. congruence.
  - apply sd_view_handle_byte.
Qed.

(** What a stream of recognised frames leaves in the staging buffer. *)
Lemma feed_frames_staging frames : forall st v',
  parseUbxState st = PARSE_UBX_SYNC_CHAR_1 ->
  UBXpointer st = 0%nat ->
  length (UBXbuffer st) = UBXbufferSize ->
  parse_frames processUbx (parserVars st) frames = Some v' ->
  Forall (fun f => (3 <= length f < UBXbufferSize)%nat) frames ->
  exists st',
    feed processUbx cfg env (concat frames) st = Running st'
    /\ GNSSbuffer st' = copy_frame GNSSbufferSize (non_ack_bytes frames) (GNSSbuffer st)
    /\ UBXpointer st' = 0%nat.
Proof.
  induction frames as [|f rest IH]; intros st v' Hs Hp Hbuf Hparse Hall.
  - exists st. simpl. auto.
  - simpl in Hparse.
    destruct (parse_frame processUbx PARSE_UBX_SYNC_CHAR_1 (parserVars st) f)
      as [v1|] eqn:Hf; [|discriminate Hparse].
    apply Forall_cons in Hall as [Hlen Hall].
    destruct (after_one_frame cfg env f st v1 Hbuf Hlen) as (Hs1 & Hp1 & Hb1 & Hv1 & Hg1 & _).
    destruct (IH (frame_valid cfg env (frame_read f v1 st)) v' Hs1 Hp1 Hb1)
      as (st' & Hfeed & Hg & Hp'); [rewrite Hv1; exact Hparse | exact Hall |].
    exists st'. simpl concat. rewrite feed_app.
    rewrite (feed_one_frame processUbx cfg env f st v1 Hs Hp Hf) by lia.
    split; [exact Hfeed|]. split; [|exact Hp'].
    rewrite Hg, Hg1, non_ack_bytes_cons.
    destruct (is_ack f); [reflexivity | rewrite copy_frame_app; reflexivity].
Qed.

Lemma sd_write_conserves st :
  logging_on cfg = true ->
  (SDpointer st < SDpacket)%nat ->
  length (SDbuffer st) = SDpacket ->
  pipeline_bytes (sd_write cfg env st) = pipeline_bytes st.
Proof.
  intros Hgate Hp Hb.
  destruct (note_high_water_spec cfg st) as (_ & Hb1 & Hp1 & _ & Hg1 & _).
  rewrite sd_write_on by exact Hgate.
  rewrite force_sync_conserves, drain_conserves, note_high_water_conserves;
    [reflexivity | lia | congruence | rewrite Hg1; lia].
Qed.

(** X13.  One poll, from the receiver to the file.  The receiver is
    online and due for a poll; it announces [n] bytes (0 < n < 32768, low
    byte not 0xFF) and serves, in reads of at most 32 bytes, a stream of
    frames the parser recognises; logging is on and the staging buffer has
    room.  Then [storeData] returns true, and the bytes in the file, the
    assembly buffer and the staging buffer, taken in this order, are those
    that were there followed by the frames that are not ACK/NACK, byte for
    byte; no byte of an ACK/NACK frame is among them. *)
Theorem storeData_files_non_ack_frames tr st frames v' msb lsb fuel :
  qwiicOnline_uBlox cfg = true -> qwiicAvailable_uBlox cfg = true ->
  usBetweenReadings cfg / 3 < wrap32 (micros env - lastReadTime st) ->
  len_reply tr = LenBytes msb lsb ->
  b2z msb < 128 -> b2z lsb <> 255 ->
  256 * b2z msb + b2z lsb = Z.of_nat (length (concat frames)) ->
  (0 < length (concat frames) <= fuel)%nat ->
  chunks tr = chunked fuel (concat frames) ->
  parseUbxState st = PARSE_UBX_SYNC_CHAR_1 ->
  UBXpointer st = 0%nat ->
  length (UBXbuffer st) = UBXbufferSize ->
  parse_frames processUbx (parserVars st) frames = Some v' ->
  Forall (fun f => (3 <= length f < UBXbufferSize)%nat) frames ->
  logging_on cfg = true ->
  (SDpointer st < SDpacket)%nat ->
  length (SDbuffer st) = SDpacket ->
  (length (non_ack_bytes frames) <= free_capacity GNSSbufferSize (GNSSbuffer st))%nat ->
  exists st',
    storeData processUbx cfg env tr st = Returned true st'
    /\ pipeline_bytes st' = pipeline_bytes st ++ non_ack_bytes frames
    /\ UBXpointer st' = 0%nat.
Proof.
  intros Hon Hav Hdue Hreply Hmsb Hlsb Hn Hfuel Hchunks Hs Hp Hbuf Hparse Hall
         Hgate Hsdp Hsdb Hroom.
  pose proof (b2z_range msb) as Hm. pose proof (b2z_range lsb) as Hl.
  destruct (masked_length (b2z msb) (b2z lsb)) as (Hplain & Hlow & _); [lia | lia |].
  destruct (feed_frames_staging frames st v' Hs Hp Hbuf Hparse Hall)
    as (st1 & Hfeed & Hg & Hp1).
  pose proof (sd_view_feed (concat frames) st) as Hsd.
  rewrite Hfeed in Hsd. cbn [step_state] in Hsd.
  assert (Hb1 : SDbuffer st1 = SDbuffer st)
    by (apply (f_equal (fun v => fst (fst (fst (fst v))))) in Hsd; exact Hsd).
  assert (Hq1 : SDpointer st1 = SDpointer st)
    by (apply (f_equal (fun v => snd (fst (fst (fst v))))) in Hsd; exact Hsd).
  assert (Hf1 : file_bytes (trace st1) = file_bytes (trace st))
    by (apply file_bytes_of_ops; apply (f_equal snd) in Hsd; exact Hsd).
  assert (Hread : read_gnss processUbx cfg env tr st = Returned true st1).
  { unfold read_gnss. rewrite Hon, Hav, Hreply. cbn [negb orb].
    destruct (Z.gtb_spec (wrap32 (micros env - lastReadTime st)) (usBetweenReadings cfg / 3))
      as [_|Hle]; [|lia].
    destruct (Z.eqb_spec (b2z lsb) 255) as [Hff|_]; [contradiction|].
    rewrite Hlow.
    destruct (Z.eqb_spec (wrap16 (Z.lor (Z.shiftl (b2z msb) 8) (b2z lsb))) 0)
      as [Hz|_]; [lia|].
    rewrite Hplain, Hn, Hchunks.
    apply read_loop_chunked_running; [lia | lia | exact Hfeed]. }
  exists (sd_write cfg env st1).
  split; [unfold storeData; rewrite Hread; reflexivity|].
  split.
  - rewrite sd_write_conserves by (first [exact Hgate | lia | congruence]).
    unfold pipeline_bytes. rewrite Hf1, Hb1, Hq1, Hg, copy_frame_elems.
    rewrite (take_ge (non_ack_bytes frames)) by exact Hroom.
    rewrite <- !app_assoc. reflexivity.
  - destruct (sd_write_frame cfg env st1) as (-> & _). exact Hp1.
Qed.

End EndToEnd.

(** The 60 bytes of [transport_60]: the PVT and the TIMEUTC frame are on
    their way to the file, the two ACK frames are not. *)
Lemma storeData_files_non_ack_frames_witness :
  exists st',
    storeData processUbx_ref cfg_logging env0 transport_60 state0 = Returned true st'
    /\ pipeline_bytes st' = nav_frame ++ timeutc_frame.
Proof.
  destruct (storeData_files_non_ack_frames processUbx_ref cfg_logging env0 transport_60
              state0 frames_60 (mkUbxVars 20 20 169 125 169) x00 x3c 60)
    as (st' & Hstore & Hbytes & _);
    try (vm_compute; reflexivity); try nat_compute.
  - vm_compute. discriminate.
  - repeat (apply List.Forall_cons; [nat_compute|]). apply List.Forall_nil.
  - exists st'. split; [exact Hstore|]. rewrite Hbytes. reflexivity.
Defined.

(** ** The further properties at concrete inputs *)

(** The 600-byte delivery: the 500 bytes of the RAWX frame are all there
    is in the pipeline afterwards, the 100 bytes of the ACK frame are not. *)
Lemma storeData_conserves_stream_witness :
  pipeline_bytes (outcome_state (storeData processUbx_ref cfg_logging env0 transport_600 state0))
  = rawx_frame_500.
Proof.
  destruct (storeData_conserves_stream processUbx_ref cfg_logging env0 transport_600 state0)
    as (added & Hadded & Hbytes); [reflexivity | nat_compute | reflexivity |].
  rewrite Hbytes.
  assert (Hval : added = rawx_frame_500).
  { change (rb_elems (GNSSbuffer state0)) with (@nil byte) in Hadded.
    rewrite app_nil_l in Hadded. rewrite <- Hadded. vm_compute. reflexivity. }
  rewrite Hval. reflexivity.
Defined.

Lemma storeData_keeps_frame_buffer_witness :
  match storeData processUbx_ref cfg_logging env0 transport_600 state0 with
  | Returned _ st' => frame_buffer_ok st'
  | Halted st' => UBXpointer st' = UBXbufferSize /\ length (UBXbuffer st') = UBXbufferSize
  end.
Proof.
  apply (storeData_keeps_frame_buffer processUbx_ref cfg_logging env0 transport_600 state0).
  split; [nat_compute|]. split; [reflexivity|]. split; discriminate.
Defined.

(** Four stray bytes in three runs, then a PVT frame: the frame alone is
    staged, and the byte loop is between two frames after the noise and
    after the frame. *)
Lemma noise_before_frame_is_dropped_witness :
  concat noise_runs = [x00; x01; xb5; x00]
  /\ exists st1 st2,
       feed processUbx_ref cfg_logging env0 (concat noise_runs) state0 = Running st1
       /\ GNSSbuffer st1 = GNSSbuffer state0 /\ UBXpointer st1 = 0%nat
       /\ feed processUbx_ref cfg_logging env0 (concat noise_runs ++ nav_frame) state0
          = Running st2
       /\ rb_elems (GNSSbuffer st2) = nav_frame /\ UBXpointer st2 = 0%nat.
Proof.
  split; [reflexivity|].
  destruct (noise_before_frame_is_dropped processUbx_ref cfg_logging env0 noise_runs
              nav_frame state0 ubx_vars0 (mkUbxVars 4 4 172 145 172))
    as (st1 & st2 & Hfeed1 & Hg1 & _ & Hp1 & _ & _ & _ & Hfeed & Hg & Hp2 & _);
    try (vm_compute; reflexivity); try nat_compute.
  - repeat (apply List.Forall_cons; [nat_compute|]). apply List.Forall_nil.
  - exists st1, st2.
    split; [exact Hfeed1|]. split; [exact Hg1|]. split; [exact Hp1|].
    split; [exact Hfeed|]. split; [|exact Hp2].
    rewrite Hg. vm_compute. reflexivity.
Defined.

(** The 60 bytes of [frames_60] come in two reads, of 32 and 28 bytes. *)
Lemma read_loop_chunking_invariant_witness :
  length (chunked 60 (concat frames_60)) = 2%nat
  /\ read_loop processUbx_ref cfg_logging env0 (chunked 60 (concat frames_60)) 60 state0
     = match feed processUbx_ref cfg_logging env0 (concat frames_60) state0 with
       | Running st' => Returned true st'
       | Frozen st' => Halted st'
       end.
Proof.
  split; [reflexivity|].
  apply (read_loop_chunking_invariant processUbx_ref cfg_logging env0 60
           (concat frames_60) state0).
  - nat_compute.
  - vm_compute. reflexivity.
Defined.

(** A length of 0x803C is read as 0x003C. *)
Lemma length_high_bit_is_masked_witness :
  read_gnss processUbx_ref cfg_logging env0
            (mkTransport (LenBytes x80 x3c) (chunks transport_60)) state0
  = read_gnss processUbx_ref cfg_logging env0 transport_60 state0.
Proof.
  apply (length_high_bit_is_masked processUbx_ref cfg_logging env0 transport_60
           (mkTransport (LenBytes x80 x3c) (chunks transport_60)) state0 x00 x80 x3c);
    try reflexivity.
  vm_compute. discriminate.
Defined.

(** * Logging off: the parser still runs *)

Section LoggingOff.

Context {Aux : Type}.
Variable processUbx : ParseState -> Aux -> byte -> ParseState * Aux.
Variable cfg : Config.
Variable env : Env.
Implicit Types st : State Aux.

(** Where a stream of recognised frames leaves the parser and the
    buffers. *)
Lemma feed_frames_parsed frames : forall st v',
  parseUbxState st = PARSE_UBX_SYNC_CHAR_1 ->
  UBXpointer st = 0%nat ->
  length (UBXbuffer st) = UBXbufferSize ->
  parse_frames processUbx (parserVars st) frames = Some v' ->
  Forall (fun f => (3 <= length f < UBXbufferSize)%nat) frames ->
  exists st',
    feed processUbx cfg env (concat frames) st = Running st'
    /\ GNSSbuffer st' = copy_frame GNSSbufferSize (non_ack_bytes frames) (GNSSbuffer st)
    /\ parseUbxState st' = PARSE_UBX_SYNC_CHAR_1
    /\ UBXpointer st' = 0%nat
    /\ parserVars st' = v'.
Proof.
  induction frames as [|f rest IH]; intros st v' Hs Hp Hbuf Hparse Hall.
  - exists st. simpl in Hparse |- *. injection Hparse as <-. auto.
  - simpl in Hparse.
    destruct (parse_frame processUbx PARSE_UBX_SYNC_CHAR_1 (parserVars st) f)
      as [v1|] eqn:Hf; [|discriminate Hparse].
    apply Forall_cons in Hall as [Hlen Hall].
    destruct (after_one_frame cfg env f st v1 Hbuf Hlen) as (Hs1 & Hp1 & Hb1 & Hv1 & Hg1 & _).
    destruct (IH (frame_valid cfg env (frame_read f v1 st)) v' Hs1 Hp1 Hb1)
      as (st' & Hfeed & Hg & Hs' & Hp' & Hv'); [rewrite Hv1; exact Hparse | exact Hall |].
    exists st'. simpl concat. rewrite feed_app.
    rewrite (feed_one_frame processUbx cfg env f st v1 Hs Hp Hf) by lia.
    split; [exact Hfeed|]. split; [|auto].
    rewrite Hg, Hg1, non_ack_bytes_cons.
    destruct (is_ack f); [reflexivity | rewrite copy_frame_app; reflexivity].
Qed.

(** A poll that is due, of a receiver that announces the bytes of
    [frames] and serves them: the read phase is the byte loop over them. *)
Lemma read_gnss_frames tr st frames msb lsb fuel st1 :
  qwiicOnline_uBlox cfg = true -> qwiicAvailable_uBlox cfg = true ->
  usBetweenReadings cfg / 3 < wrap32 (micros env - lastReadTime st) ->
  len_reply tr = LenBytes msb lsb ->
  b2z msb < 128 -> b2z lsb <> 255 ->
  256 * b2z msb + b2z lsb = Z.of_nat (length (concat frames)) ->
  (0 < length (concat frames) <= fuel)%nat ->
  chunks tr = chunked fuel (concat frames) ->
  feed processUbx cfg env (concat frames) st = Running st1 ->
  read_gnss processUbx cfg env tr st = Returned true st1.
Proof.
  intros Hon Hav Hdue Hreply Hmsb Hlsb Hn Hfuel Hchunks Hfeed.
  pose proof (b2z_range msb) as Hm. pose proof (b2z_range lsb) as Hl.
  destruct (masked_length (b2z msb) (b2z lsb)) as (Hplain & Hlow & _); [lia | lia |].
  unfold read_gnss. rewrite Hon, Hav, Hreply. cbn [negb orb].
  destruct (Z.gtb_spec (wrap32 (micros env - lastReadTime st)) (usBetweenReadings cfg / 3))
    as [_|Hle]; [|lia].
  destruct (Z.eqb_spec (b2z lsb) 255) as [Hff|_]; [contradiction|].
  rewrite Hlow.
  destruct (Z.eqb_spec (wrap16 (Z.lor (Z.shiftl (b2z msb) 8) (b2z lsb))) 0)
    as [Hz|_]; [lia|].
  rewrite Hplain, Hn, Hchunks.
  apply read_loop_chunked_running; [lia | lia | exact Hfeed].
Qed.

(** C10.  Logging is disabled, or the card or the data logging is offline.
    An invocation of [storeData] that returns leaves the staging buffer
    empty and has written nothing to the file, the assembly buffer and its
    pointer being what they were; one that freezes in the read phase has
    written nothing either.  The read phase does not depend on the three
    flags.  And the parser does run and classify: when the receiver, polled
    in this invocation, serves a stream of frames the parser recognises,
    every byte of it is taken through the parser (which ends between two
    frames, with the variables it has after the last frame), the frames
    that are not ACK/NACK are staged in [GNSSbuffer], byte for byte, and
    the ACK/NACK frames are not; only then is the staging buffer emptied,
    and nothing of it reaches the file. *)
Theorem not_logging_discards tr st :
  logging_on cfg = false ->
  match storeData processUbx cfg env tr st with
  | Returned rv st' =>
      available (GNSSbuffer st') = 0%nat
      /\ file_ops (trace st') = file_ops (trace st)
      /\ SDbuffer st' = SDbuffer st /\ SDpointer st' = SDpointer st
      /\ exists st1, read_gnss processUbx cfg env tr st = Returned rv st1
           /\ parseUbxState st' = parseUbxState st1 /\ parserVars st' = parserVars st1
           /\ UBXbuffer st' = UBXbuffer st1 /\ UBXpointer st' = UBXpointer st1
  | Halted st' =>
      read_gnss processUbx cfg env tr st = Halted st'
      /\ file_ops (trace st') = file_ops (trace st)
  end
  /\ (forall l m d,
        read_gnss processUbx (with_gate l m d cfg) env tr st
        = read_gnss processUbx cfg env tr st)
  /\ (forall frames v' msb lsb fuel,
        qwiicOnline_uBlox cfg = true -> qwiicAvailable_uBlox cfg = true ->
        usBetweenReadings cfg / 3 < wrap32 (micros env - lastReadTime st) ->
        len_reply tr = LenBytes msb lsb ->
        b2z msb < 128 -> b2z lsb <> 255 ->
        256 * b2z msb + b2z lsb = Z.of_nat (length (concat frames)) ->
        (0 < length (concat frames) <= fuel)%nat ->
        chunks tr = chunked fuel (concat frames) ->
        parseUbxState st = PARSE_UBX_SYNC_CHAR_1 ->
        UBXpointer st = 0%nat ->
        length (UBXbuffer st) = UBXbufferSize ->
        parse_frames processUbx (parserVars st) frames = Some v' ->
        Forall (fun f => (3 <= length f < UBXbufferSize)%nat) frames ->
        exists st1 st',
          read_gnss processUbx cfg env tr st = Returned true st1
          /\ feed processUbx cfg env (concat frames) st = Running st1
          /\ GNSSbuffer st1
             = copy_frame GNSSbufferSize (non_ack_bytes frames) (GNSSbuffer st)
          /\ storeData processUbx cfg env tr st = Returned true st'
          /\ parseUbxState st' = PARSE_UBX_SYNC_CHAR_1
          /\ UBXpointer st' = 0%nat
          /\ parserVars st' = v'
          /\ available (GNSSbuffer st') = 0%nat
          /\ file_ops (trace st') = file_ops (trace st)).
Proof.
  intros Hgate.
  destruct (gate_off_discards processUbx cfg env tr st Hgate) as [Hcall Hflags].
  split; [exact Hcall|]. split; [exact Hflags|].
  intros frames v' msb lsb fuel Hon Hav Hdue Hreply Hmsb Hlsb Hn Hfuel Hchunks
         Hs Hp Hbuf Hparse Hall.
  destruct (feed_frames_parsed frames st v' Hs Hp Hbuf Hparse Hall)
    as (st1 & Hfeed & Hg & Hs1 & Hp1 & Hv1).
  pose proof (read_gnss_frames tr st frames msb lsb fuel st1
                Hon Hav Hdue Hreply Hmsb Hlsb Hn Hfuel Hchunks Hfeed) as Hread.
  unfold storeData in Hcall |- *. rewrite Hread in Hcall |- *.
  destruct Hcall as (Hempty & Hfile & _ & _ & _).
  destruct (sd_write_frame cfg env st1) as (Hp' & _ & Hs' & Hv' & _).
  exists st1, (sd_write cfg env st1).
  split; [reflexivity|]. split; [exact Hfeed|]. split; [exact Hg|].
  split; [reflexivity|].
  split; [rewrite Hs'; exact Hs1|]. split; [rewrite Hp'; exact Hp1|].
  split; [rewrite Hv'; exact Hv1|]. split; [exact Hempty | exact Hfile].
Qed.

End LoggingOff.

(** The 60 bytes of [transport_60] with logging off: the PVT and the
    TIMEUTC frame are staged by the read phase and the two ACK frames are
    not, the RTC is set from the TIMEUTC frame, and the call ends with the
    staging buffer empty and nothing in the file. *)
Lemma not_logging_discards_witness :
  exists st1 st',
    read_gnss processUbx_ref cfg_not_logging env0 transport_60 state0 = Returned true st1
    /\ rb_elems (GNSSbuffer st1) = nav_frame ++ timeutc_frame
    /\ storeData processUbx_ref cfg_not_logging env0 transport_60 state0
       = Returned true st'
    /\ parserVars st' = mkUbxVars 20 20 169 125 169
    /\ rtc_sets (trace st') = [RtcSetTime 12 59 50 0 1 11 21]
    /\ available (GNSSbuffer st') = 0%nat
    /\ file_ops (trace st') = [].
Proof.
  destruct (not_logging_discards processUbx_ref cfg_not_logging env0 transport_60 state0)
    as (_ & _ & Hframes); [reflexivity|].
  destruct (Hframes frames_60 (mkUbxVars 20 20 169 125 169) x00 x3c 60%nat)
    as (st1 & st' & Hread & _ & Hg & Hstore & _ & _ & Hv & Hempty & Hfile);
    try (vm_compute; reflexivity); try nat_compute.
  - vm_compute. discriminate.
  - repeat (apply List.Forall_cons; [nat_compute|]). apply List.Forall_nil.
  - exists st1, st'.
    split; [exact Hread|]. split; [rewrite Hg; vm_compute; reflexivity|].
    split; [exact Hstore|]. split; [exact Hv|].
    split; [|split; [exact Hempty | rewrite Hfile; reflexivity]].
    assert (Hr : rtc_sets (trace (outcome_state
                   (storeData processUbx_ref cfg_not_logging env0 transport_60 state0)))
                 = [RtcSetTime 12 59 50 0 1 11 21]) by (vm_compute; reflexivity).
    rewrite Hstore in Hr. exact Hr.
Defined.
